(** * Frisbee scenario engine: scheduler, reducers, validators, decorators

    A shallow embedding of the parts of the Frisbee controllers that the
    specification talks about, followed by the properties established for
    them.  Go packages become modules of the same name; Go [int] and
    [time.Duration] become [Z]; [time.Time] becomes the number of
    nanoseconds since the zero instant, so that the zero value of
    [time.Time] is [0]; Go maps become [gmap]; pointers that may be nil
    become [option]. *)

From Stdlib Require Import ZArith List Bool Ascii String Lia.
From stdpp Require Import base option list gmap strings pretty.
Import ListNotations.

Local Open Scope string_scope.
Local Open Scope Z_scope.

(** ** Package [time] (standard library): instants and durations *)

Module time.

Definition Time : Type := Z.
Definition Duration : Type := Z.

(** The zero value of [time.Time]. *)
Definition zero : Time := 0.

Definition IsZero (t : Time) : bool := t =? 0.
Definition Add (t : Time) (d : Duration) : Time := t + d.
Definition Before (t u : Time) : bool := t <? u.
Definition After (t u : Time) : bool := u <? t.

Definition Second : Duration := 1000000000.

End time.

(** ** Go runtime: a call either returns or panics *)

Inductive Outcome (A : Type) : Type :=
| Return (a : A)
| Panic (msg : string).
Arguments Return {A} a.
Arguments Panic {A} msg.

(** A Go result [(T, error)]: the value, or the non-nil error's message. *)
Inductive Result (A : Type) : Type :=
| Ok (a : A)
| Error (err : string).
Arguments Ok {A} a.
Arguments Error {A} err.

(** [fmt.Sprintf("%s", l)] for a slice of strings: [[a b c]]. *)
Definition fmtList (l : list string) : string :=
  "[" ++ String.concat " " l ++ "]".

(** Line feed and tabulator, for the raw string literals of the source. *)
Definition LF : string := String "010"%char "".
Definition TAB : string := String "009"%char "".

(** [fmt.Sprintf("%d", n)]. *)
Definition fmtInt (n : Z) : string := pretty n.

(** ** Packages [metav1] and [meta] (apimachinery): status conditions.
    Timestamps and observed generations are left out. *)

Module metav1.

Inductive ConditionStatus : Type :=
| ConditionTrue
| ConditionFalse
| ConditionUnknown.

Record Condition : Type := {
  Type_ : string;
  Status : option ConditionStatus;
  Reason : string;
  Message : string
}.

(** The zero value [metav1.Condition{}]. *)
Definition zeroCondition : Condition :=
  {| Type_ := ""; Status := None; Reason := ""; Message := "" |}.

#[global] Instance ConditionStatus_eq_dec : EqDecision ConditionStatus.
Proof. solve_decision. Defined.

#[global] Instance Condition_eq_dec : EqDecision Condition.
Proof. solve_decision. Defined.

End metav1.

Module meta.
Import metav1.

Fixpoint FindStatusCondition (conditions : list Condition) (conditionType : string)
  : option Condition :=
  match conditions with
  | [] => None
  | c :: rest =>
      if String.eqb (Type_ c) conditionType then Some c
      else FindStatusCondition rest conditionType
  end.

(** The first condition of the new condition's type is updated in
    place; when there is none the new condition is appended. *)
Fixpoint SetStatusCondition (conditions : list Condition) (newCondition : Condition)
  : list Condition :=
  match conditions with
  | [] => [newCondition]
  | c :: rest =>
      if String.eqb (Type_ c) (Type_ newCondition)
      then {| Type_ := Type_ c;
              Status := Status newCondition;
              Reason := Reason newCondition;
              Message := Message newCondition |} :: rest
      else c :: SetStatusCondition rest newCondition
  end.

Definition IsStatusConditionTrue (conditions : list Condition) (conditionType : string)
  : bool :=
  match FindStatusCondition conditions conditionType with
  | Some c => bool_decide (Status c = Some ConditionTrue)
  | None => false
  end.

End meta.

(** ** Package [v1alpha1]: the API types, restricted to the fields the
    controllers below read or write.  The sources hold the controllers
    but not the declarations of most of these types; a type is then
    given the fields and methods the controllers use, with the meaning
    the specification gives them. *)

Module v1alpha1.

(** Modelled from the spec: the declaration of the phases the controllers
    name is missing from the sources.  The phases are those of the
    specification's data model: Uninitialized, Pending, Running, Success,
    Failed. *)
Inductive Phase : Type :=
| PhaseUninitialized
| PhasePending
| PhaseRunning
| PhaseSuccess
| PhaseFailed.

Definition Phase_eqb (p q : Phase) : bool :=
  match p, q with
  | PhaseUninitialized, PhaseUninitialized
  | PhasePending, PhasePending
  | PhaseRunning, PhaseRunning
  | PhaseSuccess, PhaseSuccess
  | PhaseFailed, PhaseFailed => true
  | _, _ => false
  end.

(** The terminal phases. *)
Definition terminal (p : Phase) : Prop := p = PhaseSuccess \/ p = PhaseFailed.

(** Modelled from the spec: the method [Is] of [Phase] is missing from
    the sources; [p.Is(refs...)] holds when [p] is one of [refs]. *)
Definition Phase_Is (p : Phase) (refs : list Phase) : bool :=
  existsb (Phase_eqb p) refs.

(** Modelled from the spec: the declaration of [Lifecycle] with these
    fields is missing from the sources.  Phase, reason and message are
    those of the specification's data model.  [Conditions] is a field of
    [Lifecycle]: [CallStatus] (in [call_crd.go]) embeds [Lifecycle] and
    declares no conditions of its own, and the controllers read
    [cr.Status.Conditions]. *)
Record Lifecycle : Type := {
  Phase_ : Phase;
  Reason : string;
  Message : string;
  Conditions : list metav1.Condition
}.

(** Modelled from the spec: the declaration of the condition types is
    missing from the sources.  The constants are those the controllers
    name, and [String()] gives each the name the specification uses for
    it (the constant's name without its prefix). *)
Inductive ConditionType : Type :=
| ConditionCRInitialized
| ConditionAllJobsScheduled
| ConditionAllJobsAreScheduled
| ConditionAllJobsCompleted
| ConditionAllJobsAreCompleted
| ConditionJobFailed
| ConditionJobUnexpectedTermination
| ConditionAssertionError.

Definition ConditionType_String (c : ConditionType) : string :=
  match c with
  | ConditionCRInitialized => "CRInitialized"
  | ConditionAllJobsScheduled => "AllJobsScheduled"
  | ConditionAllJobsAreScheduled => "AllJobsAreScheduled"
  | ConditionAllJobsCompleted => "AllJobsCompleted"
  | ConditionAllJobsAreCompleted => "AllJobsAreCompleted"
  | ConditionJobFailed => "JobFailed"
  | ConditionJobUnexpectedTermination => "JobUnexpectedTermination"
  | ConditionAssertionError => "AssertionError"
  end.

(** [Tolerate { failedJobs: N }] *)
Record TolerateSpec : Type := { FailedJobs : Z }.

(** Modelled from the spec: the declaration of [ConditionalExpr] and of
    its methods is missing from the sources.  It holds a state expression
    and a metrics expression, both text; the empty string is the
    expression that is not set. *)
Record ConditionalExpr : Type := {
  Metrics : string;
  State : string
}.

(** Modelled from the spec: [HasMetricsExpr] and [HasStateExpr] are
    missing from the sources; each says whether its expression is set. *)
Definition HasMetricsExpr (c : ConditionalExpr) : bool :=
  negb (String.eqb (Metrics c) "").
Definition HasStateExpr (c : ConditionalExpr) : bool :=
  negb (String.eqb (State c) "").

(** Modelled from the spec: [IsZero] on a pointer to [ConditionalExpr] is
    missing from the sources; it holds for nil and for the expression in
    which nothing is set. *)
Definition ConditionalExpr_IsZero (c : option ConditionalExpr) : bool :=
  match c with
  | None => true
  | Some e => String.eqb (Metrics e) "" && String.eqb (State e) ""
  end.

(** Modelled from the spec: the declaration of [WaitSpec] is missing from
    the sources.  [DependsOn { success: names, running: names, after:
    duration }], with [After] a pointer, as [GetNextLogicalJob] reads it. *)
Record WaitSpec : Type := {
  Running : list string;
  Success : list string;
  After : option time.Duration
}.

(** Modelled from the spec: the declarations of [Action] and of the
    specifications it embeds are missing from the sources.  An action has
    a type, a name, optional dependencies, an optional assertion and,
    through the embedded pointer [*EmbedActions], one pointer per type of
    action, as [PrepareDependencyGraph] reads them. *)
Record GenerateFromTemplate : Type := { TemplateRef : string }.
Record ClusterSpec : Type := { Cluster_GenerateFromTemplate : GenerateFromTemplate }.
Record CascadeSpec : Type := { Cascade_GenerateFromTemplate : GenerateFromTemplate }.
Record CallSpecRef : Type := { Callable : string }.
Record DeleteSpec : Type := { Jobs : list string }.

Record EmbedActions : Type := {
  Service : option GenerateFromTemplate;
  Cluster : option ClusterSpec;
  Chaos : option GenerateFromTemplate;
  Cascade : option CascadeSpec;
  Delete : option DeleteSpec;
  Call : option CallSpecRef
}.

(** [ActionType] is a string type in Go; the constants are its values. *)
Definition ActionType : Type := string.
Definition ActionService : ActionType := "Service".
Definition ActionCluster : ActionType := "Cluster".
Definition ActionChaos : ActionType := "Chaos".
Definition ActionCascade : ActionType := "Cascade".
Definition ActionDelete : ActionType := "Delete".
Definition ActionCall : ActionType := "Call".

Record Action : Type := {
  ActionType_ : ActionType;
  Name : string;
  DependsOn : option WaitSpec;
  Assert : option ConditionalExpr;
  EmbedActions_ : option EmbedActions
}.

End v1alpha1.

(** ** Package [lifecycle]: the read side of the Classifier *)

Module lifecycle.

(** The [ClassifierReader] interface.  Any implementation may stand
    behind it, so it is a record of its observations. *)
Record ClassifierReader : Type := {
  IsSuccessful : string -> bool;
  IsRunning : string -> bool;
  NumPendingJobs : Z;
  NumRunningJobs : Z;
  NumSuccessfulJobs : Z;
  NumFailedJobs : Z;
  PendingList : list string;
  RunningList : list string;
  SuccessfulList : list string;
  FailedList : list string
}.

End lifecycle.

(** ** Package [scenario]: the logical scheduler *)

Module scenario.
Import v1alpha1 lifecycle.

(** The wall clock as [GetNextLogicalJob] sees it: [clock k] is what the
    k-th call of [metav1.Now()] made during the invocation returns. *)
Definition Clock : Type := nat -> time.Time.

(** The variables the closures of [GetNextLogicalJob] capture and
    update: how many clock readings were taken, and [nextCycle]. *)
Record SchedState : Type := {
  reads : nat;
  nextCycle : time.Time
}.

Section GetNextLogicalJob.
Variable timebase : time.Time.
Variable gs : ClassifierReader.
Variable executed : gmap string ConditionalExpr.
Variable clock : Clock.

Definition successOK (deps : WaitSpec) : bool :=
  forallb (IsSuccessful gs) (Success deps).

Definition runningOK (deps : WaitSpec) : bool :=
  forallb (IsRunning gs) (Running deps).

Definition timeOK (deps : WaitSpec) (st : SchedState) : bool * SchedState :=
  match After deps with
  | Some dur =>
      let cur := clock (reads st) in
      let st := {| reads := S (reads st); nextCycle := nextCycle st |} in
      let deadline := time.Add timebase dur in
      if time.Before deadline cur then (true, st)
      else if time.IsZero (nextCycle st)
      then (false, {| reads := reads st; nextCycle := deadline |})
      else if time.Before deadline (nextCycle st)
      then (false, {| reads := reads st; nextCycle := deadline |})
      else (false, st)
  | None => (true, st)
  end.

(** The [for _, action := range all] loop; [schedule] and [st] are the
    variables it updates. *)
Fixpoint scheduleLoop (all : list Action) (schedule : list Action)
  (st : SchedState) : list Action * SchedState :=
  match all with
  | [] => (schedule, st)
  | action :: rest =>
      match executed !! Name action with
      | Some _ => scheduleLoop rest schedule st
      | None =>
          match DependsOn action with
          | Some deps =>
              if negb (successOK deps) then scheduleLoop rest schedule st
              else if negb (runningOK deps) then scheduleLoop rest schedule st
              else
                let (ok, st') := timeOK deps st in
                if negb ok then scheduleLoop rest schedule st'
                else scheduleLoop rest (schedule ++ [action]) st'
          | None => scheduleLoop rest (schedule ++ [action]) st
          end
      end
  end.

Definition GetNextLogicalJob (all : list Action) : list Action * time.Time :=
  let (schedule, st) :=
    scheduleLoop all [] {| reads := 0; nextCycle := time.zero |} in
  (schedule, nextCycle st).

End GetNextLogicalJob.

(** Readiness as the code decides it, for a clock that shows [now] at
    every reading: the deadline must lie strictly before [now]. *)
Definition ready (timebase : time.Time) (gs : ClassifierReader)
  (executed : gmap string ConditionalExpr) (now : time.Time) (a : Action) : bool :=
  match executed !! Name a with
  | Some _ => false
  | None =>
      match DependsOn a with
      | None => true
      | Some deps =>
          successOK gs deps && runningOK gs deps &&
          match After deps with
          | None => true
          | Some dur => time.Add timebase dur <? now
          end
      end
  end.

(** The logical part of readiness: the action was not executed, every
    name of [depends.success] is classified successful and every name of
    [depends.running] is classified running. *)
Definition logicalReady (gs : ClassifierReader)
  (executed : gmap string ConditionalExpr) (a : Action) : Prop :=
  executed !! Name a = None /\
  (forall deps, DependsOn a = Some deps ->
     (forall n, In n (Success deps) -> IsSuccessful gs n = true) /\
     (forall n, In n (Running deps) -> IsRunning gs n = true)).

(** Readiness in the words of the specification: [depends.after] is
    absent or [timebase + after <= now]. *)
Definition readySpec (timebase : time.Time) (gs : ClassifierReader)
  (executed : gmap string ConditionalExpr) (now : time.Time) (a : Action) : Prop :=
  logicalReady gs executed a /\
  (forall deps dur, DependsOn a = Some deps -> After deps = Some dur ->
     timebase + dur <= now).

(** Readiness with the strict comparison of [deadline.Before(cur.Time)]. *)
Definition readyStrict (timebase : time.Time) (gs : ClassifierReader)
  (executed : gmap string ConditionalExpr) (now : time.Time) (a : Action) : Prop :=
  logicalReady gs executed a /\
  (forall deps dur, DependsOn a = Some deps -> After deps = Some dur ->
     timebase + dur < now).

(** The deadline of an action that waits for nothing but time at the
    instant [now]: it was not executed, its logical dependencies are met,
    it has a [depends.after] and its deadline [timebase + after] does not
    lie before [now]. *)
Definition blockedDeadline (timebase : time.Time) (gs : ClassifierReader)
  (executed : gmap string ConditionalExpr) (now : time.Time) (a : Action)
  : option time.Time :=
  match executed !! Name a with
  | Some _ => None
  | None =>
      match DependsOn a with
      | None => None
      | Some deps =>
          if successOK gs deps && runningOK gs deps then
            match After deps with
            | None => None
            | Some dur =>
                if time.Add timebase dur <? now then None
                else Some (time.Add timebase dur)
            end
          else None
      end
  end.

(** The deadlines of the actions of a list that wait for time, in order. *)
Definition blockedDeadlines (timebase : time.Time) (gs : ClassifierReader)
  (executed : gmap string ConditionalExpr) (now : time.Time) (all : list Action)
  : list time.Time :=
  omap (blockedDeadline timebase gs executed now) all.

(** How [timeOK] moves [nextCycle] on a deadline that has not expired:
    the first one is taken, and afterwards every earlier one. *)
Definition nearer (nextCycle deadline : time.Time) : time.Time :=
  if time.IsZero nextCycle then deadline
  else if time.Before deadline nextCycle then deadline
  else nextCycle.


(** A view in which nothing is classified. *)
Definition emptyView : ClassifierReader :=
  {| IsSuccessful := fun _ => false; IsRunning := fun _ => false;
     NumPendingJobs := 0; NumRunningJobs := 0;
     NumSuccessfulJobs := 0; NumFailedJobs := 0;
     PendingList := []; RunningList := []; SuccessfulList := []; FailedList := [] |}.

(** An action that only waits: [depends: {after: dur}]. *)
Definition waitFor (name : string) (dur : time.Duration) : Action :=
  {| ActionType_ := ActionService; Name := name;
     DependsOn := Some {| Running := []; Success := []; After := Some dur |};
     Assert := None; EmbedActions_ := None |}.

End scenario.

(** ** Package [stop]: lifecycle of a Stop job *)

Module stop.
Import v1alpha1 lifecycle.

Record StopSpec : Type := {
  Services : list string;
  Until : option ConditionalExpr;
  Suspend : option bool
}.

Record StopStatus : Type := {
  Lifecycle_ : Lifecycle;
  ScheduledJobs : Z
}.

Record Stop : Type := {
  GetName : string;
  Spec : StopSpec;
  Status : StopStatus
}.

Definition setLifecycle (status : StopStatus) (l : Lifecycle) : StopStatus :=
  {| Lifecycle_ := l; ScheduledJobs := ScheduledJobs status |}.

(** [meta.SetStatusCondition(&status.Conditions, c)] *)
Definition setCondition (status : StopStatus) (c : metav1.Condition) : StopStatus :=
  let l := Lifecycle_ status in
  setLifecycle status
    {| Phase_ := Phase_ l; Reason := Reason l; Message := Message l;
       Conditions := meta.SetStatusCondition (Conditions l) c |}.

(** [suspend := true; cr.Spec.Suspend = &suspend] *)
Definition suspend (cr : Stop) : Stop :=
  {| GetName := GetName cr;
     Spec := {| Services := Services (Spec cr);
                Until := Until (Spec cr);
                Suspend := Some true |};
     Status := Status cr |}.

Record test : Type := {
  expression : bool;
  lifecycle : Lifecycle;
  condition : metav1.Condition
}.

(** The [for _, testcase := range autotests] loop; [None] when it falls
    through. *)
Fixpoint firstMatch (autotests : list test) (status : StopStatus) : option StopStatus :=
  match autotests with
  | [] => None
  | testcase :: rest =>
      if expression testcase then
        let status := setLifecycle status (lifecycle testcase) in
        if decide (condition testcase <> metav1.zeroCondition)
        then Some (setCondition status (condition testcase))
        else Some status
      else firstMatch rest status
  end.

Section calculateLifecycle.
(** [expressions.FiredAlert(cr)] gives [(info, fired)];
    [expressions.FiredState(expr, gs)] gives [(info, fired, err)].  The
    package is outside the sources, so both are taken as they come. *)
Variable FiredAlert : Stop -> string * bool.
Variable FiredState : string -> ClassifierReader -> string * bool * option string.

Definition maxInstancesMsg (cr : Stop) : string :=
  "All  [" ++ fmtInt (Z.of_nat (length (Services (Spec cr))))
  ++ "] services are stopped for job [" ++ GetName cr
  ++ "] before Until conditions are met." ++ LF ++ TAB ++ TAB ++ TAB
  ++ "Abort the experiment as it too flaky to accept. ".

Definition mkLifecycle (p : Phase) (reason message : string) : Lifecycle :=
  {| Phase_ := p; Reason := reason; Message := message; Conditions := [] |}.

Definition mkCondition (t : ConditionType) (reason message : string) : metav1.Condition :=
  {| metav1.Type_ := ConditionType_String t;
     metav1.Status := Some metav1.ConditionTrue;
     metav1.Reason := reason;
     metav1.Message := message |}.

(** Step 4 of [calculateLifecycle]: the table of tests. *)
Definition autotests (status : StopStatus) (gs : ClassifierReader) (queuedJobs : Z)
  : list test :=
  [ {| expression := NumSuccessfulJobs gs =? queuedJobs;
       lifecycle := mkLifecycle PhaseSuccess "AllJobsCompleted"
                      ("successful jobs: " ++ fmtList (SuccessfulList gs));
       condition := mkCondition ConditionAllJobsCompleted "AllJobsCompleted"
                      ("successful jobs: " ++ fmtList (SuccessfulList gs)) |};
    {| expression := Phase_eqb (Phase_ (Lifecycle_ status)) PhaseRunning
                     && (0 <? NumFailedJobs gs);
       lifecycle := Lifecycle_ status;
       condition := metav1.zeroCondition |};
    {| expression := NumRunningJobs gs + NumSuccessfulJobs gs =? queuedJobs;
       lifecycle := mkLifecycle PhaseRunning "AllJobsRunning"
                      ("running jobs: " ++ fmtList (RunningList gs));
       condition := mkCondition ConditionAllJobsScheduled "AllJobsRunning"
                      ("running jobs: " ++ fmtList (RunningList gs)) |};
    {| expression := Phase_eqb (Phase_ (Lifecycle_ status)) PhasePending;
       lifecycle := mkLifecycle PhasePending "JobIsPending"
                      "at least one jobs has not yet created";
       condition := metav1.zeroCondition |} ].

(** Step 3 of [calculateLifecycle], entered when [cr.Spec.Until] is set. *)
Definition untilStep (cr : Stop) (gs : ClassifierReader) (until : ConditionalExpr)
  : StopStatus * Stop :=
  let status := Status cr in
  let metricsFired :=
    if HasMetricsExpr until then
      let (info, fired) := FiredAlert cr in
      if fired then Some info else None
    else None in
  match metricsFired with
  | Some info =>
      (setCondition
         (setLifecycle status (mkLifecycle PhaseRunning "MetricsEventFired" info))
         (mkCondition ConditionAllJobsScheduled "MetricsEventFired" info),
       suspend cr)
  | None =>
      let stateResult :=
        if HasStateExpr until then
          match FiredState (State until) gs with
          | (_, _, Some err) =>
              Some (setCondition
                      (setLifecycle status (mkLifecycle PhaseFailed "StateQueryError" err))
                      (mkCondition ConditionJobFailed "StateQueryError" err),
                    cr)
          | (info, true, None) =>
              Some (setCondition
                      (setLifecycle status (mkLifecycle PhaseRunning "StateEventFired" info))
                      (mkCondition ConditionAllJobsScheduled "StateEventFired" info),
                    suspend cr)
          | (_, false, None) => None
          end
        else None in
      match stateResult with
      | Some r => r
      | None =>
          if (0 <? Z.of_nat (length (Services (Spec cr))))
             && (Z.of_nat (length (Services (Spec cr))) <? ScheduledJobs (Status cr))
          then
            let msg := maxInstancesMsg cr in
            (setCondition
               (setLifecycle status (mkLifecycle PhaseFailed "MaxInstancesReached" msg))
               (mkCondition ConditionJobFailed "MaxInstancesReached" msg),
             cr)
          else
            (setLifecycle status
               (mkLifecycle PhasePending "SpawnUntilEvent" "Assertion is not yet satisfied."),
             cr)
      end
  end.

(** [calculateLifecycle] returns the new status; the second component
    is [cr] as the call leaves it ([Spec.Suspend] may have been set).
    The value of the panic is an error whose text begins with the words
    given here and goes on with a dump of the lifecycle and of the view. *)
Definition calculateLifecycle (cr : Stop) (gs : ClassifierReader)
  : Outcome (StopStatus * Stop) :=
  let status := Status cr in
  if Phase_eqb (Phase_ (Lifecycle_ status)) PhaseUninitialized
     || Phase_eqb (Phase_ (Lifecycle_ status)) PhaseSuccess
     || Phase_eqb (Phase_ (Lifecycle_ status)) PhaseFailed
  then Return (status, cr)
  else
    match Until (Spec cr) with
    | Some until => Return (untilStep cr gs until)
    | None =>
        let queuedJobs := Z.of_nat (length (Services (Spec cr))) in
        match firstMatch (autotests status gs queuedJobs) status with
        | Some status' => Return (status', cr)
        | None => Panic "unhandled lifecycle conditions."
        end
    end.

(** One reconciliation round as the controllers run it:
    [newStatus := calculateLifecycle(&cr, gs); cr.Status = newStatus]. *)
Definition reconcile (cr : Stop) (gs : ClassifierReader) : Outcome Stop :=
  match calculateLifecycle cr gs with
  | Return (newStatus, cr') =>
      Return {| GetName := GetName cr'; Spec := Spec cr'; Status := newStatus |}
  | Panic msg => Panic msg
  end.

(** Successive rounds, one per observed view. *)
Fixpoint reconcileAll (cr : Stop) (views : list ClassifierReader) : Outcome Stop :=
  match views with
  | [] => Return cr
  | gs :: rest =>
      match reconcile cr gs with
      | Return cr' => reconcileAll cr' rest
      | Panic msg => Panic msg
      end
  end.

End calculateLifecycle.

(** The inputs that reach the table of tests: the phase is Pending or
    Running and there is no Until. *)
Definition reachesTable (cr : Stop) : Prop :=
  Until (Spec cr) = None /\
  (Phase_ (Lifecycle_ (Status cr)) = PhasePending \/
   Phase_ (Lifecycle_ (Status cr)) = PhaseRunning).

(** Stand-ins for the expression engine in closed examples: nothing fires. *)
Definition neverFiredAlert (cr : Stop) : string * bool := ("", false).
Definition neverFiredState (expr : string) (gs : ClassifierReader)
  : string * bool * option string := ("", false, None).

(** A Stop job over [services] in the given phase. *)
Definition job (services : list string) (until : option ConditionalExpr)
  (phase : Phase) (scheduledJobs : Z) : Stop :=
  {| GetName := "job";
     Spec := {| Services := services; Until := until; Suspend := None |};
     Status := {| Lifecycle_ := {| Phase_ := phase; Reason := ""; Message := "";
                                   Conditions := [] |};
                  ScheduledJobs := scheduledJobs |} |}.

(** A view by its counts of running, successful and failed jobs. *)
Definition counts (running successful failed : Z) : ClassifierReader :=
  {| IsSuccessful := fun _ => false; IsRunning := fun _ => false;
     NumPendingJobs := 0; NumRunningJobs := running;
     NumSuccessfulJobs := successful; NumFailedJobs := failed;
     PendingList := []; RunningList := []; SuccessfulList := []; FailedList := [] |}.

End stop.

(** ** Package [call]: lifecycle of a Call job *)

Module call.
Import v1alpha1 lifecycle.

Record CallSpec : Type := {
  Callable : string;
  Services : list string;
  Until : option ConditionalExpr;
  Tolerate : option TolerateSpec;
  Suspend : option bool
}.

Record CallStatus : Type := {
  Lifecycle_ : Lifecycle;
  ScheduledJobs : Z
}.

Record Call : Type := {
  GetName : string;
  Spec : CallSpec;
  Status : CallStatus
}.

Definition setLifecycle (cr : Call) (l : Lifecycle) : Call :=
  {| GetName := GetName cr;
     Spec := Spec cr;
     Status := {| Lifecycle_ := l; ScheduledJobs := ScheduledJobs (Status cr) |} |}.

(** The three assignments to [cr.Status.Lifecycle.Phase], [.Reason] and
    [.Message]; the conditions stay. *)
Definition setPhase (cr : Call) (p : Phase) (reason message : string) : Call :=
  setLifecycle cr
    {| Phase_ := p; Reason := reason; Message := message;
       Conditions := Conditions (Lifecycle_ (Status cr)) |}.

(** [meta.SetStatusCondition(&cr.Status.Conditions, c)] *)
Definition setCondition (cr : Call) (c : metav1.Condition) : Call :=
  let l := Lifecycle_ (Status cr) in
  setLifecycle cr
    {| Phase_ := Phase_ l; Reason := Reason l; Message := Message l;
       Conditions := meta.SetStatusCondition (Conditions l) c |}.

(** [suspend := true; cr.Spec.Suspend = &suspend] *)
Definition suspend (cr : Call) : Call :=
  {| GetName := GetName cr;
     Spec := {| Callable := Callable (Spec cr);
                Services := Services (Spec cr);
                Until := Until (Spec cr);
                Tolerate := Tolerate (Spec cr);
                Suspend := Some true |};
     Status := Status cr |}.

Definition mkCondition (t : ConditionType) (reason message : string) : metav1.Condition :=
  {| metav1.Type_ := ConditionType_String t;
     metav1.Status := Some metav1.ConditionTrue;
     metav1.Reason := reason;
     metav1.Message := message |}.

Definition maxInstancesMsg (cr : Call) (maxJobs : Z) : string :=
  "Resource [" ++ GetName cr ++ "] has reached Max instances [" ++ fmtInt maxJobs
  ++ "] before Until conditions are met." ++ LF ++ TAB ++ TAB ++ TAB
  ++ "Abort the experiment as it too flaky to accept. You can retry without defining instances.".

Section calculateLifecycle.
(** [lifecycle.GroupedJobs(totalJobs, view, &lf, tolerate)] updates the
    lifecycle it is handed and reports whether it did;
    [expressions.Condition{Expr: e}.IsTrue(view, cr)] reports whether
    the condition fired, with [eval.Info].  Neither function is in the
    sources, so the controller is stated over any two of them. *)
Variable GroupedJobs :
  Z -> ClassifierReader -> Lifecycle -> option TolerateSpec -> bool * Lifecycle.
Variable IsTrue : option ConditionalExpr -> ClassifierReader -> Call -> bool * string.

(** The method of [*Controller]; [view] is [r.view].  The result is the
    returned flag and [cr] as the call leaves it. *)
Definition calculateLifecycle (view : ClassifierReader) (cr : Call) : bool * Call :=
  if Phase_Is (Phase_ (Lifecycle_ (Status cr)))
       [PhaseUninitialized; PhaseSuccess; PhaseFailed]
  then (false, cr)
  else if negb (ConditionalExpr_IsZero (Until (Spec cr))) then
    if meta.IsStatusConditionTrue (Conditions (Lifecycle_ (Status cr)))
         (ConditionType_String ConditionAllJobsAreScheduled)
    then
      let totalJobs := ScheduledJobs (Status cr) + 1 in
      let (changed, l) :=
        GroupedJobs totalJobs view (Lifecycle_ (Status cr)) (Tolerate (Spec cr)) in
      (changed, setLifecycle cr l)
    else
      let (fired, info) := IsTrue (Until (Spec cr)) view cr in
      if fired then
        (true,
         suspend (setCondition (setPhase cr PhaseRunning "UntilCondition" info)
                    (mkCondition ConditionAllJobsAreScheduled "UntilCondition" info)))
      else
        let maxJobs := Z.of_nat (length (Services (Spec cr))) in
        if (0 <? maxJobs) && (maxJobs <? ScheduledJobs (Status cr)) then
          let msg := maxInstancesMsg cr maxJobs in
          (true,
           setCondition (setPhase cr PhaseFailed "MaxInstancesReached" msg)
             (mkCondition ConditionJobUnexpectedTermination "MaxInstancesReached" msg))
        else
          (true,
           setPhase cr PhasePending "SpawnUntilEvent" "Assertion is not yet satisfied.")
  else
    let totalJobs := Z.of_nat (length (Services (Spec cr))) in
    let (changed, l) :=
      GroupedJobs totalJobs view (Lifecycle_ (Status cr)) (Tolerate (Spec cr)) in
    (changed, setLifecycle cr l).

(** Successive rounds on the same object, one per observed view. *)
Fixpoint reconcileAll (cr : Call) (views : list ClassifierReader) : Call :=
  match views with
  | [] => cr
  | view :: rest => reconcileAll (snd (calculateLifecycle view cr)) rest
  end.

End calculateLifecycle.

(** Stand-ins in closed examples: a reducer that changes nothing and a
    condition that never fires. *)
Definition idleGroupedJobs (totalJobs : Z) (view : ClassifierReader) (lf : Lifecycle)
  (tolerate : option TolerateSpec) : bool * Lifecycle := (false, lf).
Definition neverTrue (expr : option ConditionalExpr) (view : ClassifierReader) (cr : Call)
  : bool * string := (false, "").


(** A Call job over [services] in the given phase. *)
Definition job (services : list string) (until : option ConditionalExpr)
  (phase : Phase) (scheduledJobs : Z) : Call :=
  {| GetName := "job";
     Spec := {| Callable := "probe"; Services := services; Until := until;
                Tolerate := None; Suspend := None |};
     Status := {| Lifecycle_ := {| Phase_ := phase; Reason := ""; Message := "";
                                   Conditions := [] |};
                  ScheduledJobs := scheduledJobs |} |}.

End call.

(** ** Package [scheduler]: cron schedules with a starting deadline *)

Module scheduler.
Import v1alpha1.

Record SchedulerSpec : Type := {
  Cron : option string;
  StartingDeadlineSeconds : option Z;
  Event : option ConditionalExpr
}.

(** [cron.Schedule]: the interface with the one method [Next]. *)
Definition Schedule : Type := time.Time -> time.Time.

(** Arithmetic of [int64], for the product of durations. *)
Definition wrap64 (z : Z) : Z := (z + 2 ^ 63) mod 2 ^ 64 - 2 ^ 63.

(** [IsZero] on a pointer to [metav1.Time]: nil, or the zero instant. *)
Definition IsZero (t : option time.Time) : bool :=
  match t with
  | None => true
  | Some t => time.IsZero t
  end.

(** How the loop over the missed start times ends: it runs to its exit
    with the last missed start (and the counter), or it returns the
    error from its body. *)
Inductive LoopEnd : Type :=
| Exit (lastMissed : time.Time) (starts : Z)
| TooMany.

Definition tooManyMsg : string :=
  "too many missed start times (> 100). Set or decrease .spec.startingDeadlineSeconds or check clock skew".

Section getNextScheduleTime.
(** [cron.ParseStandard] and [%q] ([strconv.Quote]) belong to libraries. *)
Variable ParseStandard : string -> Result Schedule.
Variable Quote : string -> string.

(** [for t := sched.Next(earliestTime); !t.After(cur); t = sched.Next(t)]
    entered with the current [t]; every recursive call is one
    execution of the post statement [t = sched.Next(t)].  [None] when
    [fuel] post statements were not enough. *)
Fixpoint missedLoop (sched : Schedule) (cur : time.Time) (fuel : nat)
  (t : time.Time) (starts : Z) (lastMissed : time.Time) : option LoopEnd :=
  if negb (time.After t cur) then
    let lastMissed := t in
    let starts := starts + 1 in
    if 100 <? starts then Some TooMany
    else
      match fuel with
      | O => None
      | S fuel' => missedLoop sched cur fuel' (sched t) starts lastMissed
      end
  else Some (Exit lastMissed starts).

(** The start of the search: the last schedule time, or the creation time
    when there is none, moved up to the scheduling deadline
    [cur - StartingDeadlineSeconds] when that is later. *)
Definition earliestTime (cur creationTimestamp : time.Time) (spec : SchedulerSpec)
  (lastScheduleTime : option time.Time) : time.Time :=
  let earliestTime :=
    if IsZero lastScheduleTime then creationTimestamp
    else default time.zero lastScheduleTime in
  match StartingDeadlineSeconds spec with
  | Some secs =>
      let schedulingDeadline := time.Add cur (wrap64 (- time.Second * secs)) in
      if time.After schedulingDeadline earliestTime
      then schedulingDeadline else earliestTime
  | None => earliestTime
  end.

(** [creationTimestamp] is [obj.GetCreationTimestamp().Time]; [cur] is
    the reading of [time.Now()] on entry and [now'] the reading taken
    on the path without a schedule. *)
Definition getNextScheduleTime (fuel : nat) (cur now' : time.Time)
  (creationTimestamp : time.Time) (scheduler : option SchedulerSpec)
  (lastScheduleTime : option time.Time)
  : option (time.Time * time.Time * option string) :=
  match scheduler with
  | None => Some (now', time.zero, None)
  | Some spec =>
      match Cron spec with
      | None => Some (now', time.zero, None)
      | Some expr =>
          match ParseStandard expr with
          | Error err =>
              Some (time.zero, time.zero,
                    Some ("unparseable schedule " ++ Quote expr ++ ": " ++ err))
          | Ok sched =>
              let earliestTime :=
                earliestTime cur creationTimestamp spec lastScheduleTime in
              if time.After earliestTime cur
              then Some (time.zero, sched cur, None)
              else
                match missedLoop sched cur fuel (sched earliestTime) 0 time.zero with
                | None => None
                | Some TooMany => Some (time.zero, time.zero, Some tooManyMsg)
                | Some (Exit lastMissed _) => Some (lastMissed, sched cur, None)
                end
          end
      end
  end.

End getNextScheduleTime.

(** The first [n] activation times from [t] on, [t] included, are all
    missed: none lies after [cur]. *)
Fixpoint allMissed (sched : Schedule) (cur t : time.Time) (n : nat) : bool :=
  match n with
  | O => true
  | S n' => negb (time.After t cur) && allMissed sched cur (sched t) n'
  end.

(** A schedule moves forward when every activation time lies after the
    time it is asked for, as the activation times of a cron expression do. *)
Definition movesForward (sched : Schedule) : Prop := forall t, t < sched t.

(** [ctrl.Result] *)
Record CtrlResult : Type := {
  Requeue : bool;
  RequeueAfter : time.Duration
}.

(** The zero value [ctrl.Result{}]. *)
Definition noRequeue : CtrlResult := {| Requeue := false; RequeueAfter := 0 |}.

(** [t.Sub(u)]: the difference as a [Duration], which stops at the least
    and at the greatest [int64]; [time.Until(t)] is [t.Sub(time.Now())]. *)
Definition Sub (t u : time.Time) : time.Duration :=
  Z.max (- 2 ^ 63) (Z.min (2 ^ 63 - 1) (t - u)).

Section Schedule.
Variable ParseStandard : string -> Result Schedule.
Variable Quote : string -> string.
(** [expressions.Condition{Expr: e}.IsTrue(state, cr)], for the object at
    hand, and [lifecycle.Failed(ctx, r, cr, err)], which records the
    failure on the object and gives the [(ctrl.Result, error)] to return.
    Neither is in the sources. *)
Variable IsTrue : option ConditionalExpr -> lifecycle.ClassifierReader -> bool.
Variable Failed : string -> CtrlResult * option string.

(** [clock k] is the k-th reading of [time.Now()] during the call.
    [getNextScheduleTime] takes one reading, and a second one when there is
    no cron expression; [time.Until] is called once for the log line and
    once for the result. *)
Definition timeBasedWithDeadline (fuel : nat) (clock : nat -> time.Time)
  (creationTimestamp : time.Time) (schedule : SchedulerSpec)
  (lastSchedule : option time.Time) : option (bool * CtrlResult * option string) :=
  let reads := match Cron schedule with Some _ => 1%nat | None => 2%nat end in
  match getNextScheduleTime ParseStandard Quote fuel (clock 0%nat) (clock 1%nat)
          creationTimestamp (Some schedule) lastSchedule with
  | None => None
  | Some (_, _, Some err) => Some (false, noRequeue, None)
  | Some (missedRun, nextRun, None) =>
      if time.IsZero missedRun then
        if time.IsZero nextRun then Some (false, noRequeue, None)
        else
          Some (false,
                {| Requeue := true; RequeueAfter := Sub nextRun (clock (S reads)) |},
                None)
      else
        let tooLate :=
          match StartingDeadlineSeconds schedule with
          | Some deadline =>
              time.Before (time.Add missedRun (wrap64 (deadline * time.Second)))
                (clock reads)
          | None => false
          end in
        if tooLate then
          let (ret, err) := Failed "scheduling violation" in
          Some (false, ret, err)
        else Some (true, noRequeue, None)
  end.

(** [Schedule] of the source (the name without the underscore is taken
    by the type of cron schedules). *)
Definition Schedule_ (fuel : nat) (clock : nat -> time.Time)
  (creationTimestamp : time.Time) (schedule : option SchedulerSpec)
  (lastSchedule : option time.Time) (state : lifecycle.ClassifierReader)
  : option (bool * CtrlResult * option string) :=
  match schedule with
  | None => Some (true, noRequeue, None)
  | Some spec =>
      if negb (ConditionalExpr_IsZero (Event spec)) && IsTrue (Event spec) state
      then Some (true, noRequeue, None)
      else
        match Cron spec with
        | Some _ => timeBasedWithDeadline fuel clock creationTimestamp spec lastSchedule
        | None => Some (false, noRequeue, None)
        end
  end.

End Schedule.

(** A cron specification without events, and stand-ins for closed
    examples: no condition holds, and a failure is returned as an error. *)
Definition cronOnly (expr : string) (deadline : option Z) : SchedulerSpec :=
  {| Cron := Some expr; StartingDeadlineSeconds := deadline; Event := None |}.
Definition neverTrue (expr : option ConditionalExpr) (state : lifecycle.ClassifierReader)
  : bool := false.
Definition failWith (err : string) : CtrlResult * option string :=
  (noRequeue, Some err).
Definition parseNothing (expr : string) : Result Schedule := Error "bad expression".

(** A schedule that fires every [period] nanoseconds, and a parser that
    reads every expression as that schedule. *)
Definition every (period : time.Duration) : Schedule := fun t => t + period.
Definition parseEvery (period : time.Duration) (expr : string) : Result Schedule :=
  Ok (every period).

End scheduler.

(** ** Package [testplan]: the index of actions *)

Module testplan.
Import v1alpha1.

(** [type index map[string]*v1alpha1.Action] *)
Abbreviation index := (gmap string Action).

Definition isSupported (act : Action) : bool :=
  match EmbedActions_ act with
  | None => false
  | Some e =>
      if String.eqb (ActionType_ act) ActionService then bool_decide (Service e <> None)
      else if String.eqb (ActionType_ act) ActionCluster then bool_decide (Cluster e <> None)
      else if String.eqb (ActionType_ act) ActionChaos then bool_decide (Chaos e <> None)
      else if String.eqb (ActionType_ act) ActionCascade then bool_decide (Cascade e <> None)
      else if String.eqb (ActionType_ act) ActionDelete then bool_decide (Delete e <> None)
      else if String.eqb (ActionType_ act) ActionCall then bool_decide (Call e <> None)
      else false
  end.

Section PrepareDependencyGraph.
(** [validation.IsQualifiedName] (apimachinery): the list of
    violations, empty for a qualified name. *)
Variable IsQualifiedName : string -> list string.

(** The [for i, action := range actionList] loop over the rest of the
    list, with the index built so far. *)
Fixpoint prepareLoop (actionList : list Action) (callIndex : index) : Result index :=
  match actionList with
  | [] => Ok callIndex
  | action :: rest =>
      if negb (isSupported action) then
        Error ("incorrent spec for type [" ++ ActionType_ action
               ++ "] of action [" ++ Name action ++ "]")
      else
        match IsQualifiedName (Name action) with
        | _ :: _ as errs =>
            Error ("invalid actioname " ++ Name action ++ ": "
                   ++ String.concat "; " errs)
        | [] =>
            match callIndex !! Name action with
            | Some _ => Error ("Duplicate action '" ++ Name action ++ "'")
            | None => prepareLoop rest (<[Name action := action]> callIndex)
            end
        end
  end.

Definition PrepareDependencyGraph (actionList : list Action) : Result index :=
  prepareLoop actionList ∅.

End PrepareDependencyGraph.

Section Validate.
Variable IsQualifiedName : string -> list string.
(** [expressions.FiredState] gives [(info, fired, err)];
    [grafana.ParseAlertExpr], [serviceutils.GetServiceSpec] and
    [chaosutils.GetChaosSpec] give a value and an error, of which only
    the error is looked at.  [%s] formats a [*WaitSpec].  None of them is
    in the sources. *)
Variable FiredState :
  string -> lifecycle.ClassifierReader -> string * bool * option string.
Variable ParseAlertExpr : string -> option string.
Variable GetServiceSpec : GenerateFromTemplate -> option string.
Variable GetChaosSpec : GenerateFromTemplate -> option string.
Variable fmtWaitSpec : WaitSpec -> string.
(** The order in which [range] visits the entries of a map, which Go
    leaves open. *)
Variable order : index -> list (string * Action).

Definition nilDereference : string :=
  "invalid memory address or nil pointer dereference".

Definition depsIn (callIndex : index) (deps : list string) : bool :=
  forallb (fun dep => bool_decide (callIndex !! dep <> None)) deps.

Definition CheckDependencies (action : Action) (callIndex : index) : option string :=
  match DependsOn action with
  | Some deps =>
      if negb (depsIn callIndex (Success deps)) || negb (depsIn callIndex (Running deps))
      then Some ("invalid dependency. action [" ++ Name action ++ "] depends on ["
                 ++ fmtWaitSpec deps ++ "]")
      else None
  | None => None
  end.

Definition CheckAssertions (action : Action) (state : lifecycle.ClassifierReader)
  : Outcome (option string) :=
  if negb (ConditionalExpr_IsZero (Assert action)) then
    match EmbedActions_ action with
    | None => Panic nilDereference
    | Some e =>
        match Delete e with
        | Some _ => Return (Some "Delete job cannot have assertion")
        | None =>
            let assert := default {| Metrics := ""; State := "" |} (Assert action) in
            let stateErr :=
              if HasStateExpr assert then
                match FiredState (State assert) state with
                | (_, _, Some err) =>
                    Some ("Invalid state expr for action " ++ Name action ++ ": " ++ err)
                | _ => None
                end
              else None in
            match stateErr with
            | Some err => Return (Some err)
            | None =>
                if HasMetricsExpr assert then
                  match ParseAlertExpr (Metrics assert) with
                  | Some err =>
                      Return (Some ("Invalid metrics expr for action " ++ Name action
                                    ++ ": " ++ err))
                  | None => Return None
                  end
                else Return None
            end
        end
    end
  else Return None.

(** The template a reference check reads through the pointers of the
    action; a nil pointer on the way panics. *)
Definition templateOf {A : Type} (action : Action) (field : EmbedActions -> option A)
  (ref : A -> GenerateFromTemplate) : Outcome GenerateFromTemplate :=
  match EmbedActions_ action with
  | None => Panic nilDereference
  | Some e =>
      match field e with
      | None => Panic nilDereference
      | Some x => Return (ref x)
      end
  end.

Definition checkRef (get : GenerateFromTemplate -> option string) (what : string)
  (ref : Outcome GenerateFromTemplate) : Outcome (option string) :=
  match ref with
  | Panic msg => Panic msg
  | Return t =>
      match get t with
      | Some err => Return (Some ("cannot retrieve " ++ what ++ " spec: " ++ err))
      | None => Return None
      end
  end.

Definition CheckTemplateRef (action : Action) : Outcome (option string) :=
  if String.eqb (ActionType_ action) ActionService then
    checkRef GetServiceSpec "service" (templateOf action Service id)
  else if String.eqb (ActionType_ action) ActionCluster then
    checkRef GetServiceSpec "cluster"
      (templateOf action Cluster Cluster_GenerateFromTemplate)
  else if String.eqb (ActionType_ action) ActionChaos then
    checkRef GetChaosSpec "chaos" (templateOf action Chaos id)
  else if String.eqb (ActionType_ action) ActionCascade then
    checkRef GetChaosSpec "cascade"
      (templateOf action Cascade Cascade_GenerateFromTemplate)
  else Return None.

(** [for _, job := range action.Delete.Jobs] *)
Fixpoint checkJobs (callIndex : index) (action : Action) (jobs : list string)
  : option string :=
  match jobs with
  | [] => None
  | job :: rest =>
      match callIndex !! job with
      | None =>
          Some ("job [" ++ job ++ "] of action [" ++ Name action ++ "] does not exist")
      | Some target =>
          if String.eqb (ActionType_ target) ActionDelete
          then Some ("cycle deletion. job [" ++ job ++ "] of action [" ++ Name action
                     ++ "] is a deletion job")
          else checkJobs callIndex action rest
      end
  end.

Definition CheckJobRef (action : Action) (callIndex : index) : Outcome (option string) :=
  if String.eqb (ActionType_ action) ActionDelete then
    match EmbedActions_ action with
    | None => Panic nilDereference
    | Some e =>
        match Delete e with
        | None => Panic nilDereference
        | Some d => Return (checkJobs callIndex action (Jobs d))
        end
    end
  else Return None.

(** [errors.Wrapf(err, text)] around the result of a check. *)
Definition wrap (text : string) (r : Outcome (option string)) : Outcome (option string) :=
  match r with
  | Return (Some err) => Return (Some (text ++ ": " ++ err))
  | _ => r
  end.

(** The four checks of one action, in the order of the loop body. *)
Definition checkAction (callIndex : index) (state : lifecycle.ClassifierReader)
  (actionName : string) (action : Action) : Outcome (option string) :=
  match CheckDependencies action callIndex with
  | Some err =>
      Return (Some ("dependency error for action [" ++ actionName ++ "]: " ++ err))
  | None =>
      match wrap ("assertion error for action [" ++ actionName ++ "]")
              (CheckAssertions action state) with
      | Return None =>
          match wrap ("template reference error for action [" ++ actionName ++ "]")
                  (CheckTemplateRef action) with
          | Return None =>
              wrap ("job reference error for action [" ++ actionName ++ "]")
                (CheckJobRef action callIndex)
          | r => r
          end
      | r => r
      end
  end.

(** [for actionName, action := range callIndex] over the entries in the
    order of the visit. *)
Fixpoint checkEntries (callIndex : index) (state : lifecycle.ClassifierReader)
  (entries : list (string * Action)) : Outcome (option string) :=
  match entries with
  | [] => Return None
  | (actionName, action) :: rest =>
      match checkAction callIndex state actionName action with
      | Return None => checkEntries callIndex state rest
      | r => r
      end
  end.

(** The method [Validate] of the controller, on the name and the actions
    of the plan. *)
Definition Validate (planName : string) (actions : list Action)
  (clusterView : lifecycle.ClassifierReader) : Outcome (option string) :=
  match PrepareDependencyGraph IsQualifiedName actions with
  | Error err => Return (Some ("invalid plan [" ++ planName ++ "]: " ++ err))
  | Ok callIndex => checkEntries callIndex clusterView (order callIndex)
  end.

End Validate.

(** What the checks of [Validate] ask of one action of a plan. *)
Section validAction.
Variable IsQualifiedName : string -> list string.
Variable FiredState :
  string -> lifecycle.ClassifierReader -> string * bool * option string.
Variable ParseAlertExpr : string -> option string.
Variable GetServiceSpec : GenerateFromTemplate -> option string.
Variable GetChaosSpec : GenerateFromTemplate -> option string.
Variable state : lifecycle.ClassifierReader.
Variable actions : list Action.

(** The type of the action is supported, its specification is set, and
    its name is qualified. *)
Definition wellFormed (a : Action) : Prop :=
  isSupported a = true /\ IsQualifiedName (Name a) = [].

(** The name is the name of an action of the plan. *)
Definition defined (name : string) : Prop :=
  exists b, In b actions /\ Name b = name.

(** The name is the name of an action of the plan that is not a Delete. *)
Definition deletable (name : string) : Prop :=
  exists b, In b actions /\ Name b = name /\ ActionType_ b <> ActionDelete.

Definition dependenciesDefined (a : Action) : Prop :=
  forall deps, DependsOn a = Some deps ->
    forall dep, In dep (Success deps) \/ In dep (Running deps) -> defined dep.

Definition assertionAccepted (a : Action) : Prop :=
  forall e, Assert a = Some e -> (Metrics e <> "" \/ State e <> "") ->
    (forall emb, EmbedActions_ a = Some emb -> Delete emb = None) /\
    (State e <> "" -> snd (FiredState (State e) state) = None) /\
    (Metrics e <> "" -> ParseAlertExpr (Metrics e) = None).

Definition templateResolves (a : Action) : Prop :=
  forall emb, EmbedActions_ a = Some emb ->
    (ActionType_ a = ActionService ->
       forall t, Service emb = Some t -> GetServiceSpec t = None) /\
    (ActionType_ a = ActionCluster ->
       forall c, Cluster emb = Some c ->
                 GetServiceSpec (Cluster_GenerateFromTemplate c) = None) /\
    (ActionType_ a = ActionChaos ->
       forall t, Chaos emb = Some t -> GetChaosSpec t = None) /\
    (ActionType_ a = ActionCascade ->
       forall c, Cascade emb = Some c ->
                 GetChaosSpec (Cascade_GenerateFromTemplate c) = None).

Definition jobsDeletable (a : Action) : Prop :=
  ActionType_ a = ActionDelete ->
  forall emb d, EmbedActions_ a = Some emb -> Delete emb = Some d ->
    forall job, In job (Jobs d) -> deletable job.

Definition validAction (a : Action) : Prop :=
  wellFormed a /\
  dependenciesDefined a /\ assertionAccepted a /\ templateResolves a /\ jobsDeletable a.

(** A valid plan: no name twice, every action valid. *)
Definition validPlan : Prop :=
  List.NoDup (map Name actions) /\ forall a, In a actions -> validAction a.

End validAction.

(** A Service action from a template, without dependencies. *)
Definition serviceAction (name : string) : Action :=
  {| ActionType_ := ActionService; Name := name;
     DependsOn := None; Assert := None;
     EmbedActions_ :=
       Some {| Service := Some {| TemplateRef := "template" |};
               Cluster := None; Chaos := None; Cascade := None;
               Delete := None; Call := None |} |}.

(** A name check that accepts every name. *)
Definition anyName (name : string) : list string := [].

(** A stand-in for the template lookups in which every template is there. *)
Definition templateFound (t : GenerateFromTemplate) : option string := None.

End testplan.

(** ** Package [workflow]: [ValidateDAG] *)

Module workflow.
Import v1alpha1 lifecycle.

(** [action.Delete] reads through the embedded pointer. *)
Definition getDelete (action : Action) : Outcome (option DeleteSpec) :=
  match EmbedActions_ action with
  | None => Panic "invalid memory address or nil pointer dereference"
  | Some e => Return (Delete e)
  end.

Section ValidateDAG.
Variable IsQualifiedName : string -> list string.
(** [expressions.FiredState] gives [(info, fired, err)] and
    [grafana.ParseAlertExpr] gives [(alert, err)], of which only the
    error is looked at. *)
Variable FiredState : string -> ClassifierReader -> string * bool * option string.
Variable ParseAlertExpr : string -> option string.
(** [%s] of a [*WaitSpec]. *)
Variable fmtWaitSpec : WaitSpec -> string.

(** First loop: names are checked and the index is filled; a name met
    again replaces the earlier entry. *)
Fixpoint indexLoop (list : list Action) (index : gmap string Action)
  : Result (gmap string Action) :=
  match list with
  | [] => Ok index
  | action :: rest =>
      match IsQualifiedName (Name action) with
      | _ :: _ as errs =>
          Error ("invalid actioname " ++ Name action ++ ": "
                 ++ String.concat "; " errs)
      | [] => indexLoop rest (<[Name action := action]> index)
      end
  end.

Definition successOK (index : gmap string Action) (deps : WaitSpec) : bool :=
  forallb (fun dep => bool_decide (index !! dep <> None)) (Success deps).

Definition runningOK (index : gmap string Action) (deps : WaitSpec) : bool :=
  forallb (fun dep => bool_decide (index !! dep <> None)) (Running deps).

Definition checkDependsOn (index : gmap string Action) (action : Action)
  : option string :=
  match DependsOn action with
  | Some deps =>
      if negb (successOK index deps) || negb (runningOK index deps)
      then Some ("invalid dependency. action [" ++ Name action ++ "] depends on ["
                 ++ fmtWaitSpec deps ++ "]")
      else None
  | None => None
  end.

Definition checkAssert (state : ClassifierReader) (action : Action)
  : Outcome (option string) :=
  if negb (ConditionalExpr_IsZero (Assert action)) then
    match getDelete action with
    | Panic msg => Panic msg
    | Return (Some _) => Return (Some "Delete job cannot have assertion")
    | Return None =>
        let assert := default {| Metrics := ""; State := "" |} (Assert action) in
        let stateErr :=
          if HasStateExpr assert then
            match FiredState (State assert) state with
            | (_, _, Some err) =>
                Some ("Invalid state expr for action " ++ Name action ++ ": " ++ err)
            | _ => None
            end
          else None in
        match stateErr with
        | Some err => Return (Some err)
        | None =>
            if HasMetricsExpr assert then
              match ParseAlertExpr (Metrics assert) with
              | Some err =>
                  Return (Some ("Invalid metrics expr for action " ++ Name action
                                ++ ": " ++ err))
              | None => Return None
              end
            else Return None
        end
    end
  else Return None.

(** [for _, job := range action.Delete.Jobs] *)
Fixpoint checkJobs (index : gmap string Action) (action : Action) (jobs : list string)
  : option string :=
  match jobs with
  | [] => None
  | job :: rest =>
      match index !! job with
      | None =>
          Some ("job [" ++ job ++ "] of action [" ++ Name action ++ "] does not exist")
      | Some target =>
          if String.eqb (ActionType_ target) "Delete"
          then Some ("cycle deletion. job [" ++ job ++ "] of action [" ++ Name action
                     ++ "] is a deletion job")
          else checkJobs index action rest
      end
  end.

Definition checkDelete (index : gmap string Action) (action : Action)
  : Outcome (option string) :=
  if String.eqb (ActionType_ action) "Delete" then
    match getDelete action with
    | Panic msg => Panic msg
    | Return None => Panic "invalid memory address or nil pointer dereference"
    | Return (Some d) => Return (checkJobs index action (Jobs d))
    end
  else Return None.

(** Second loop: dependencies, assertions and deletions of each action. *)
Fixpoint validateLoop (index : gmap string Action) (state : ClassifierReader)
  (list : list Action) : Outcome (option string) :=
  match list with
  | [] => Return None
  | action :: rest =>
      match checkDependsOn index action with
      | Some err => Return (Some err)
      | None =>
          match checkAssert state action with
          | Panic msg => Panic msg
          | Return (Some err) => Return (Some err)
          | Return None =>
              match checkDelete index action with
              | Panic msg => Panic msg
              | Return (Some err) => Return (Some err)
              | Return None => validateLoop index state rest
              end
          end
      end
  end.

(** The returned error: [Return None] is the nil error. *)
Definition ValidateDAG (list : list Action) (state : ClassifierReader)
  : Outcome (option string) :=
  match indexLoop list ∅ with
  | Error err => Return (Some err)
  | Ok index => validateLoop index state list
  end.

End ValidateDAG.

(** Stand-ins for the expression parsers in closed examples: every
    expression is well formed. *)
Definition parsesState (expr : string) (gs : ClassifierReader)
  : string * bool * option string := ("", false, None).
Definition parsesAlert (expr : string) : option string := None.
Definition noFormat (deps : WaitSpec) : string := "".

End workflow.

(** ** Package [service]: decoration of the service pod *)

Module service.

(** [corev1.Volume], by its name. *)
Record Volume : Type := { Volume_Name : string }.

Record SetField : Type := { Field : string; Value : string }.

(** [Decorators.Resources] *)
Record Resources : Type := { CPU : string; Memory : string }.

Record Decorators : Type := {
  Labels : option (gmap string string);
  Annotations : option (gmap string string);
  SetFields : list SetField;
  Resources_ : option Resources;
  Telemetry : list string
}.

Section decoratePod.
(** [resource.Quantity] with its zero value and [resource.ParseQuantity],
    which gives [(q, err)]. *)
Variable Quantity : Type.
Variable ParseQuantity : string -> Quantity * option string.

(** [corev1.ResourceRequirements]; the keys are [corev1.ResourceCPU] and
    [corev1.ResourceMemory]. *)
Record ResourceRequirements : Type := {
  Limits : gmap string Quantity;
  Requests : gmap string Quantity
}.

Record Container : Type := {
  Container_Name : string;
  Container_Resources : ResourceRequirements
}.

Record ServiceSpec : Type := {
  Decorators_ : Decorators;
  Containers : list Container;
  Volumes : list Volume;
  ShareProcessNamespace : option bool
}.

Record Service : Type := {
  GetLabels : gmap string string;
  GetAnnotations : gmap string string;
  Spec : ServiceSpec
}.

(** [SetField(cr, val)] writes a field of [cr] by reflection;
    [serviceutils.GetServiceSpec] resolves a template reference through
    the cluster client; [multierror] and [%v] format values. *)
Variable SetFieldFn : Service -> SetField -> Result Service.
Variable GetServiceSpec : Service -> string -> Result ServiceSpec.
Variable fmtSetField : SetField -> string.
Variable fmtMultierror : list string -> string.

Definition setSpec (cr : Service) (spec : ServiceSpec) : Service :=
  {| GetLabels := GetLabels cr; GetAnnotations := GetAnnotations cr; Spec := spec |}.

(** [labels.Merge(a, b)]: the entries of [b] win. *)
Definition Merge (a b : gmap string string) : gmap string string := b ∪ a.

Definition setLabels (cr : Service) : Service :=
  match Labels (Decorators_ (Spec cr)) with
  | Some req =>
      {| GetLabels := Merge (GetLabels cr) req;
         GetAnnotations := GetAnnotations cr; Spec := Spec cr |}
  | None => cr
  end.

Definition setAnnotations (cr : Service) : Service :=
  match Annotations (Decorators_ (Spec cr)) with
  | Some req =>
      {| GetLabels := GetLabels cr;
         GetAnnotations := Merge (GetAnnotations cr) req; Spec := Spec cr |}
  | None => cr
  end.

(** [for _, val := range req] over the fields to set. *)
Fixpoint setFields (cr : Service) (req : list SetField) : option string * Service :=
  match req with
  | [] => (None, cr)
  | val :: rest =>
      match SetFieldFn cr val with
      | Error err => (Some ("cannot set field [" ++ fmtSetField val ++ "]: " ++ err), cr)
      | Ok cr' => setFields cr' rest
      end
  end.

Definition setResources (cr : Service) : option string * Service :=
  match Resources_ (Decorators_ (Spec cr)) with
  | None => (None, cr)
  | Some req =>
      match Containers (Spec cr) with
      | [c] =>
          let '(resources, errs) :=
            if 0 <? Z.of_nat (String.length (CPU req)) then
              let (q, err) := ParseQuantity (CPU req) in
              (<["cpu" := q]> (∅ : gmap string Quantity),
               match err with
               | Some e => ["CPU resource error: " ++ e]
               | None => []
               end)
            else (∅, []) in
          let '(resources, errs) :=
            if 0 <? Z.of_nat (String.length (Memory req)) then
              let (q, err) := ParseQuantity (Memory req) in
              (<["memory" := q]> resources,
               app errs
                 match err with
                 | Some e => ["Memory resource error: " ++ e]
                 | None => []
                 end)
            else (resources, errs) in
          match errs with
          | _ :: _ => (Some ("Resource error: " ++ fmtMultierror errs), cr)
          | [] =>
              (None,
               setSpec cr
                 {| Decorators_ := Decorators_ (Spec cr);
                    Containers := [ {| Container_Name := Container_Name c;
                                       Container_Resources :=
                                         {| Limits := resources; Requests := resources |} |} ];
                    Volumes := Volumes (Spec cr);
                    ShareProcessNamespace := ShareProcessNamespace (Spec cr) |})
          end
      | _ => (Some "Decoration resources are not applicable for multiple containers", cr)
      end
  end.

Definition shareProcessNamespace (cr : Service) : Service :=
  if 0 <? Z.of_nat (length (Telemetry (Decorators_ (Spec cr)))) then
    setSpec cr
      {| Decorators_ := Decorators_ (Spec cr);
         Containers := Containers (Spec cr);
         Volumes := Volumes (Spec cr);
         ShareProcessNamespace := Some true |}
  else cr.

(** [for _, monRef := range req] over the telemetry agents.  A monitor
    that does not have exactly one container ends the function through
    [errors.Wrapf(err, ...)] with [err] nil, which is the nil error. *)
Fixpoint importAgents (cr : Service) (req : list string) : option string * Service :=
  match req with
  | [] => (None, cr)
  | monRef :: rest =>
      match GetServiceSpec cr monRef with
      | Error err => (Some ("cannot get monitor: " ++ err), cr)
      | Ok monSpec =>
          match Containers monSpec with
          | [c] =>
              let containers := (Containers (Spec cr) ++ [c])%list in
              let volumes := (Volumes (Spec cr) ++ Volumes monSpec)%list in
              let volumes := (volumes ++ Volumes monSpec)%list in
              importAgents
                (setSpec cr
                   {| Decorators_ := Decorators_ (Spec cr);
                      Containers := containers;
                      Volumes := volumes;
                      ShareProcessNamespace := ShareProcessNamespace (Spec cr) |})
                rest
          | _ => (None, cr)
          end
      end
  end.

(** The returned error ([None] is nil) and [cr] as the call leaves it. *)
Definition decoratePod (cr : Service) : option string * Service :=
  let cr := setLabels cr in
  let cr := setAnnotations cr in
  match setFields cr (SetFields (Decorators_ (Spec cr))) with
  | (Some err, cr) => (Some err, cr)
  | (None, cr) =>
      match setResources cr with
      | (Some err, cr) => (Some err, cr)
      | (None, cr) =>
          let cr := shareProcessNamespace cr in
          importAgents cr (Telemetry (Decorators_ (Spec cr)))
      end
  end.

End decoratePod.

(** The references the import loop gets through: those before the first
    whose monitor does not have exactly one container. *)
Fixpoint imported {Quantity : Type} (resolve : string -> ServiceSpec Quantity)
  (req : list string) : list string :=
  match req with
  | [] => []
  | monRef :: rest =>
      match Containers Quantity (resolve monRef) with
      | [_] => monRef :: imported resolve rest
      | _ => []
      end
  end.

Arguments Containers {Quantity} _.
Arguments Volumes {Quantity} _.
Arguments Decorators_ {Quantity} _.
Arguments ShareProcessNamespace {Quantity} _.
Arguments Spec {Quantity} _.
Arguments GetLabels {Quantity} _.
Arguments GetAnnotations {Quantity} _.

(** A service with one container, no volumes, and the given telemetry
    agents as its only decoration; quantities are not looked at. *)
Definition telemetryOnly (agents : list string) : Service unit :=
  {| GetLabels := ∅; GetAnnotations := ∅;
     Spec := {| Decorators_ := {| Labels := None; Annotations := None; SetFields := [];
                                  Resources_ := None; Telemetry := agents |};
                Containers := [ {| Container_Name := "main";
                                   Container_Resources :=
                                     {| Limits := ∅; Requests := ∅ |} |} ];
                Volumes := [];
                ShareProcessNamespace := None |} |}.

(** The monitor every reference resolves to in the example: one sidecar
    container and one volume, named after the reference. *)
Definition monitorSpec (monRef : string) : ServiceSpec unit :=
  {| Decorators_ := {| Labels := None; Annotations := None; SetFields := [];
                       Resources_ := None; Telemetry := [] |};
     Containers := [ {| Container_Name := "sidecar";
                        Container_Resources := {| Limits := ∅; Requests := ∅ |} |} ];
     Volumes := [ {| Volume_Name := monRef |} ];
     ShareProcessNamespace := None |}.

Definition resolveMonitor (cr : Service unit) (monRef : string)
  : Result (ServiceSpec unit) := Ok (monitorSpec monRef).
Definition parseUnit (s : string) : unit * option string := (tt, None).
Definition keepFields (cr : Service unit) (val : SetField) : Result (Service unit) := Ok cr.
Definition noText {A : Type} (a : A) : string := "".

End service.

(** ** Package [lifecycle], file [accessor.go]: lifecycle of containers *)

Module accessor.
Import v1alpha1.

(** [strings.Contains(s, substr)] *)
Fixpoint Contains (s substr : string) : bool :=
  if String.prefix substr s then true
  else
    match s with
    | EmptyString => false
    | String _ s' => Contains s' substr
    end.

Record ContainerStateWaiting : Type := { Waiting_Reason : string }.
Record ContainerStateRunning : Type := { Running_StartedAt : time.Time }.
Record ContainerStateTerminated : Type := {
  ExitCode : Z;
  Terminated_Reason : string;
  Terminated_StartedAt : time.Time;
  FinishedAt : time.Time
}.

Record ContainerState : Type := {
  Waiting : option ContainerStateWaiting;
  Running : option ContainerStateRunning;
  Terminated : option ContainerStateTerminated
}.

Record ContainerStatus : Type := {
  Container_Name : string;
  State : ContainerState
}.

(** [corev1.Pod], by [pod.Status.ContainerStatuses]. *)
Record Pod : Type := { ContainerStatuses : list ContainerStatus }.

(** [v1alpha1.Lifecycle] as this file fills it. *)
Record Lifecycle : Type := {
  Kind : string;
  Name : string;
  Phase_ : Phase;
  Reason : string;
  StartTime : option time.Time;
  EndTime : option time.Time
}.

(** The [switch] on the state of one container that is not skipped:
    the entries it appends. *)
Definition containerLifecycle (container : ContainerStatus) : list Lifecycle :=
  match Waiting (State container), Running (State container),
        Terminated (State container) with
  | Some state, _, _ =>
      [ {| Kind := "Container"; Name := Container_Name container;
           Phase_ := PhasePending; Reason := Waiting_Reason state;
           StartTime := None; EndTime := None |} ]
  | None, Some state, _ =>
      [ {| Kind := "Container"; Name := Container_Name container;
           Phase_ := PhaseRunning; Reason := "container is started";
           StartTime := Some (Running_StartedAt state); EndTime := None |} ]
  | None, None, Some state =>
      if ExitCode state =? 0 then
        [ {| Kind := "Container"; Name := Container_Name container;
             Phase_ := PhaseSuccess; Reason := Terminated_Reason state;
             StartTime := Some (Terminated_StartedAt state);
             EndTime := Some (FinishedAt state) |} ]
      else
        [ {| Kind := "Container"; Name := Container_Name container;
             Phase_ := PhaseFailed; Reason := Terminated_Reason state;
             StartTime := Some (Terminated_StartedAt state);
             EndTime := Some (FinishedAt state) |} ]
  | None, None, None => []
  end.

(** [for _, container := range pod.Status.ContainerStatuses], with the
    entries collected so far. *)
Fixpoint containersLoop (statuses : list ContainerStatus) (lifecycles : list Lifecycle)
  : list Lifecycle :=
  match statuses with
  | [] => lifecycles
  | container :: rest =>
      if Contains (Container_Name container) "-" then containersLoop rest lifecycles
      else containersLoop rest (lifecycles ++ containerLifecycle container)
  end.

(** The function [Containers()] returns, applied to a pod. *)
Definition Containers (pod : Pod) : list Lifecycle :=
  containersLoop (ContainerStatuses pod) [].

(** Whether the adapter skips the container. *)
Definition skipped (container : ContainerStatus) : bool :=
  Contains (Container_Name container) "-".

End accessor.

(** ** Package [service]: the DNS service of a service pod *)

Module discovery.

Record ContainerPort : Type := {
  Port_Name : string;
  ContainerPort_ : Z
}.

(** [corev1.Container], by its ports. *)
Record Container : Type := { Ports : list ContainerPort }.

(** [v1alpha1.Service], by its name and the containers of its spec. *)
Record Service : Type := {
  GetName : string;
  Containers : list Container
}.

Record ServicePort : Type := {
  ServicePort_Name : string;
  Port : Z
}.

(** [corev1.Service], by the fields [constructDiscoveryService] sets. *)
Record KubeService : Type := {
  Kube_Name : string;
  Kube_Labels : gmap string string;
  Kube_Ports : list ServicePort;
  ClusterIP : string;
  Selector : gmap string string
}.

Definition toServicePort (port : ContainerPort) : ServicePort :=
  {| ServicePort_Name := Port_Name port; Port := ContainerPort_ port |}.

Definition portIsZero (ci pi : nat) : string :=
  "port is 0 for container[" ++ fmtInt (Z.of_nat ci) ++ "].port["
  ++ fmtInt (Z.of_nat pi) ++ "]".

(** [for pi, port := range container.Ports], from index [pi] on. *)
Fixpoint portsLoop (ci pi : nat) (ports : list ContainerPort)
  (allPorts : list ServicePort) : Result (list ServicePort) :=
  match ports with
  | [] => Ok allPorts
  | port :: rest =>
      if ContainerPort_ port =? 0 then Error (portIsZero ci pi)
      else portsLoop ci (S pi) rest (allPorts ++ [toServicePort port])
  end.

(** [for ci, container := range service.Spec.Containers], from index [ci] on. *)
Fixpoint containersLoop (ci : nat) (containers : list Container)
  (allPorts : list ServicePort) : Result (list ServicePort) :=
  match containers with
  | [] => Ok allPorts
  | container :: rest =>
      match portsLoop ci 0 (Ports container) allPorts with
      | Error err => Error err
      | Ok allPorts => containersLoop (S ci) rest allPorts
      end
  end.

Section constructDiscoveryService.
(** [v1alpha1.PropagateLabels(&kubeService, service)], by the labels it
    leaves on the new object, and the label key [v1alpha1.LabelCreatedBy];
    neither declaration is in the sources. *)
Variable PropagateLabels : Service -> gmap string string.
Variable LabelCreatedBy : string.

Definition constructDiscoveryService (service : Service) : Result KubeService :=
  match containersLoop 0 (Containers service) [] with
  | Error err => Error err
  | Ok allPorts =>
      let clusterIP :=
        if Z.of_nat (length allPorts) =? 0 then "None" else "" in
      Ok {| Kube_Name := GetName service;
            Kube_Labels := PropagateLabels service;
            Kube_Ports := allPorts;
            ClusterIP := clusterIP;
            Selector := {[ LabelCreatedBy := GetName service ]} |}
  end.

End constructDiscoveryService.

(** All the ports of the containers of a service, in order. *)
Definition allContainerPorts (service : Service) : list ContainerPort :=
  flat_map Ports (Containers service).

(** Stand-ins for closed examples. *)
Definition noLabels (service : Service) : gmap string string := ∅.
Definition web : Service :=
  {| GetName := "web";
     Containers := [ {| Ports := [ {| Port_Name := "http"; ContainerPort_ := 80 |} ] |};
                     {| Ports := [] |} ] |}.

End discovery.

(** ** Package [service], file [jobs.go]: the agents of a pod *)

Module jobs.

Section setAgents.
(** [corev1.Container] and [corev1.Volume] are carried, not looked at;
    [thelpers.GetDefaultSpec] (after [thelpers.ParseRef] on the namespace
    and the reference) and [ToMonitorSpec] go through the cluster and a
    decoder. *)
Variable Container Volume GenericSpec : Type.

Record Agent : Type := {
  Agent_Container : Container;
  Agent_Volumes : list Volume
}.

Record MonitorSpec : Type := { Agent_ : Agent }.

Variable GetDefaultSpec : string -> string -> Result GenericSpec.
Variable ToMonitorSpec : GenericSpec -> Result MonitorSpec.

(** [v1alpha1.Service], by its namespace and the agents of its spec (nil
    when there are none). *)
Record Service : Type := {
  GetNamespace : string;
  Agents : option (list string)
}.

(** [corev1.Pod], by its name, its labels and the volumes and containers
    of its spec. *)
Record Pod : Type := {
  Pod_Name : string;
  Pod_Labels : gmap string string;
  Pod_Volumes : list Volume;
  Pod_Containers : list Container
}.

(** [for _, ref := range spec.Agents.Telemetry] *)
Fixpoint agentsLoop (obj : Service) (refs : list string) (pod : Pod)
  : option string * Pod :=
  match refs with
  | [] => (None, pod)
  | ref :: rest =>
      match GetDefaultSpec (GetNamespace obj) ref with
      | Error err => (Some ("cannot get monitor: " ++ err), pod)
      | Ok genSpec =>
          match ToMonitorSpec genSpec with
          | Error err => (Some ("cannot get monitor: " ++ err), pod)
          | Ok mon =>
              agentsLoop obj rest
                {| Pod_Name := Pod_Name pod;
                   Pod_Labels := Pod_Labels pod;
                   Pod_Volumes := Pod_Volumes pod ++ Agent_Volumes (Agent_ mon);
                   Pod_Containers := Pod_Containers pod ++ [Agent_Container (Agent_ mon)] |}
          end
      end
  end.

(** The returned error and the pod as the call leaves it. *)
Definition setAgents (obj : Service) (pod : Pod) : option string * Pod :=
  match Agents obj with
  | None => (None, pod)
  | Some refs => agentsLoop obj refs pod
  end.

End setAgents.

Arguments Agent_Container {Container Volume} _.
Arguments Agent_Volumes {Container Volume} _.
Arguments Agent_ {Container Volume} _.
Arguments Pod_Name {Container Volume} _.
Arguments Pod_Labels {Container Volume} _.
Arguments Pod_Volumes {Container Volume} _.
Arguments Pod_Containers {Container Volume} _.

(** [corev1.Service], by the fields [constructDiscoveryService] sets
    itself. *)
Record KubeService : Type := {
  Kube_Name : string;
  Kube_Ports : list discovery.ServicePort;
  ClusterIP : string;
  Selector : gmap string string
}.

(** [for _, port := range container.Ports] *)
Fixpoint portsLoop (ports : list discovery.ContainerPort)
  (allPorts : list discovery.ServicePort) : Outcome (list discovery.ServicePort) :=
  match ports with
  | [] => Return allPorts
  | port :: rest =>
      if discovery.ContainerPort_ port =? 0 then Panic "invalid port"
      else portsLoop rest (allPorts ++ [discovery.toServicePort port])
  end.

(** [for _, container := range pod.Spec.Containers] *)
Fixpoint containersLoop (containers : list discovery.Container)
  (allPorts : list discovery.ServicePort) : Outcome (list discovery.ServicePort) :=
  match containers with
  | [] => Return allPorts
  | container :: rest =>
      match portsLoop (discovery.Ports container) allPorts with
      | Panic msg => Panic msg
      | Return allPorts => containersLoop rest allPorts
      end
  end.

Section constructDiscoveryService.
Variable Volume : Type.
(** [utils.SetOwner(r, obj, &kubeService)] is not in the sources: it
    writes the owner of the new service, or panics; it is called on the
    empty service, before the fields of [KubeService] are set. *)
Variable SetOwner : Service -> Outcome unit.

(** The service the function returns and the pod as the call leaves it. *)
Definition constructDiscoveryService (obj : Service)
  (pod : Pod discovery.Container Volume)
  : Outcome (KubeService * Pod discovery.Container Volume) :=
  match containersLoop (Pod_Containers pod) [] with
  | Panic msg => Panic msg
  | Return allPorts =>
      let clusterIP :=
        if Z.of_nat (length allPorts) =? 0 then "None" else "" in
      match SetOwner obj with
      | Panic msg => Panic msg
      | Return _ =>
          let service2Pod : gmap string string := {[ Pod_Name pod := "discover" ]} in
          Return ({| Kube_Name := Pod_Name pod;
                     Kube_Ports := allPorts;
                     ClusterIP := clusterIP;
                     Selector := service2Pod |},
                  {| Pod_Name := Pod_Name pod;
                     Pod_Labels := service2Pod ∪ Pod_Labels pod;
                     Pod_Volumes := Pod_Volumes pod;
                     Pod_Containers := Pod_Containers pod |})
      end
  end.

End constructDiscoveryService.

(** All the ports of the containers of a pod, in order. *)
Definition allPodPorts {Volume : Type} (pod : Pod discovery.Container Volume)
  : list discovery.ContainerPort :=
  flat_map discovery.Ports (Pod_Containers pod).

(** Stand-ins for closed examples: containers and volumes are names, a
    reference resolves to the agent of that name with one volume. *)
Definition agentOf (ref : string) : MonitorSpec string string :=
  {| Agent_ := {| Agent_Container := ref; Agent_Volumes := [ref] |} |}.
Definition lookupAgent (namespace ref : string) : Result string := Ok ref.
Definition decodeAgent (genSpec : string) : Result (MonitorSpec string string) :=
  Ok (agentOf genSpec).

End jobs.

(** ** Package [telemetry]: lifecycle of the telemetry stack *)

Module telemetry.
Import v1alpha1 lifecycle.

Definition telemetryServices : list string := ["prometheus"; "grafana"].

Record test : Type := {
  expression : bool;
  lifecycle : Lifecycle
}.

(** [v1alpha1.Lifecycle{Phase: p, Reason: reason, Message: message}] *)
Definition mkLifecycle (p : Phase) (reason message : string) : Lifecycle :=
  {| Phase_ := p; Reason := reason; Message := message; Conditions := [] |}.

Definition autotests (cycle : Lifecycle) (gs : ClassifierReader) (expectedJobs : Z)
  : list test :=
  [ {| expression := 0 <? NumFailedJobs gs;
       lifecycle := mkLifecycle PhaseFailed "JobHasFailed"
                      ("failed jobs: " ++ fmtList (FailedList gs)) |};
    {| expression := NumRunningJobs gs =? expectedJobs;
       lifecycle := mkLifecycle PhaseRunning "JobIsRunning"
                      ("running jobs: " ++ fmtList (RunningList gs)) |};
    {| expression := Phase_eqb (Phase_ cycle) PhasePending;
       lifecycle := mkLifecycle PhasePending "JobIsPending"
                      "at least one jobs has not yet created" |} ].

(** [for _, testcase := range autotests]; the conditions of the tests are
    not used by the loop. *)
Fixpoint firstMatch (autotests : list test) : option Lifecycle :=
  match autotests with
  | [] => None
  | testcase :: rest =>
      if expression testcase then Some (lifecycle testcase) else firstMatch rest
  end.

(** [calculateLifecycle] on the lifecycle of the status of the object. *)
Definition calculateLifecycle (cycle : Lifecycle) (gs : ClassifierReader)
  : Outcome Lifecycle :=
  if Phase_Is (Phase_ cycle) [PhaseUninitialized; PhaseSuccess; PhaseFailed]
  then Return cycle
  else
    let expectedJobs := Z.of_nat (length telemetryServices) in
    match firstMatch (autotests cycle gs expectedJobs) with
    | Some cycle' => Return cycle'
    | None => Panic "unhandled lifecycle conditions"
    end.

End telemetry.

(** * Properties *)

(** ** The logical scheduler *)

Section SchedulerProperties.
Import v1alpha1 lifecycle scenario.

Variable timebase : time.Time.
Variable gs : ClassifierReader.
Variable executed : gmap string ConditionalExpr.

Lemma timeOK_constant_clock (clock : Clock) (now : time.Time) deps st :
  (forall k, clock k = now) ->
  fst (timeOK timebase clock deps st) =
  match After deps with
  | None => true
  | Some dur => time.Add timebase dur <? now
  end.
Proof.
  intros Hclock. unfold timeOK.
  destruct (After deps) as [dur|]; [|reflexivity].
  cbn [reads nextCycle]. rewrite Hclock. unfold time.Before.
  destruct (time.Add timebase dur <? now); [reflexivity|].
  destruct (time.IsZero (nextCycle st)); [reflexivity|].
  destruct (time.Add timebase dur <? nextCycle st); reflexivity.
Qed.

Lemma scheduleLoop_filter (clock : Clock) (now : time.Time) :
  (forall k, clock k = now) ->
  forall all schedule st,
    fst (scheduleLoop timebase gs executed clock all schedule st) =
    (schedule ++ List.filter (ready timebase gs executed now) all)%list.
Proof.
  intros Hclock all.
  induction all as [|action rest IH]; intros schedule st; cbn [scheduleLoop List.filter].
  - now rewrite app_nil_r.
  - unfold ready at 1.
    destruct (executed !! Name action) as [c|]; [apply IH|].
    destruct (DependsOn action) as [deps|].
    + destruct (successOK gs deps); cbn [negb andb]; [|apply IH].
      destruct (runningOK gs deps); cbn [negb andb]; [|apply IH].
      pose proof (timeOK_constant_clock clock now deps st Hclock) as Hfst.
      destruct (timeOK timebase clock deps st) as [ok st']. cbn [fst] in Hfst.
      rewrite <- Hfst.
      destruct ok; cbn [negb]; rewrite IH; [|reflexivity].
      now rewrite <- app_assoc.
    + rewrite IH. now rewrite <- app_assoc.
Qed.

Lemma forallb_In_iff {A} (f : A -> bool) (l : list A) :
  forallb f l = true <-> (forall x, In x l -> f x = true).
Proof. apply forallb_forall. Qed.

Lemma ready_readyStrict (now : time.Time) (a : Action) :
  ready timebase gs executed now a = true <-> readyStrict timebase gs executed now a.
Proof.
  unfold ready, readyStrict, logicalReady.
  destruct (executed !! Name a) as [c|].
  { split; [discriminate|]. intros [[Hex _] _]. discriminate. }
  destruct (DependsOn a) as [deps|].
  - rewrite !andb_true_iff. unfold successOK, runningOK. rewrite !forallb_In_iff.
    split.
    + intros [[Hs Hr] Ht]. split; [split; [reflexivity|]|].
      * intros deps' Heq. injection Heq as <-. split; assumption.
      * intros deps' dur Heq Hafter. injection Heq as <-.
        rewrite Hafter in Ht. unfold time.Add in Ht. lia.
    + intros [[_ Hdeps] Ht]. destruct (Hdeps deps eq_refl) as [Hs Hr].
      split; [split; assumption|].
      destruct (After deps) as [dur|] eqn:Hafter; [|reflexivity].
      specialize (Ht deps dur eq_refl Hafter). unfold time.Add. lia.
  - split; [|reflexivity]. intros _.
    split; [split; [reflexivity|]|]; intros; discriminate.
Qed.

Lemma timeOK_reads (clock : Clock) deps st :
  (reads (snd (timeOK timebase clock deps st)) <= S (reads st))%nat /\
  (reads st <= reads (snd (timeOK timebase clock deps st)))%nat.
Proof.
  unfold timeOK. destruct (After deps) as [dur|]; cbn [snd reads nextCycle]; [|lia].
  destruct (time.Before _ _); cbn [snd reads]; [lia|].
  destruct (time.IsZero _); cbn [snd reads]; [lia|].
  destruct (time.Before _ _); cbn [snd reads]; lia.
Qed.

Lemma timeOK_clock_agree (c1 c2 : Clock) deps st :
  c1 (reads st) = c2 (reads st) ->
  timeOK timebase c1 deps st = timeOK timebase c2 deps st.
Proof. intros H. unfold timeOK. now rewrite H. Qed.

Lemma scheduleLoop_clock_agree (c1 c2 : Clock) :
  forall all schedule st,
    (forall k, (reads st <= k < reads st + length all)%nat -> c1 k = c2 k) ->
    scheduleLoop timebase gs executed c1 all schedule st =
    scheduleLoop timebase gs executed c2 all schedule st.
Proof.
  induction all as [|action rest IH]; intros schedule st Hagree; [reflexivity|].
  cbn [scheduleLoop]. cbn [length] in Hagree.
  assert (Hrest : forall st', (reads st <= reads st' <= S (reads st))%nat ->
            forall k, (reads st' <= k < reads st' + length rest)%nat -> c1 k = c2 k).
  { intros st' Hst' k Hk. apply Hagree. lia. }
  destruct (executed !! Name action) as [c|]; [apply IH, Hrest; lia|].
  destruct (DependsOn action) as [deps|]; [|apply IH, Hrest; lia].
  destruct (negb (successOK gs deps)); [apply IH, Hrest; lia|].
  destruct (negb (runningOK gs deps)); [apply IH, Hrest; lia|].
  rewrite (timeOK_clock_agree c1 c2 deps st) by (apply Hagree; lia).
  pose proof (timeOK_reads c2 deps st) as Hreads.
  destruct (timeOK timebase c2 deps st) as [ok st']. cbn [snd] in Hreads.
  destruct (negb ok); apply IH, Hrest; lia.
Qed.

(** C1, amended.  When every clock reading of the invocation shows the
    instant [now], the ready list is the input list filtered, in
    declaration order, by the readiness test; an action is in it if and
    only if it is in the input, was not executed, all its [depends.success]
    names are classified successful, all its [depends.running] names are
    classified running, and [depends.after] is absent or
    [timebase + after < now], strictly. *)
Theorem GetNextLogicalJob_ready_strict (clock : Clock) (now : time.Time)
  (all : list Action) :
  (forall k, clock k = now) ->
  fst (GetNextLogicalJob timebase gs executed clock all) =
    List.filter (ready timebase gs executed now) all /\
  (forall a, In a (fst (GetNextLogicalJob timebase gs executed clock all)) <->
             In a all /\ readyStrict timebase gs executed now a).
Proof.
  intros Hclock.
  assert (Heq : fst (GetNextLogicalJob timebase gs executed clock all) =
                List.filter (ready timebase gs executed now) all).
  { unfold GetNextLogicalJob.
    pose proof (scheduleLoop_filter clock now Hclock all []
                  {| reads := 0; nextCycle := time.zero |}) as H.
    destruct (scheduleLoop _ _ _ _ _ _ _) as [schedule st]. exact H. }
  split; [exact Heq|].
  intros a. rewrite Heq, filter_In, ready_readyStrict. reflexivity.
Qed.

(** C8, amended.  For a fixed timebase, action list, executed set and
    Classifier view, two invocations whose clock readings agree (only the
    first [length all] readings can be taken) return the same ready list
    and the same [nextCycle]: beyond its arguments the result depends on
    the wall clock and on nothing else. *)
Theorem GetNextLogicalJob_same_clock (c1 c2 : Clock) (all : list Action) :
  (forall k, (k < length all)%nat -> c1 k = c2 k) ->
  GetNextLogicalJob timebase gs executed c1 all =
  GetNextLogicalJob timebase gs executed c2 all.
Proof.
  intros Hagree. unfold GetNextLogicalJob.
  rewrite (scheduleLoop_clock_agree c1 c2 all []
             {| reads := 0; nextCycle := time.zero |}); [reflexivity|].
  cbn [reads]. intros k Hk. apply Hagree. lia.
Qed.

End SchedulerProperties.

Lemma GetNextLogicalJob_ready_strict_witness :
  (forall k : nat, (fun _ : nat => 9) k = 9) /\
  fst (scenario.GetNextLogicalJob 0 scenario.emptyView ∅ (fun _ => 9)
         [scenario.waitFor "a" 5; scenario.waitFor "b" 9]) =
    [scenario.waitFor "a" 5].
Proof.
  split; [reflexivity|].
  rewrite (proj1 (GetNextLogicalJob_ready_strict 0 scenario.emptyView ∅ (fun _ => 9) 9
                    [scenario.waitFor "a" 5; scenario.waitFor "b" 9]
                    (fun _ => eq_refl))).
  reflexivity.
Defined.

(** C1 as stated fails at the boundary: with [timebase = 0], [after = 5]
    and a clock showing [5], the specification's test [timebase + after <=
    now] holds for the action, and the scheduler does not return it. *)
Lemma GetNextLogicalJob_boundary_not_ready :
  scenario.readySpec 0 scenario.emptyView ∅ 5 (scenario.waitFor "a" 5) /\
  ~ In (scenario.waitFor "a" 5)
      (fst (scenario.GetNextLogicalJob 0 scenario.emptyView ∅ (fun _ => 5)
              [scenario.waitFor "a" 5])).
Proof.
  split.
  - split; [split; [reflexivity|]|].
    + intros deps Heq. injection Heq as <-. split; intros n [].
    + intros deps dur Heq Hafter. injection Heq as <-. injection Hafter as <-. lia.
  - vm_compute. intros [].
Qed.

Lemma GetNextLogicalJob_same_clock_witness :
  (forall k : nat, (k < 1)%nat -> (fun _ : nat => 7) k = (fun n : nat => 7 + Z.of_nat n) k) /\
  scenario.GetNextLogicalJob 0 scenario.emptyView ∅ (fun _ => 7) [scenario.waitFor "a" 5] =
  scenario.GetNextLogicalJob 0 scenario.emptyView ∅ (fun n => 7 + Z.of_nat n)
    [scenario.waitFor "a" 5].
Proof.
  assert (H : forall k : nat, (k < 1)%nat ->
                (fun _ : nat => 7) k = (fun n : nat => 7 + Z.of_nat n) k).
  { intros k Hk. assert (k = 0%nat) as -> by lia. reflexivity. }
  split; [exact H|].
  exact (GetNextLogicalJob_same_clock 0 scenario.emptyView ∅ _ _
           [scenario.waitFor "a" 5] H).
Defined.

(** C8 as stated fails: with the same timebase, action list, executed set
    and view, an invocation at instant [5] and one at instant [20] return
    different ready lists and different wake-up times. *)
Lemma GetNextLogicalJob_depends_on_clock :
  scenario.GetNextLogicalJob 0 scenario.emptyView ∅ (fun _ => 5) [scenario.waitFor "a" 10]
    = ([], 10) /\
  scenario.GetNextLogicalJob 0 scenario.emptyView ∅ (fun _ => 20) [scenario.waitFor "a" 10]
    = ([scenario.waitFor "a" 10], 0) /\
  scenario.GetNextLogicalJob 0 scenario.emptyView ∅ (fun _ => 5) [scenario.waitFor "a" 10]
    <> scenario.GetNextLogicalJob 0 scenario.emptyView ∅ (fun _ => 20)
         [scenario.waitFor "a" 10].
Proof. split; [reflexivity|]. split; [reflexivity|]. discriminate. Qed.

(** ** Terminal phases *)

Section TerminalPhases.
Import v1alpha1 lifecycle.

Lemma stop_terminal_step FiredAlert FiredState (cr : stop.Stop) (gs : ClassifierReader) :
  terminal (Phase_ (stop.Lifecycle_ (stop.Status cr))) ->
  stop.calculateLifecycle FiredAlert FiredState cr gs = Return (stop.Status cr, cr).
Proof. intros [H|H]; unfold stop.calculateLifecycle; rewrite H; reflexivity. Qed.

Lemma stop_terminal_round FiredAlert FiredState (cr : stop.Stop) (gs : ClassifierReader) :
  terminal (Phase_ (stop.Lifecycle_ (stop.Status cr))) ->
  stop.reconcile FiredAlert FiredState cr gs = Return cr.
Proof.
  intros H. unfold stop.reconcile. rewrite stop_terminal_step by exact H.
  destruct cr; reflexivity.
Qed.

Lemma call_terminal_step GroupedJobs IsTrue (view : ClassifierReader) (cr : call.Call) :
  terminal (Phase_ (call.Lifecycle_ (call.Status cr))) ->
  call.calculateLifecycle GroupedJobs IsTrue view cr = (false, cr).
Proof. intros [H|H]; unfold call.calculateLifecycle; rewrite H; reflexivity. Qed.

(** C4.  When the current phase is Success or Failed, the lifecycle
    computation of the Stop job returns the status it was given and leaves
    the object alone, and that of the Call job reports no change and
    leaves the object alone; so over any sequence of later rounds, with
    whatever views, the object stays as it is. *)
Theorem terminal_phases_absorbing FiredAlert FiredState GroupedJobs IsTrue
  (s : stop.Stop) (c : call.Call) :
  terminal (Phase_ (stop.Lifecycle_ (stop.Status s))) ->
  terminal (Phase_ (call.Lifecycle_ (call.Status c))) ->
  (forall gs, stop.calculateLifecycle FiredAlert FiredState s gs
              = Return (stop.Status s, s)) /\
  (forall views, stop.reconcileAll FiredAlert FiredState s views = Return s) /\
  (forall view, call.calculateLifecycle GroupedJobs IsTrue view c = (false, c)) /\
  (forall views, call.reconcileAll GroupedJobs IsTrue c views = c).
Proof.
  intros Hs Hc. repeat split.
  - intros gs. now apply stop_terminal_step.
  - intros views. induction views as [|gs rest IH]; [reflexivity|].
    cbn [stop.reconcileAll]. rewrite stop_terminal_round by exact Hs. exact IH.
  - intros view. now apply call_terminal_step.
  - intros views. induction views as [|view rest IH]; [reflexivity|].
    cbn [call.reconcileAll]. rewrite call_terminal_step by exact Hc. exact IH.
Qed.

End TerminalPhases.

Lemma terminal_phases_absorbing_witness :
  v1alpha1.terminal (v1alpha1.Phase_ (stop.Lifecycle_ (stop.Status
     (stop.job ["a"] None v1alpha1.PhaseSuccess 0)))) /\
  v1alpha1.terminal (v1alpha1.Phase_ (call.Lifecycle_ (call.Status
     (call.job ["a"] None v1alpha1.PhaseFailed 0)))) /\
  stop.calculateLifecycle stop.neverFiredAlert stop.neverFiredState
    (stop.job ["a"] None v1alpha1.PhaseSuccess 0) (stop.counts 0 0 1)
  = Return (stop.Status (stop.job ["a"] None v1alpha1.PhaseSuccess 0),
            stop.job ["a"] None v1alpha1.PhaseSuccess 0).
Proof.
  split; [left; reflexivity|]. split; [right; reflexivity|].
  exact (proj1 (terminal_phases_absorbing stop.neverFiredAlert stop.neverFiredState
                  call.idleGroupedJobs call.neverTrue
                  (stop.job ["a"] None v1alpha1.PhaseSuccess 0)
                  (call.job ["a"] None v1alpha1.PhaseFailed 0)
                  (or_introl eq_refl) (or_intror eq_refl))
               (stop.counts 0 0 1)).
Defined.

(** ** The decision table of the Stop job *)

Section StopDecisionTable.
Import v1alpha1 lifecycle stop.

Variable FiredAlert : Stop -> string * bool.
Variable FiredState : string -> ClassifierReader -> string * bool * option string.

Lemma calculateLifecycle_table (cr : Stop) (gs : ClassifierReader) :
  reachesTable cr ->
  calculateLifecycle FiredAlert FiredState cr gs =
  match firstMatch (autotests (Status cr) gs (Z.of_nat (length (Services (Spec cr)))))
          (Status cr) with
  | Some status' => Return (status', cr)
  | None => Panic "unhandled lifecycle conditions."
  end.
Proof.
  intros [Huntil Hphase]. unfold calculateLifecycle. rewrite Huntil.
  destruct Hphase as [-> | ->]; reflexivity.
Qed.

(** C2, amended.  The table of the Stop job has no tolerance and no row
    for failed jobs.  For every input that reaches it with at least one
    failed job, the call returns a status whose phase is not Failed and to
    which no JobUnexpectedTermination condition was added; when moreover
    not all jobs are successful and the previous phase is Running, the
    previous status is returned unchanged (no phase, reason or condition
    is written). *)
Theorem stop_failed_jobs_never_fail (cr : Stop) (gs : ClassifierReader) :
  reachesTable cr ->
  0 < NumFailedJobs gs ->
  exists status',
    calculateLifecycle FiredAlert FiredState cr gs = Return (status', cr) /\
    Phase_ (Lifecycle_ status') <> PhaseFailed /\
    (forall c, In c (Conditions (Lifecycle_ status')) ->
               metav1.Type_ c = ConditionType_String ConditionJobUnexpectedTermination ->
               In c (Conditions (Lifecycle_ (Status cr)))) /\
    (NumSuccessfulJobs gs <> Z.of_nat (length (Services (Spec cr))) ->
     Phase_ (Lifecycle_ (Status cr)) = PhaseRunning ->
     status' = Status cr).
Proof.
  intros Hreach Hfailed. rewrite (calculateLifecycle_table cr gs Hreach).
  destruct Hreach as [_ Hphase].
  assert (Hpos : (0 <? NumFailedJobs gs) = true) by (apply Z.ltb_lt; exact Hfailed).
  unfold autotests. cbn [firstMatch expression lifecycle condition].
  rewrite Hpos.
  destruct (NumSuccessfulJobs gs =? _) eqn:Hsucc.
  { eexists. split; [reflexivity|]. cbn.
    apply Z.eqb_eq in Hsucc.
    split; [discriminate|]. split; [|intros Hne; contradiction].
    intros c [<- | []] Htype. discriminate Htype. }
  destruct Hphase as [Hp | Hp]; rewrite Hp; cbn [Phase_eqb andb].
  - destruct (NumRunningJobs gs + NumSuccessfulJobs gs =? _).
    + eexists. split; [reflexivity|]. cbn.
      split; [discriminate|]. split; [|intros _ H; discriminate].
      intros c [<- | []] Htype. discriminate Htype.
    + eexists. split; [reflexivity|]. cbn.
      split; [discriminate|]. split; [|intros _ H; discriminate].
      intros c [].
  - eexists. split; [reflexivity|]. cbn.
    destruct (Status cr) as [l n]. cbn in Hp |- *. rewrite Hp.
    split; [discriminate|]. split; [|reflexivity].
    intros c Hc _. exact Hc.
Qed.

(** C3, amended.  For every input that reaches the table and matches none
    of its first three rows: when the previous phase is Pending the call
    returns phase Pending with reason JobIsPending and sets no condition;
    when the previous phase is Running no row matches and the call
    panics.  The table is not total. *)
Theorem stop_table_last_row (cr : Stop) (gs : ClassifierReader) :
  reachesTable cr ->
  NumSuccessfulJobs gs <> Z.of_nat (length (Services (Spec cr))) ->
  ~ (Phase_ (Lifecycle_ (Status cr)) = PhaseRunning /\ 0 < NumFailedJobs gs) ->
  NumRunningJobs gs + NumSuccessfulJobs gs <> Z.of_nat (length (Services (Spec cr))) ->
  (Phase_ (Lifecycle_ (Status cr)) = PhasePending ->
   calculateLifecycle FiredAlert FiredState cr gs =
   Return (setLifecycle (Status cr)
             (mkLifecycle PhasePending "JobIsPending"
                "at least one jobs has not yet created"), cr)) /\
  (Phase_ (Lifecycle_ (Status cr)) = PhaseRunning ->
   calculateLifecycle FiredAlert FiredState cr gs =
   Panic "unhandled lifecycle conditions.").
Proof.
  intros Hreach Hrow1 Hrow2 Hrow3.
  rewrite (calculateLifecycle_table cr gs Hreach).
  unfold autotests. cbn [firstMatch expression lifecycle condition].
  apply Z.eqb_neq in Hrow1. apply Z.eqb_neq in Hrow3. rewrite Hrow1, Hrow3.
  split; intros Hp; rewrite Hp; cbn [Phase_eqb andb].
  - reflexivity.
  - assert (Hnone : (0 <? NumFailedJobs gs) = false).
    { apply Z.ltb_ge. destruct (Z.lt_ge_cases 0 (NumFailedJobs gs)); [|assumption].
      exfalso. apply Hrow2. split; assumption. }
    rewrite Hnone. reflexivity.
Qed.

End StopDecisionTable.

Lemma stop_failed_jobs_never_fail_witness :
  stop.reachesTable (stop.job ["a"] None v1alpha1.PhaseRunning 0) /\
  0 < lifecycle.NumFailedJobs (stop.counts 0 0 1) /\
  exists status',
    stop.calculateLifecycle stop.neverFiredAlert stop.neverFiredState
      (stop.job ["a"] None v1alpha1.PhaseRunning 0) (stop.counts 0 0 1)
    = Return (status', stop.job ["a"] None v1alpha1.PhaseRunning 0) /\
    v1alpha1.Phase_ (stop.Lifecycle_ status') <> v1alpha1.PhaseFailed.
Proof.
  assert (Hreach : stop.reachesTable (stop.job ["a"] None v1alpha1.PhaseRunning 0)).
  { split; [reflexivity | right; reflexivity]. }
  assert (Hfailed : 0 < lifecycle.NumFailedJobs (stop.counts 0 0 1)) by reflexivity.
  split; [exact Hreach|]. split; [exact Hfailed|].
  destruct (stop_failed_jobs_never_fail stop.neverFiredAlert stop.neverFiredState
              (stop.job ["a"] None v1alpha1.PhaseRunning 0) (stop.counts 0 0 1)
              Hreach Hfailed) as [status' [Heq [Hphase _]]].
  exists status'. split; assumption.
Defined.

(** C2 as stated fails on the table of the Stop job: one service, one
    failed job, no tolerance.  From phase Pending the call returns Pending
    with reason JobIsPending, and from phase Running it returns the
    Running status it was given; neither is Failed. *)
Lemma stop_failed_job_is_not_failure :
  0 < lifecycle.NumFailedJobs (stop.counts 0 0 1) /\
  stop.calculateLifecycle stop.neverFiredAlert stop.neverFiredState
    (stop.job ["a"] None v1alpha1.PhasePending 0) (stop.counts 0 0 1)
  = Return ({| stop.Lifecycle_ :=
                 {| v1alpha1.Phase_ := v1alpha1.PhasePending;
                    v1alpha1.Reason := "JobIsPending";
                    v1alpha1.Message := "at least one jobs has not yet created";
                    v1alpha1.Conditions := [] |};
               stop.ScheduledJobs := 0 |},
            stop.job ["a"] None v1alpha1.PhasePending 0) /\
  stop.calculateLifecycle stop.neverFiredAlert stop.neverFiredState
    (stop.job ["a"] None v1alpha1.PhaseRunning 0) (stop.counts 0 0 1)
  = Return (stop.Status (stop.job ["a"] None v1alpha1.PhaseRunning 0),
            stop.job ["a"] None v1alpha1.PhaseRunning 0).
Proof. repeat split. Qed.

Lemma stop_table_last_row_witness :
  stop.reachesTable (stop.job ["a"] None v1alpha1.PhasePending 0) /\
  stop.calculateLifecycle stop.neverFiredAlert stop.neverFiredState
    (stop.job ["a"] None v1alpha1.PhasePending 0) (stop.counts 0 0 0)
  = Return (stop.setLifecycle (stop.Status (stop.job ["a"] None v1alpha1.PhasePending 0))
              (stop.mkLifecycle v1alpha1.PhasePending "JobIsPending"
                 "at least one jobs has not yet created"),
            stop.job ["a"] None v1alpha1.PhasePending 0).
Proof.
  assert (Hreach : stop.reachesTable (stop.job ["a"] None v1alpha1.PhasePending 0)).
  { split; [reflexivity | left; reflexivity]. }
  split; [exact Hreach|].
  refine (proj1 (stop_table_last_row stop.neverFiredAlert stop.neverFiredState
                   (stop.job ["a"] None v1alpha1.PhasePending 0) (stop.counts 0 0 0)
                   Hreach _ _ _) eq_refl).
  - discriminate.
  - intros [H _]. discriminate H.
  - discriminate.
Defined.

(** C3 as stated fails: a Stop job over one service whose previous phase
    is Running, seen with a view in which no job is running, successful
    or failed (the running job is gone), matches no row, and the call
    panics instead of returning Pending. *)
Lemma stop_table_panics :
  stop.calculateLifecycle stop.neverFiredAlert stop.neverFiredState
    (stop.job ["a"] None v1alpha1.PhaseRunning 0) (stop.counts 0 0 0)
  = Panic "unhandled lifecycle conditions.".
Proof. reflexivity. Qed.

(** ** The bound on the instances of an Until loop *)

Section UntilBound.
Import v1alpha1 lifecycle.

(** In the Call job, while the Until condition is set, was not handled
    before and does not fire, the phase becomes Failed exactly when the
    list of services is not empty and [ScheduledJobs] is greater than its
    length; otherwise it becomes Pending. *)
Lemma call_until_threshold GroupedJobs IsTrue (view : ClassifierReader) (cr : call.Call) :
  Phase_ (call.Lifecycle_ (call.Status cr)) = PhasePending \/
  Phase_ (call.Lifecycle_ (call.Status cr)) = PhaseRunning ->
  ConditionalExpr_IsZero (call.Until (call.Spec cr)) = false ->
  meta.IsStatusConditionTrue (Conditions (call.Lifecycle_ (call.Status cr)))
    (ConditionType_String ConditionAllJobsAreScheduled) = false ->
  fst (IsTrue (call.Until (call.Spec cr)) view cr) = false ->
  let cr' := snd (call.calculateLifecycle GroupedJobs IsTrue view cr) in
  let maxJobs := Z.of_nat (length (call.Services (call.Spec cr))) in
  if (0 <? maxJobs) && (maxJobs <? call.ScheduledJobs (call.Status cr))
  then Phase_ (call.Lifecycle_ (call.Status cr')) = PhaseFailed /\
       Reason (call.Lifecycle_ (call.Status cr')) = "MaxInstancesReached"
  else Phase_ (call.Lifecycle_ (call.Status cr')) = PhasePending /\
       Reason (call.Lifecycle_ (call.Status cr')) = "SpawnUntilEvent".
Proof.
  intros Hphase Hzero Hcond Hfired. unfold call.calculateLifecycle.
  assert (Hskip : Phase_Is (Phase_ (call.Lifecycle_ (call.Status cr)))
                    [PhaseUninitialized; PhaseSuccess; PhaseFailed] = false)
    by (destruct Hphase as [-> | ->]; reflexivity).
  rewrite Hskip, Hzero, Hcond. cbn [negb].
  destruct (IsTrue _ view cr) as [fired info]. cbn [fst] in Hfired. subst fired.
  cbn zeta.
  destruct ((0 <? _) && (_ <? _)); split; reflexivity.
Qed.

End UntilBound.

(** C7 at its own example.  Services [[a,b,c]], an Until condition that
    does not fire.  [ScheduledJobs] is the index of the last scheduled
    job, so it is [2] after three jobs; at [2], and still at [3], the Call
    job and the Stop job go to Pending with reason SpawnUntilEvent.  Only
    at [4] do they fail with MaxInstancesReached. *)
Lemma until_bound_not_reached_at_three :
  let never := Some {| v1alpha1.Metrics := ""; v1alpha1.State := "never" |} in
  let callAt n :=
    call.Lifecycle_ (call.Status (snd
      (call.calculateLifecycle call.idleGroupedJobs call.neverTrue scenario.emptyView
         (call.job ["a"; "b"; "c"] never v1alpha1.PhasePending n)))) in
  let stopAt n :=
    match stop.calculateLifecycle stop.neverFiredAlert stop.neverFiredState
            (stop.job ["a"; "b"; "c"] never v1alpha1.PhasePending n) scenario.emptyView with
    | Return (status, _) => Some (stop.Lifecycle_ status)
    | Panic _ => None
    end in
  let phaseReason l := (v1alpha1.Phase_ l, v1alpha1.Reason l) in
  phaseReason (callAt 2) = (v1alpha1.PhasePending, "SpawnUntilEvent") /\
  phaseReason (callAt 3) = (v1alpha1.PhasePending, "SpawnUntilEvent") /\
  phaseReason (callAt 4) = (v1alpha1.PhaseFailed, "MaxInstancesReached") /\
  option_map phaseReason (stopAt 2) = Some (v1alpha1.PhasePending, "SpawnUntilEvent") /\
  option_map phaseReason (stopAt 3) = Some (v1alpha1.PhasePending, "SpawnUntilEvent") /\
  option_map phaseReason (stopAt 4) = Some (v1alpha1.PhaseFailed, "MaxInstancesReached").
Proof. repeat split. Qed.

(** ** The cron scheduler *)

Section CronBound.
Import scheduler.

Variable ParseStandard : string -> Result Schedule.
Variable Quote : string -> string.

(** With [n] post statements to go before the counter passes 100, [n]
    units of fuel are enough, and the loop ends in the error exactly when
    the next [n + 1] activation times are all missed. *)
Lemma missedLoop_bounded (sched : Schedule) (cur : time.Time) :
  forall (n fuel : nat) (t : time.Time) (starts : Z) (lastMissed : time.Time),
    starts = 100 - Z.of_nat n ->
    (n <= fuel)%nat ->
    (allMissed sched cur t (S n) = true ->
     missedLoop sched cur fuel t starts lastMissed = Some TooMany) /\
    (allMissed sched cur t (S n) = false ->
     exists lastMissed' starts',
       missedLoop sched cur fuel t starts lastMissed = Some (Exit lastMissed' starts')
       /\ starts <= starts' <= 100).
Proof.
  induction n as [|n IH]; intros fuel t starts lastMissed Hstarts Hfuel.
  - assert (starts = 100) as -> by lia.
    cbn [allMissed]. rewrite andb_true_r.
    assert (Heq : missedLoop sched cur fuel t 100 lastMissed =
                  if negb (time.After t cur) then Some TooMany
                  else Some (Exit lastMissed 100)).
    { destruct fuel; cbn [missedLoop]; destruct (negb (time.After t cur)); reflexivity. }
    rewrite Heq. destruct (negb (time.After t cur)).
    + split; [reflexivity | discriminate].
    + split; [discriminate|]. intros _.
      exists lastMissed, 100. split; [reflexivity | lia].
  - destruct fuel as [|fuel]; [lia|].
    change (allMissed sched cur t (S (S n)))
      with (negb (time.After t cur) && allMissed sched cur (sched t) (S n)).
    cbn [missedLoop].
    destruct (negb (time.After t cur)); cbn [andb].
    + assert (Hle : (100 <? starts + 1) = false) by (apply Z.ltb_ge; lia).
      rewrite Hle.
      destruct (IH fuel (sched t) (starts + 1) t ltac:(lia) ltac:(lia)) as [Htoo Hexit].
      split; [exact Htoo|].
      intros H. destruct (Hexit H) as (lm & s' & Heq & Hs').
      exists lm, s'. split; [exact Heq | lia].
    + split; [discriminate|]. intros _.
      eexists _, _. split; [reflexivity | lia].
Qed.

(** C5.  The loop over the missed start times never needs more than 100
    executions of its post statement: with fuel 100 [getNextScheduleTime]
    returns on every input.  When the search starts at or before [cur]
    and more than 100 start times are missed (the first 101 activation
    times after the earliest time are all at or before [cur]), the result
    is the zero time for both the missed and the next run together with
    the error, whose text begins with the documented words; otherwise the
    result is a normal one with the next run [sched.Next(cur)].  A loop
    that runs to its exit has counted at most 100 starts. *)
Theorem getNextScheduleTime_bound (cur now' creationTimestamp : time.Time)
  (scheduler : option SchedulerSpec) (lastScheduleTime : option time.Time) :
  (exists r, getNextScheduleTime ParseStandard Quote 100 cur now' creationTimestamp
               scheduler lastScheduleTime = Some r) /\
  (forall spec expr sched,
      scheduler = Some spec -> Cron spec = Some expr -> ParseStandard expr = Ok sched ->
      let e := earliestTime cur creationTimestamp spec lastScheduleTime in
      time.After e cur = false ->
      (allMissed sched cur (sched e) 101 = true ->
       getNextScheduleTime ParseStandard Quote 100 cur now' creationTimestamp
         scheduler lastScheduleTime
       = Some (time.zero, time.zero, Some tooManyMsg)) /\
      (allMissed sched cur (sched e) 101 = false ->
       exists lastMissed,
         getNextScheduleTime ParseStandard Quote 100 cur now' creationTimestamp
           scheduler lastScheduleTime
         = Some (lastMissed, sched cur, None))) /\
  (forall sched t,
      exists r, missedLoop sched cur 100 t 0 time.zero = Some r /\
                forall lastMissed starts, r = Exit lastMissed starts -> 0 <= starts <= 100) /\
  String.prefix "too many missed start times" tooManyMsg = true.
Proof.
  split; [|split; [|split; [|reflexivity]]].
  - unfold getNextScheduleTime.
    destruct scheduler as [spec|]; [|eexists; reflexivity].
    destruct (Cron spec) as [expr|]; [|eexists; reflexivity].
    destruct (ParseStandard expr) as [sched|err]; [|eexists; reflexivity].
    destruct (time.After _ cur); [eexists; reflexivity|].
    set (e := earliestTime cur creationTimestamp spec lastScheduleTime).
    destruct (missedLoop_bounded sched cur 100 100 (sched e) 0 time.zero
                eq_refl (le_n _)) as [Htoo Hexit].
    destruct (allMissed sched cur (sched e) 101).
    + rewrite (Htoo eq_refl). eexists; reflexivity.
    + destruct (Hexit eq_refl) as (lm & s' & Heq & _). rewrite Heq.
      eexists; reflexivity.
  - intros spec expr sched -> Hcron Hparse e Hafter.
    unfold getNextScheduleTime. rewrite Hcron, Hparse. fold e. rewrite Hafter.
    destruct (missedLoop_bounded sched cur 100 100 (sched e) 0 time.zero
                eq_refl (le_n _)) as [Htoo Hexit].
    split.
    + intros H. rewrite (Htoo H). reflexivity.
    + intros H. destruct (Hexit H) as (lm & s' & Heq & _). rewrite Heq.
      exists lm. reflexivity.
  - intros sched t.
    destruct (missedLoop_bounded sched cur 100 100 t 0 time.zero
                eq_refl (le_n _)) as [Htoo Hexit].
    destruct (allMissed sched cur t 101).
    + exists TooMany. split; [exact (Htoo eq_refl)|]. intros lm s' H. discriminate H.
    + destruct (Hexit eq_refl) as (lm & s' & Heq & Hs'). exists (Exit lm s').
      split; [exact Heq|]. intros lm' s'' H. injection H as <- <-. exact Hs'.
Qed.

End CronBound.

(** A schedule firing every nanosecond, searched from the creation time
    [0]: at [cur = 100] exactly 100 starts are missed and the latest,
    [100], is returned with the next run [101]; at [cur = 101] there are
    101 and the error is returned. *)
Example getNextScheduleTime_at_the_bound :
  let spec := Some {| scheduler.Cron := Some "tick";
                      scheduler.StartingDeadlineSeconds := None;
                      scheduler.Event := None |} in
  scheduler.getNextScheduleTime (scheduler.parseEvery 1) id 100 100 100 0 spec None
    = Some (100, 101, None) /\
  scheduler.getNextScheduleTime (scheduler.parseEvery 1) id 100 101 101 0 spec None
    = Some (0, 0, Some scheduler.tooManyMsg) /\
  scheduler.getNextScheduleTime (scheduler.parseEvery 1) id 99 100 100 0 spec None
    = None.
Proof. vm_compute. repeat split. Qed.

(** ** Duplicate action names *)

Section DuplicateNames.
Import v1alpha1 testplan.

Variable IsQualifiedName : string -> list string.

Lemma prepareLoop_rejects (actionList : list Action) :
  forall callIndex : gmap string Action,
    (exists n, In n (map Name actionList) /\ callIndex !! n <> None) \/
    ~ List.NoDup (map Name actionList) ->
    exists err, prepareLoop IsQualifiedName actionList callIndex = Error err.
Proof.
  induction actionList as [|action rest IH]; intros callIndex Hdup.
  - destruct Hdup as [(n & [] & _) | Hdup]. destruct Hdup. constructor.
  - cbn [prepareLoop].
    destruct (negb (isSupported action)); [eexists; reflexivity|].
    destruct (IsQualifiedName (Name action)); [|eexists; reflexivity].
    destruct (callIndex !! Name action) eqn:Hlookup; [eexists; reflexivity|].
    apply IH. cbn [map] in Hdup.
    assert (Hin : In (Name action) (map Name rest) ->
                  exists n, In n (map Name rest) /\
                            <[Name action := action]> callIndex !! n <> None).
    { intros Hin. exists (Name action). split; [exact Hin|].
      rewrite lookup_insert_eq. discriminate. }
    destruct Hdup as [(n & [Heq | Hin'] & Hn) | Hdup].
    + subst n. congruence.
    + left. exists n. split; [exact Hin'|].
      destruct (decide (Name action = n)) as [<- | Hne].
      * rewrite lookup_insert_eq. discriminate.
      * rewrite lookup_insert_ne by exact Hne. exact Hn.
    + destruct (in_dec string_dec (Name action) (map Name rest)) as [Hin' | Hnotin].
      * left. apply Hin, Hin'.
      * right. intros Hnodup. apply Hdup. constructor; assumption.
Qed.

(** The index of the test plan refuses duplicates: for every action list
    in which a name occurs twice, [PrepareDependencyGraph] returns an
    error, whatever the name check says. *)
Theorem PrepareDependencyGraph_rejects_duplicates (actionList : list Action) :
  ~ List.NoDup (map Name actionList) ->
  exists err, PrepareDependencyGraph IsQualifiedName actionList = Error err.
Proof. intros Hdup. apply prepareLoop_rejects. right. exact Hdup. Qed.

End DuplicateNames.

Lemma PrepareDependencyGraph_rejects_duplicates_witness :
  ~ List.NoDup (map v1alpha1.Name [testplan.serviceAction "a"; testplan.serviceAction "a"]) /\
  exists err,
    testplan.PrepareDependencyGraph testplan.anyName
      [testplan.serviceAction "a"; testplan.serviceAction "a"] = Error err.
Proof.
  assert (H : ~ List.NoDup (map v1alpha1.Name
                         [testplan.serviceAction "a"; testplan.serviceAction "a"])).
  { intros Hnodup. inversion Hnodup as [|x l Hnotin _]. apply Hnotin. left. reflexivity. }
  split; [exact H|].
  exact (PrepareDependencyGraph_rejects_duplicates testplan.anyName _ H).
Defined.

(** C6 at two Service actions both named [a]: [ValidateDAG] fills its
    index without looking for a collision, the second action replaces the
    first, and the returned error is nil.  [PrepareDependencyGraph]
    refuses the same list. *)
Lemma ValidateDAG_accepts_duplicates :
  let plan := [testplan.serviceAction "a"; testplan.serviceAction "a"] in
  workflow.ValidateDAG testplan.anyName workflow.parsesState workflow.parsesAlert
    workflow.noFormat plan scenario.emptyView = Return None /\
  testplan.PrepareDependencyGraph testplan.anyName plan = Error "Duplicate action 'a'".
Proof. vm_compute. split; reflexivity. Qed.

(** ** Telemetry agents of a service pod *)

Section TelemetryVolumes.
Import service.

Variable Quantity : Type.
Variable GetServiceSpec : Service Quantity -> string -> Result (ServiceSpec Quantity).

(** When every reference resolves, whatever the service looks like, to a
    monitor with exactly one container, the import loop succeeds and
    leaves the volumes of the service followed, for each reference in
    turn, by two copies of the monitor's volumes. *)
Lemma importAgents_volumes (resolve : string -> ServiceSpec Quantity) :
  (forall cr monRef, GetServiceSpec cr monRef = Ok (resolve monRef)) ->
  forall (req : list string) (cr : Service Quantity),
    (forall monRef, In monRef req -> exists c, Containers (resolve monRef) = [c]) ->
    fst (importAgents Quantity GetServiceSpec cr req) = None /\
    Volumes (Spec (snd (importAgents Quantity GetServiceSpec cr req))) =
    (Volumes (Spec cr) ++
     flat_map (fun monRef => Volumes (resolve monRef) ++ Volumes (resolve monRef)) req)%list.
Proof.
  intros Hresolve req.
  induction req as [|monRef rest IH]; intros cr Hone; cbn [importAgents flat_map].
  - split; [reflexivity|]. now rewrite app_nil_r.
  - rewrite Hresolve. destruct (Hone monRef (or_introl eq_refl)) as [c Hc]. rewrite Hc.
    match goal with |- context [importAgents _ _ ?cr' rest] =>
      destruct (IH cr' (fun m Hm => Hone m (or_intror Hm))) as [Herr Hvol] end.
    split; [exact Herr|]. rewrite Hvol. cbn [Spec Volumes setSpec].
    now rewrite <- !app_assoc.
Qed.

End TelemetryVolumes.

(** C9 at a service with one telemetry agent whose monitor has one volume:
    [decoratePod] succeeds and the service ends with two copies of that
    volume, where the claim has one. *)
Lemma decoratePod_appends_volumes_twice :
  let result :=
    service.decoratePod unit service.parseUnit service.keepFields service.resolveMonitor
      service.noText service.noText (service.telemetryOnly ["monitor"]) in
  fst result = None /\
  service.Volumes (service.Spec (snd result)) =
    [ {| service.Volume_Name := "monitor" |}; {| service.Volume_Name := "monitor" |} ] /\
  service.Volumes (service.Spec (snd result)) <>
    (service.Volumes (service.Spec (service.telemetryOnly ["monitor"]))
     ++ service.Volumes (service.monitorSpec "monitor"))%list.
Proof. vm_compute. repeat split. discriminate. Qed.

(** ** Containers of a pod *)

Section SkippedContainers.
Import accessor.

Lemma Contains_dash (s : string) :
  Contains s "-" = true <-> In "-"%char (list_ascii_of_string s).
Proof.
  induction s as [|a s IH]; cbn [Contains String.prefix list_ascii_of_string In].
  - split; [discriminate | intros []].
  - destruct (Ascii.ascii_dec "-"%char a) as [Heq | Hne].
    + split; [intros _; left; congruence | intros _].
      destruct s; reflexivity.
    + rewrite IH. split; [intros H; right; exact H|].
      intros [Heq | H]; [congruence | exact H].
Qed.

Lemma containerLifecycle_name (container : ContainerStatus) (l : Lifecycle) :
  In l (containerLifecycle container) -> Name l = Container_Name container.
Proof.
  unfold containerLifecycle.
  destruct (Waiting (State container)), (Running (State container)),
    (Terminated (State container)) as [state|];
    try destruct (ExitCode state =? 0);
    cbn [In]; intros H; repeat destruct H as [<- | H]; try reflexivity; destruct H.
Qed.

Lemma containersLoop_filter (statuses : list ContainerStatus) :
  forall lifecycles,
    containersLoop statuses lifecycles =
    (lifecycles ++
     flat_map containerLifecycle (List.filter (fun c => negb (skipped c)) statuses))%list.
Proof.
  induction statuses as [|container rest IH]; intros lifecycles;
    cbn [containersLoop List.filter flat_map].
  - now rewrite app_nil_r.
  - unfold skipped at 1.
    destruct (Contains (Container_Name container) "-"); cbn [negb flat_map].
    + apply IH.
    + rewrite IH. now rewrite <- app_assoc.
Qed.

(** C10.  For every pod the adapter returns the entries of the containers
    whose name has no ['-'], in order, and nothing else: what it returns
    does not change when the states of the other containers change or
    when they are removed, no returned entry bears a name with a ['-'],
    and so no container with a ['-'] in its name has an entry. *)
Theorem Containers_skips_dashed_names (pod : Pod) :
  Containers pod =
    flat_map containerLifecycle
      (List.filter (fun c => negb (skipped c)) (ContainerStatuses pod)) /\
  (forall l, In l (Containers pod) ->
             ~ In "-"%char (list_ascii_of_string (Name l))) /\
  (forall container l,
      In container (ContainerStatuses pod) ->
      In "-"%char (list_ascii_of_string (Container_Name container)) ->
      In l (Containers pod) -> Name l <> Container_Name container).
Proof.
  assert (Heq : Containers pod =
                flat_map containerLifecycle
                  (List.filter (fun c => negb (skipped c)) (ContainerStatuses pod))).
  { unfold Containers. apply containersLoop_filter. }
  assert (Hnames : forall l, In l (Containers pod) ->
                     ~ In "-"%char (list_ascii_of_string (Name l))).
  { intros l Hl. rewrite Heq in Hl. apply in_flat_map in Hl.
    destruct Hl as (container & Hc & Hl). apply filter_In in Hc.
    destruct Hc as [_ Hkeep]. rewrite (containerLifecycle_name container l Hl).
    rewrite <- Contains_dash. unfold skipped in Hkeep.
    destruct (Contains (Container_Name container) "-"); [discriminate | discriminate]. }
  split; [exact Heq|]. split; [exact Hnames|].
  intros container l _ Hdash Hl Hname. apply (Hnames l Hl). rewrite Hname. exact Hdash.
Qed.

End SkippedContainers.

(** * Further properties *)

(** ** The logical scheduler, for every clock *)

Section SchedulerSoundness.
Import v1alpha1 lifecycle scenario.

Variable timebase : time.Time.
Variable gs : ClassifierReader.
Variable executed : gmap string ConditionalExpr.

Lemma logicalReady_bool (a : Action) :
  logicalReady gs executed a <->
  executed !! Name a = None /\
  (forall deps, DependsOn a = Some deps ->
     successOK gs deps = true /\ runningOK gs deps = true).
Proof.
  unfold logicalReady, successOK, runningOK.
  split; intros [Hex Hdeps]; (split; [exact Hex|]); intros deps Hd;
    specialize (Hdeps deps Hd); rewrite !forallb_forall in *; exact Hdeps.
Qed.

Lemma scheduleLoop_sound (clock : Clock) (all : list Action) :
  forall schedule st,
  exists r,
    fst (scheduleLoop timebase gs executed clock all schedule st) = (schedule ++ r)%list /\
    sublist r all /\
    (forall a, In a r -> logicalReady gs executed a) /\
    (forall a, In a all -> logicalReady gs executed a ->
               (forall deps, DependsOn a = Some deps -> After deps = None) ->
               In a r).
Proof.
  induction all as [|action rest IH]; intros schedule st; cbn [scheduleLoop].
  - exists []. rewrite app_nil_r. split; [reflexivity|].
    split; [apply sublist_nil|]. split; intros a [].
  - assert (Hskip : forall st', ~ logicalReady gs executed action \/
                      (exists deps, DependsOn action = Some deps /\ After deps <> None) ->
              exists r,
                fst (scheduleLoop timebase gs executed clock rest schedule st')
                  = (schedule ++ r)%list /\
                sublist r (action :: rest) /\
                (forall a, In a r -> logicalReady gs executed a) /\
                (forall a, In a (action :: rest) -> logicalReady gs executed a ->
                   (forall deps, DependsOn a = Some deps -> After deps = None) ->
                   In a r)).
    { intros st' Hnot. destruct (IH schedule st') as (r & Heq & Hsub & Hin & Hall).
      exists r. split; [exact Heq|]. split; [now apply sublist_cons|].
      split; [exact Hin|]. intros a [<- | Ha] Hready Hno.
      - destruct Hnot as [Hnot | (deps & Hd & Hafter)]; [contradiction|].
        elim Hafter. now apply Hno.
      - now apply Hall. }
    assert (Htake : forall st', logicalReady gs executed action ->
              exists r,
                fst (scheduleLoop timebase gs executed clock rest
                       (schedule ++ [action]) st') = (schedule ++ r)%list /\
                sublist r (action :: rest) /\
                (forall a, In a r -> logicalReady gs executed a) /\
                (forall a, In a (action :: rest) -> logicalReady gs executed a ->
                   (forall deps, DependsOn a = Some deps -> After deps = None) ->
                   In a r)).
    { intros st' Hready.
      destruct (IH (schedule ++ [action])%list st') as (r & Heq & Hsub & Hin & Hall).
      exists (action :: r). split; [rewrite Heq, <- app_assoc; reflexivity|].
      split; [now apply sublist_skip|].
      split.
      - intros a [<- | Ha]; [exact Hready | now apply Hin].
      - intros a [<- | Ha] Hr Hno; [now left | right; now apply Hall]. }
    destruct (executed !! Name action) as [c|] eqn:Hex.
    { apply Hskip. left. intros [Hnone _]. congruence. }
    destruct (DependsOn action) as [deps|] eqn:Hdeps.
    + destruct (successOK gs deps) eqn:Hs; cbn [negb].
      2:{ apply Hskip. left. rewrite logicalReady_bool. intros [_ H].
          destruct (H deps Hdeps) as [H1 _]. congruence. }
      destruct (runningOK gs deps) eqn:Hr; cbn [negb].
      2:{ apply Hskip. left. rewrite logicalReady_bool. intros [_ H].
          destruct (H deps Hdeps) as [_ H2]. congruence. }
      assert (Hready : logicalReady gs executed action).
      { rewrite logicalReady_bool. split; [exact Hex|].
        intros deps' Heq. rewrite Hdeps in Heq. injection Heq as <-. split; assumption. }
      unfold timeOK. destruct (After deps) as [dur|] eqn:Hafter.
      * cbn [reads nextCycle].
        destruct (time.Before _ _); cbn [negb]; [now apply Htake|].
        destruct (time.IsZero _);
          [apply Hskip; right; exists deps; split; [reflexivity | congruence]|].
        destruct (time.Before _ _);
          apply Hskip; right; exists deps; split; reflexivity || congruence.
      * cbn [negb]. now apply Htake.
    + apply Htake. rewrite logicalReady_bool. split; [exact Hex|]. intros deps H. congruence.
Qed.

(** X1.  Whatever the clock shows during the invocation, the ready list is
    a sublist of the action list (same actions, same order), every action
    in it was not executed and has its success and running dependencies
    met, and every such action of the list that has no [depends.after] is
    in it. *)
Theorem GetNextLogicalJob_any_clock (clock : Clock) (all : list Action) :
  sublist (fst (GetNextLogicalJob timebase gs executed clock all)) all /\
  (forall a, In a (fst (GetNextLogicalJob timebase gs executed clock all)) ->
             logicalReady gs executed a) /\
  (forall a, In a all -> logicalReady gs executed a ->
             (forall deps, DependsOn a = Some deps -> After deps = None) ->
             In a (fst (GetNextLogicalJob timebase gs executed clock all))).
Proof.
  unfold GetNextLogicalJob.
  destruct (scheduleLoop_sound clock all [] {| reads := 0; nextCycle := time.zero |})
    as (r & Heq & Hsub & Hin & Hall).
  destruct (scheduleLoop _ _ _ _ _ _ _) as [schedule st]. cbn [fst] in *. subst schedule.
  cbn [app]. split; [exact Hsub|]. split; [exact Hin | exact Hall].
Qed.

End SchedulerSoundness.

(** ** The logical scheduler at one instant *)

Section SchedulerAtInstant.
Import v1alpha1 lifecycle scenario.

Variable timebase : time.Time.
Variable gs : ClassifierReader.

Lemma filter_sublist_impl {A} (f g : A -> bool) (l : list A) :
  (forall a, f a = true -> g a = true) ->
  sublist (List.filter f l) (List.filter g l).
Proof.
  intros Himpl. induction l as [|a l IH]; cbn [List.filter]; [apply sublist_nil|].
  destruct (f a) eqn:Hf.
  - rewrite (Himpl a Hf). now apply sublist_skip.
  - destruct (g a); [now apply sublist_cons | exact IH].
Qed.


Lemma ready_later executed (now now' : time.Time) (a : Action) :
  now <= now' ->
  ready timebase gs executed now a = true -> ready timebase gs executed now' a = true.
Proof.
  intros Hle. unfold ready.
  destruct (executed !! Name a); [discriminate|].
  destruct (DependsOn a) as [deps|]; [|reflexivity].
  destruct (successOK gs deps && runningOK gs deps); cbn [andb]; [|discriminate].
  destruct (After deps) as [dur|]; [|reflexivity].
  intros H. apply Z.ltb_lt in H. apply Z.ltb_lt. lia.
Qed.

Lemma GetNextLogicalJob_filter executed (clock : Clock) (now : time.Time) all :
  (forall k, clock k = now) ->
  fst (GetNextLogicalJob timebase gs executed clock all) =
  List.filter (ready timebase gs executed now) all.
Proof.
  intros Hclock. unfold GetNextLogicalJob.
  pose proof (scheduleLoop_filter timebase gs executed clock now Hclock all []
                {| reads := 0; nextCycle := time.zero |}) as H.
  destruct (scheduleLoop _ _ _ _ _ _ _) as [schedule st]. exact H.
Qed.

(** X3.  Readiness only grows with time: of two invocations on the same
    arguments, one at the instant [now] and one at a later instant
    [now'], the ready list of the first is a sublist of the ready list of
    the second. *)
Theorem GetNextLogicalJob_monotone_in_time executed (c c' : Clock)
  (now now' : time.Time) (all : list Action) :
  (forall k, c k = now) -> (forall k, c' k = now') -> now <= now' ->
  sublist (fst (GetNextLogicalJob timebase gs executed c all))
          (fst (GetNextLogicalJob timebase gs executed c' all)).
Proof.
  intros Hc Hc' Hle.
  rewrite (GetNextLogicalJob_filter executed c now all Hc),
          (GetNextLogicalJob_filter executed c' now' all Hc').
  apply filter_sublist_impl. intros a. now apply ready_later.
Qed.


Variable executed : gmap string ConditionalExpr.

Lemma timeOK_nextCycle (clock : Clock) (now : time.Time) deps st :
  (forall k, clock k = now) ->
  nextCycle (snd (timeOK timebase clock deps st)) =
  match After deps with
  | Some dur =>
      if time.Add timebase dur <? now then nextCycle st
      else nearer (nextCycle st) (time.Add timebase dur)
  | None => nextCycle st
  end.
Proof.
  intros Hclock. unfold timeOK, nearer.
  destruct (After deps) as [dur|]; [|reflexivity].
  cbn [reads nextCycle]. rewrite Hclock. unfold time.Before at 1.
  destruct (time.Add timebase dur <? now); [reflexivity|].
  destruct (time.IsZero (nextCycle st)); [reflexivity|].
  destruct (time.Before _ _); reflexivity.
Qed.

Lemma scheduleLoop_nextCycle (clock : Clock) (now : time.Time) :
  (forall k, clock k = now) ->
  forall all schedule st,
    nextCycle (snd (scheduleLoop timebase gs executed clock all schedule st)) =
    fold_left nearer (blockedDeadlines timebase gs executed now all) (nextCycle st).
Proof.
  intros Hclock all.
  induction all as [|action rest IH]; intros schedule st; [reflexivity|].
  cbn [scheduleLoop].
  change (blockedDeadlines timebase gs executed now (action :: rest))
    with (match blockedDeadline timebase gs executed now action with
          | Some d => d :: blockedDeadlines timebase gs executed now rest
          | None => blockedDeadlines timebase gs executed now rest
          end).
  set (waiting := blockedDeadlines timebase gs executed now rest) in *.
  unfold blockedDeadline.
  destruct (executed !! Name action); [apply IH|].
  destruct (DependsOn action) as [deps|]; [|apply IH].
  destruct (successOK gs deps); cbn [negb andb]; [|apply IH].
  destruct (runningOK gs deps); cbn [negb andb]; [|apply IH].
  pose proof (timeOK_nextCycle clock now deps st Hclock) as Hnc.
  destruct (timeOK timebase clock deps st) as [ok st']. cbn [snd] in Hnc.
  assert (Hgo : forall sched',
            nextCycle (snd (scheduleLoop timebase gs executed clock rest sched' st')) =
            fold_left nearer waiting (nextCycle st'))
    by (intros; apply IH).
  destruct (After deps) as [dur|].
  - destruct (time.Add timebase dur <? now); cbn [fold_left];
      destruct (negb ok); rewrite Hgo, Hnc; reflexivity.
  - destruct (negb ok); rewrite Hgo, Hnc; reflexivity.
Qed.

Lemma fold_nearer_least (ds : list time.Time) :
  (forall d, In d ds -> 0 < d) ->
  forall nc, 0 <= nc ->
    let r := fold_left nearer ds nc in
    (nc = 0 -> ds = [] -> r = 0) /\
    (nc <> 0 \/ ds <> [] ->
     0 < r /\ (r = nc \/ In r ds) /\ (nc <> 0 -> r <= nc) /\ forall d, In d ds -> r <= d).
Proof.
  induction ds as [|d ds IH]; intros Hpos nc Hnc; cbn [fold_left].
  - split; [intros -> _; reflexivity|].
    intros [Hne | Hne]; [|congruence].
    split; [lia|]. split; [now left|]. split; [lia|]. intros d [].
  - split; [intros _ H; discriminate H|]. intros _.
    assert (Hd : 0 < d) by (apply Hpos; now left).
    assert (Hnear : 0 < nearer nc d /\ (nearer nc d = nc \/ nearer nc d = d) /\
                    (nc <> 0 -> nearer nc d <= nc) /\ nearer nc d <= d).
    { unfold nearer, time.IsZero, time.Before.
      destruct (nc =? 0) eqn:Hz; [apply Z.eqb_eq in Hz; subst; lia|].
      apply Z.eqb_neq in Hz.
      destruct (d <? nc) eqn:Hlt; [apply Z.ltb_lt in Hlt | apply Z.ltb_ge in Hlt]; lia. }
    destruct Hnear as (Hn0 & Hn1 & Hn2 & Hn3).
    destruct (IH (fun x Hx => Hpos x (or_intror Hx)) (nearer nc d) ltac:(lia))
      as [_ Hrest].
    destruct (Hrest ltac:(left; lia)) as (Hr0 & Hr1 & Hr2 & Hr3).
    split; [exact Hr0|]. split.
    + destruct Hr1 as [Hr1 | Hr1]; [|right; now right].
      rewrite Hr1. destruct Hn1 as [-> | ->]; [now left | right; now left].
    + split.
      * intros Hne. specialize (Hr2 ltac:(lia)). specialize (Hn2 Hne). lia.
      * intros x [<- | Hx]; [specialize (Hr2 ltac:(lia)); lia | now apply Hr3].
Qed.

Lemma blockedDeadlines_not_before (now : time.Time) (all : list Action) (d : time.Time) :
  In d (blockedDeadlines timebase gs executed now all) -> now <= d.
Proof.
  unfold blockedDeadlines. intros Hin.
  apply list_elem_of_In, list_elem_of_omap in Hin. destruct Hin as (a & _ & Ha).
  unfold blockedDeadline in Ha.
  destruct (executed !! Name a); [discriminate|].
  destruct (DependsOn a) as [deps|]; [|discriminate].
  destruct (successOK gs deps && runningOK gs deps); [|discriminate].
  destruct (After deps) as [dur|]; [|discriminate].
  destruct (time.Add timebase dur <? now) eqn:Hlt; [discriminate|].
  injection Ha as <-. apply Z.ltb_ge in Hlt. exact Hlt.
Qed.

(** X2.  At an instant [now] after the zero instant, the wake-up time the
    scheduler returns is the zero time when no action waits for time
    alone, and otherwise the earliest deadline [timebase + after] among
    the actions that do (not executed, logical dependencies met, deadline
    not before [now]); it is then not before [now]. *)
Theorem GetNextLogicalJob_wakes_at_earliest_deadline (clock : Clock)
  (now : time.Time) (all : list Action) :
  (forall k, clock k = now) -> 0 < now ->
  let wake := snd (GetNextLogicalJob timebase gs executed clock all) in
  let waiting := blockedDeadlines timebase gs executed now all in
  (waiting = [] -> wake = time.zero) /\
  (waiting <> [] ->
   In wake waiting /\ (forall d, In d waiting -> wake <= d) /\ now <= wake).
Proof.
  intros Hclock Hnow wake waiting.
  assert (Hwake : wake = fold_left nearer waiting 0).
  { subst wake waiting. unfold GetNextLogicalJob.
    pose proof (scheduleLoop_nextCycle clock now Hclock all []
                  {| reads := 0; nextCycle := time.zero |}) as H.
    destruct (scheduleLoop _ _ _ _ _ _ _) as [schedule st]. exact H. }
  assert (Hpos : forall d, In d waiting -> 0 < d).
  { intros d Hd. apply blockedDeadlines_not_before in Hd. lia. }
  destruct (fold_nearer_least waiting Hpos 0 ltac:(lia)) as [Hnone Hsome].
  rewrite Hwake. split.
  - intros Hempty. now apply Hnone.
  - intros Hne. destruct (Hsome (or_intror Hne)) as (_ & Hin & _ & Hleast).
    destruct Hin as [Hzero | Hin].
    + destruct (Hsome (or_intror Hne)) as (Hlt & _). lia.
    + split; [exact Hin|]. split; [exact Hleast|].
      now apply blockedDeadlines_not_before in Hin.
Qed.

End SchedulerAtInstant.

(** ** The cron scheduler on schedules that move forward *)

Section CronForward.
Import scheduler.

Variable ParseStandard : string -> Result Schedule.
Variable Quote : string -> string.

Lemma missedLoop_exit_latest (sched : Schedule) (cur : time.Time) :
  movesForward sched ->
  forall fuel t starts lastMissed lastMissed' starts',
    missedLoop sched cur fuel t starts lastMissed = Some (Exit lastMissed' starts') ->
    (cur < t /\ lastMissed' = lastMissed) \/
    (t <= lastMissed' <= cur /\ cur < sched lastMissed').
Proof.
  intros Hfwd. induction fuel as [|fuel IH]; intros t starts lm lm' s' H;
    cbn [missedLoop] in H; unfold time.After in H;
    destruct (cur <? t) eqn:Hlt; cbn [negb] in H.
  - injection H as <- <-. left. apply Z.ltb_lt in Hlt. split; [exact Hlt | reflexivity].
  - destruct (100 <? starts + 1); discriminate H.
  - injection H as <- <-. left. apply Z.ltb_lt in Hlt. split; [exact Hlt | reflexivity].
  - apply Z.ltb_ge in Hlt. destruct (100 <? starts + 1); [discriminate H|].
    right. destruct (IH _ _ _ _ _ H) as [[Hcur ->] | [Hrange Hnext]].
    + split; [lia | exact Hcur].
    + pose proof (Hfwd t). split; [lia | exact Hnext].
Qed.

Lemma earliestTime_bounds (cur creationTimestamp : time.Time) (spec : SchedulerSpec)
  (lastScheduleTime : option time.Time) (secs : Z) :
  StartingDeadlineSeconds spec = Some secs ->
  - 2 ^ 63 < time.Second * secs < 2 ^ 63 ->
  cur - secs * time.Second <= earliestTime cur creationTimestamp spec lastScheduleTime.
Proof.
  intros Hsecs Hrange. unfold earliestTime. rewrite Hsecs.
  assert (Hwrap : wrap64 (- time.Second * secs) = - (secs * time.Second)).
  { unfold wrap64.
    replace (- time.Second * secs + 2 ^ 63) with (2 ^ 63 - time.Second * secs) by lia.
    rewrite Z.mod_small by lia. lia. }
  rewrite Hwrap. unfold time.Add, time.After.
  destruct (_ <? _) eqn:Hlt; [lia|]. apply Z.ltb_ge in Hlt. lia.
Qed.

(** What a normal result of [getNextScheduleTime] on a cron specification
    holds, for a schedule that moves forward. *)
Lemma getNextScheduleTime_normal (fuel : nat) (cur now' creationTimestamp : time.Time)
  (spec : SchedulerSpec) (lastScheduleTime : option time.Time)
  (expr : string) (sched : Schedule) (missed next : time.Time) :
  movesForward sched ->
  Cron spec = Some expr -> ParseStandard expr = Ok sched ->
  getNextScheduleTime ParseStandard Quote fuel cur now' creationTimestamp
    (Some spec) lastScheduleTime = Some (missed, next, None) ->
  let e := earliestTime cur creationTimestamp spec lastScheduleTime in
  next = sched cur /\ cur < next /\
  ((missed = time.zero /\ (cur < e \/ cur < sched e)) \/
   (e < missed <= cur /\ cur < sched missed)).
Proof.
  intros Hfwd Hcron Hparse Hres e. unfold getNextScheduleTime in Hres.
  rewrite Hcron, Hparse in Hres. fold e in Hres. unfold time.After in Hres.
  pose proof (Hfwd cur) as Hcur.
  destruct (cur <? e) eqn:Hlt.
  - injection Hres as <- <-. apply Z.ltb_lt in Hlt.
    split; [reflexivity|]. split; [exact Hcur|]. left. split; [reflexivity | now left].
  - destruct (missedLoop sched cur fuel (sched e) 0 time.zero) as [[lm s'|]|] eqn:Hloop;
      try discriminate.
    injection Hres as <- <-. split; [reflexivity|]. split; [exact Hcur|].
    destruct (missedLoop_exit_latest sched cur Hfwd _ _ _ _ _ _ Hloop)
      as [[Hafter ->] | [Hrange Hnext]].
    + left. split; [reflexivity | now right].
    + right. pose proof (Hfwd e). split; [lia | exact Hnext].
Qed.


Variable IsTrue : option v1alpha1.ConditionalExpr -> lifecycle.ClassifierReader -> bool.

(** X6.  With a cron schedule that moves forward and a starting deadline
    (whose product with a second fits a duration), a missed run that is
    returned lies within the deadline of [cur]; so when the clock read for
    the lateness test still shows [cur], [timeBasedWithDeadline] never
    calls [lifecycle.Failed]: its result is the same for every such
    function, and carries no error. *)
Theorem timeBasedWithDeadline_not_late (Failed Failed' : string -> CtrlResult * option string)
  (fuel : nat) (clock : nat -> time.Time) (creationTimestamp : time.Time)
  (spec : SchedulerSpec) (lastSchedule : option time.Time)
  (expr : string) (sched : Schedule) :
  movesForward sched ->
  Cron spec = Some expr -> ParseStandard expr = Ok sched ->
  (forall secs, StartingDeadlineSeconds spec = Some secs ->
                - 2 ^ 63 < time.Second * secs < 2 ^ 63) ->
  clock 1%nat = clock 0%nat ->
  timeBasedWithDeadline ParseStandard Quote Failed fuel clock creationTimestamp
    spec lastSchedule =
  timeBasedWithDeadline ParseStandard Quote Failed' fuel clock creationTimestamp
    spec lastSchedule /\
  (forall r, timeBasedWithDeadline ParseStandard Quote Failed fuel clock
               creationTimestamp spec lastSchedule = Some r -> snd r = None).
Proof.
  intros Hfwd Hcron Hparse Hrange Hstable.
  unfold timeBasedWithDeadline. rewrite Hcron.
  destruct (getNextScheduleTime _ _ fuel _ _ _ _ _) as [[[missed next] [err|]]|] eqn:Hres.
  - split; [reflexivity|]. intros r H. injection H as <-. reflexivity.
  - destruct (getNextScheduleTime_normal fuel _ _ _ spec lastSchedule expr sched
                missed next Hfwd Hcron Hparse Hres) as (_ & _ & Hmissed).
    destruct (time.IsZero missed) eqn:Hzero.
    { destruct (time.IsZero next); split; try reflexivity;
        intros r H; injection H as <-; reflexivity. }
    assert (Hnot : match StartingDeadlineSeconds spec with
                   | Some deadline =>
                       time.Before (time.Add missed (wrap64 (deadline * time.Second)))
                         (clock 1%nat)
                   | None => false
                   end = false).
    { destruct (StartingDeadlineSeconds spec) as [secs|] eqn:Hsecs; [|reflexivity].
      specialize (Hrange secs eq_refl).
      pose proof (earliestTime_bounds (clock 0%nat) creationTimestamp spec lastSchedule
                    secs Hsecs Hrange) as Hearly.
      assert (Hwrap : wrap64 (secs * time.Second) = secs * time.Second).
      { unfold wrap64. rewrite Z.mod_small by lia. lia. }
      rewrite Hwrap, Hstable. unfold time.Before, time.Add. apply Z.ltb_ge.
      destruct Hmissed as [[-> _] | [Hrange' _]].
      - unfold time.IsZero, time.zero in Hzero. discriminate Hzero.
      - lia. }
    rewrite Hnot. split; [reflexivity|]. intros r H. injection H as <-. reflexivity.
  - split; [reflexivity | discriminate].
Qed.

(** X7.  A cron expression that does not parse, like a count of missed
    starts above 100, is not an error of [Schedule]: unless the event of
    the specification holds, the answer is not to run, not to requeue, and
    a nil error, and [lifecycle.Failed] is not called. *)
Theorem Schedule_swallows_cron_errors (Failed : string -> CtrlResult * option string)
  (clock : nat -> time.Time) (creationTimestamp : time.Time)
  (spec : SchedulerSpec) (lastSchedule : option time.Time)
  (state : lifecycle.ClassifierReader) (expr : string) :
  Cron spec = Some expr ->
  negb (v1alpha1.ConditionalExpr_IsZero (Event spec)) && IsTrue (Event spec) state = false ->
  (forall err, ParseStandard expr = Error err ->
     Schedule_ ParseStandard Quote IsTrue Failed 100 clock creationTimestamp
       (Some spec) lastSchedule state = Some (false, noRequeue, None)) /\
  (forall sched,
     ParseStandard expr = Ok sched ->
     let e := earliestTime (clock 0%nat) creationTimestamp spec lastSchedule in
     time.After e (clock 0%nat) = false ->
     allMissed sched (clock 0%nat) (sched e) 101 = true ->
     Schedule_ ParseStandard Quote IsTrue Failed 100 clock creationTimestamp
       (Some spec) lastSchedule state = Some (false, noRequeue, None)).
Proof.
  intros Hcron Hevent. unfold Schedule_. rewrite Hevent, Hcron.
  unfold timeBasedWithDeadline, getNextScheduleTime. rewrite Hcron. split.
  - intros err ->. reflexivity.
  - intros sched Hparse Hafter Hall. rewrite Hparse, Hafter.
    destruct (missedLoop_bounded sched (clock 0%nat) 100 100
                (sched (earliestTime (clock 0%nat) creationTimestamp spec lastSchedule))
                0 time.zero eq_refl (le_n _)) as [Htoo _].
    rewrite (Htoo Hall). reflexivity.
Qed.

End CronForward.

(** ** The index of a test plan *)

Section PlanIndex.
Import v1alpha1 testplan.

Variable IsQualifiedName : string -> list string.

Lemma prepareLoop_ok (actionList : list Action) :
  forall callIndex callIndex' : gmap string Action,
    prepareLoop IsQualifiedName actionList callIndex = Ok callIndex' ->
    (forall a, In a actionList -> wellFormed IsQualifiedName a) /\
    List.NoDup (map Name actionList) /\
    (forall a, In a actionList -> callIndex !! Name a = None) /\
    (forall n a, callIndex' !! n = Some a <->
                 callIndex !! n = Some a \/ (In a actionList /\ Name a = n)).
Proof.
  induction actionList as [|action rest IH]; intros callIndex callIndex' Hok;
    cbn [prepareLoop] in Hok.
  - injection Hok as <-. split; [intros a []|]. split; [constructor|].
    split; [intros a []|]. intros n a. split; [now left|]. intros [H | [[] _]]. exact H.
  - destruct (isSupported action) eqn:Hsup; cbn [negb] in Hok; [|discriminate].
    destruct (IsQualifiedName (Name action)) eqn:Hname; [|discriminate].
    destruct (callIndex !! Name action) eqn:Hfree; [discriminate|].
    destruct (IH _ _ Hok) as (Hwf & Hnodup & Hfresh & Hlookup).
    assert (Hnotin : ~ In (Name action) (map Name rest)).
    { intros Hin. apply in_map_iff in Hin. destruct Hin as (b & Hb & Hin).
      specialize (Hfresh b Hin). rewrite Hb, lookup_insert_eq in Hfresh. discriminate. }
    split; [intros a [<- | Ha]; [split; assumption | now apply Hwf]|].
    split; [cbn [map]; constructor; assumption|].
    split.
    + intros a [<- | Ha]; [exact Hfree|].
      specialize (Hfresh a Ha).
      destruct (decide (Name action = Name a)) as [Heq | Hne].
      * rewrite Heq, lookup_insert_eq in Hfresh. discriminate.
      * now rewrite lookup_insert_ne in Hfresh.
    + intros n a. rewrite Hlookup. split.
      * intros [Hins | [Ha Hn]]; [|right; split; [now right | exact Hn]].
        destruct (decide (Name action = n)) as [<- | Hne].
        -- rewrite lookup_insert_eq in Hins. injection Hins as <-.
           right. split; [now left | reflexivity].
        -- rewrite lookup_insert_ne in Hins by exact Hne. now left.
      * intros [Hold | [[<- | Ha] Hn]].
        -- left. destruct (decide (Name action = n)) as [<- | Hne]; [congruence|].
           now rewrite lookup_insert_ne.
        -- left. subst n. now rewrite lookup_insert_eq.
        -- right. split; assumption.
Qed.

Lemma prepareLoop_complete (actionList : list Action) :
  forall callIndex : gmap string Action,
    (forall a, In a actionList -> wellFormed IsQualifiedName a) ->
    List.NoDup (map Name actionList) ->
    (forall a, In a actionList -> callIndex !! Name a = None) ->
    exists callIndex', prepareLoop IsQualifiedName actionList callIndex = Ok callIndex'.
Proof.
  induction actionList as [|action rest IH]; intros callIndex Hwf Hnodup Hfresh;
    cbn [prepareLoop]; [eexists; reflexivity|].
  destruct (Hwf action (or_introl eq_refl)) as [Hsup Hname].
  rewrite Hsup, Hname, (Hfresh action (or_introl eq_refl)). cbn [negb].
  cbn [map] in Hnodup. apply NoDup_cons_iff in Hnodup. destruct Hnodup as [Hnotin Hnodup].
  apply IH.
  - intros a Ha. apply Hwf. now right.
  - exact Hnodup.
  - intros a Ha. rewrite lookup_insert_ne; [apply Hfresh; now right|].
    intros Heq. apply Hnotin. rewrite Heq. now apply in_map.
Qed.

(** X8.  [PrepareDependencyGraph] returns an index exactly for the action
    lists in which no name occurs twice and every action has a supported
    type with its specification set and a qualified name; the index then
    maps a name to an action if and only if the action is in the list
    under that name. *)
Theorem PrepareDependencyGraph_index (actionList : list Action) :
  ((exists callIndex, PrepareDependencyGraph IsQualifiedName actionList = Ok callIndex) <->
   List.NoDup (map Name actionList) /\ forall a, In a actionList -> wellFormed IsQualifiedName a) /\
  (forall callIndex,
     PrepareDependencyGraph IsQualifiedName actionList = Ok callIndex ->
     forall n a, callIndex !! n = Some a <-> In a actionList /\ Name a = n).
Proof.
  unfold PrepareDependencyGraph. split; [split|].
  - intros [callIndex Hok]. destruct (prepareLoop_ok _ _ _ Hok) as (Hwf & Hnodup & _).
    split; assumption.
  - intros [Hnodup Hwf]. apply prepareLoop_complete; [exact Hwf | exact Hnodup|].
    intros a _. apply lookup_empty.
  - intros callIndex Hok n a.
    destruct (prepareLoop_ok _ _ _ Hok) as (_ & _ & _ & Hlookup).
    rewrite Hlookup, lookup_empty. split; [intros [H | H]; [discriminate | exact H]|].
    intros H. now right.
Qed.

End PlanIndex.

(** ** Validation of a test plan *)

Section PlanValidation.
Import v1alpha1 testplan.

Variable IsQualifiedName : string -> list string.
Variable FiredState :
  string -> lifecycle.ClassifierReader -> string * bool * option string.
Variable ParseAlertExpr : string -> option string.
Variable GetServiceSpec : GenerateFromTemplate -> option string.
Variable GetChaosSpec : GenerateFromTemplate -> option string.
Variable fmtWaitSpec : WaitSpec -> string.
Variable state : lifecycle.ClassifierReader.

Lemma depsIn_spec (callIndex : gmap string Action) (deps : list string) :
  depsIn callIndex deps = true <-> forall dep, In dep deps -> callIndex !! dep <> None.
Proof.
  unfold depsIn. rewrite forallb_forall.
  split; intros H dep Hin; specialize (H dep Hin).
  - now apply bool_decide_eq_true in H.
  - now apply bool_decide_eq_true.
Qed.

Lemma CheckDependencies_none (a : Action) (callIndex : gmap string Action) :
  CheckDependencies fmtWaitSpec a callIndex = None <->
  forall deps, DependsOn a = Some deps ->
    forall dep, In dep (Success deps) \/ In dep (Running deps) -> callIndex !! dep <> None.
Proof.
  unfold CheckDependencies. destruct (DependsOn a) as [deps|].
  - destruct (depsIn callIndex (Success deps)) eqn:Hs;
      destruct (depsIn callIndex (Running deps)) eqn:Hr; cbn [negb orb].
    + rewrite depsIn_spec in Hs, Hr. split; [|reflexivity].
      intros _ deps' Heq dep Hin. injection Heq as <-. destruct Hin; auto.
    + split; [discriminate|]. intros H. exfalso.
      assert (depsIn callIndex (Running deps) = true); [|congruence].
      apply depsIn_spec. intros dep Hin. apply (H deps eq_refl). now right.
    + split; [discriminate|]. intros H. exfalso.
      assert (depsIn callIndex (Success deps) = true); [|congruence].
      apply depsIn_spec. intros dep Hin. apply (H deps eq_refl). now left.
    + split; [discriminate|]. intros H. exfalso.
      assert (depsIn callIndex (Success deps) = true); [|congruence].
      apply depsIn_spec. intros dep Hin. apply (H deps eq_refl). now left.
  - split; [discriminate 2 | reflexivity].
Qed.

Lemma CheckAssertions_spec (a : Action) (emb : EmbedActions) :
  EmbedActions_ a = Some emb ->
  exists r, CheckAssertions FiredState ParseAlertExpr a state = Return r /\
            (r = None <-> assertionAccepted FiredState ParseAlertExpr state a).
Proof.
  intros Hemb. unfold CheckAssertions, assertionAccepted. rewrite Hemb.
  destruct (Assert a) as [e|]; cbn [ConditionalExpr_IsZero negb default from_option id].
  2:{ eexists. split; [reflexivity|]. split; [discriminate 2 | reflexivity]. }
  unfold HasStateExpr, HasMetricsExpr.
  destruct (String.eqb_spec (Metrics e) "") as [Hm | Hm];
    destruct (String.eqb_spec (State e) "") as [Hs | Hs]; cbn [andb negb].
  - eexists. split; [reflexivity|]. split; [|reflexivity].
    intros _ e' Heq [H | H]; injection Heq as <-; contradiction.
  - destruct (Delete emb) eqn:Hdel.
    + eexists. split; [reflexivity|]. split; [discriminate|].
      intros H. destruct (H e eq_refl (or_intror Hs)) as [Hno _].
      specialize (Hno emb eq_refl). congruence.
    + destruct (FiredState (State e) state) as [[info fired] [err|]] eqn:Hfs.
      * eexists. split; [reflexivity|]. split; [discriminate|].
        intros H. destruct (H e eq_refl (or_intror Hs)) as (_ & Hst & _).
        specialize (Hst Hs). rewrite Hfs in Hst. discriminate Hst.
      * eexists. split; [reflexivity|]. split; [|reflexivity].
        intros _ e' Heq _. injection Heq as <-. split; [|split].
        -- intros emb' H'. injection H' as <-. exact Hdel.
        -- intros _. now rewrite Hfs.
        -- intros H'. contradiction.
  - destruct (Delete emb) eqn:Hdel.
    + eexists. split; [reflexivity|]. split; [discriminate|].
      intros H. destruct (H e eq_refl (or_introl Hm)) as [Hno _].
      specialize (Hno emb eq_refl). congruence.
    + destruct (ParseAlertExpr (Metrics e)) as [err|] eqn:Hpa.
      * eexists. split; [reflexivity|]. split; [discriminate|].
        intros H. destruct (H e eq_refl (or_introl Hm)) as (_ & _ & Hme).
        specialize (Hme Hm). congruence.
      * eexists. split; [reflexivity|]. split; [|reflexivity].
        intros _ e' Heq _. injection Heq as <-. split; [|split].
        -- intros emb' H'. injection H' as <-. exact Hdel.
        -- intros H'. contradiction.
        -- intros _. exact Hpa.
  - destruct (Delete emb) eqn:Hdel.
    + eexists. split; [reflexivity|]. split; [discriminate|].
      intros H. destruct (H e eq_refl (or_introl Hm)) as [Hno _].
      specialize (Hno emb eq_refl). congruence.
    + destruct (FiredState (State e) state) as [[info fired] [err|]] eqn:Hfs.
      * eexists. split; [reflexivity|]. split; [discriminate|].
        intros H. destruct (H e eq_refl (or_intror Hs)) as (_ & Hst & _).
        specialize (Hst Hs). rewrite Hfs in Hst. discriminate Hst.
      * destruct (ParseAlertExpr (Metrics e)) as [err|] eqn:Hpa.
        -- eexists. split; [reflexivity|]. split; [discriminate|].
           intros H. destruct (H e eq_refl (or_introl Hm)) as (_ & _ & Hme).
           specialize (Hme Hm). congruence.
        -- eexists. split; [reflexivity|]. split; [|reflexivity].
           intros _ e' Heq _. injection Heq as <-. split; [|split].
           ++ intros emb' H'. injection H' as <-. exact Hdel.
           ++ intros _. now rewrite Hfs.
           ++ intros _. exact Hpa.
Qed.

Ltac other_type Heq Hc := rewrite Heq in Hc; cbv in Hc; discriminate Hc.

Lemma CheckTemplateRef_spec (a : Action) :
  isSupported a = true ->
  exists r, CheckTemplateRef GetServiceSpec GetChaosSpec a = Return r /\
            (r = None <-> templateResolves GetServiceSpec GetChaosSpec a).
Proof.
  intros Hsup. unfold isSupported in Hsup.
  destruct (EmbedActions_ a) as [emb|] eqn:Hemb; [|discriminate].
  unfold CheckTemplateRef, templateOf, checkRef, templateResolves. rewrite Hemb.
  destruct (String.eqb_spec (ActionType_ a) ActionService) as [Ht | Ht1].
  { apply bool_decide_eq_true in Hsup.
    destruct (Service emb) as [t|] eqn:Hf; [|congruence]. cbn [id].
    destruct (GetServiceSpec t) eqn:Hg; eexists; (split; [reflexivity|]); split;
      try discriminate; try reflexivity.
    - intros H. destruct (H emb eq_refl) as (H1 & _). specialize (H1 Ht t Hf). congruence.
    - intros _ emb' He'. injection He' as <-.
      split; [intros _ t' Ht'; congruence|].
      split; [intros Hc; other_type Ht Hc|].
      split; intros Hc; other_type Ht Hc. }
  destruct (String.eqb_spec (ActionType_ a) ActionCluster) as [Ht | Ht2].
  { apply bool_decide_eq_true in Hsup.
    destruct (Cluster emb) as [c|] eqn:Hf; [|congruence].
    destruct (GetServiceSpec (Cluster_GenerateFromTemplate c)) eqn:Hg;
      eexists; (split; [reflexivity|]); split; try discriminate; try reflexivity.
    - intros H. destruct (H emb eq_refl) as (_ & H1 & _). specialize (H1 Ht c Hf).
      congruence.
    - intros _ emb' He'. injection He' as <-.
      split; [intros Hc; other_type Ht Hc|].
      split; [intros _ c' Hc'; congruence|].
      split; intros Hc; other_type Ht Hc. }
  destruct (String.eqb_spec (ActionType_ a) ActionChaos) as [Ht | Ht3].
  { apply bool_decide_eq_true in Hsup.
    destruct (Chaos emb) as [t|] eqn:Hf; [|congruence]. cbn [id].
    destruct (GetChaosSpec t) eqn:Hg; eexists; (split; [reflexivity|]); split;
      try discriminate; try reflexivity.
    - intros H. destruct (H emb eq_refl) as (_ & _ & H1 & _). specialize (H1 Ht t Hf).
      congruence.
    - intros _ emb' He'. injection He' as <-.
      split; [intros Hc; other_type Ht Hc|].
      split; [intros Hc; other_type Ht Hc|].
      split; [intros _ t' Ht'; congruence|].
      intros Hc; other_type Ht Hc. }
  destruct (String.eqb_spec (ActionType_ a) ActionCascade) as [Ht | Ht4].
  { apply bool_decide_eq_true in Hsup.
    destruct (Cascade emb) as [c|] eqn:Hf; [|congruence].
    destruct (GetChaosSpec (Cascade_GenerateFromTemplate c)) eqn:Hg;
      eexists; (split; [reflexivity|]); split; try discriminate; try reflexivity.
    - intros H. destruct (H emb eq_refl) as (_ & _ & _ & H1). specialize (H1 Ht c Hf).
      congruence.
    - intros _ emb' He'. injection He' as <-.
      split; [intros Hc; other_type Ht Hc|].
      split; [intros Hc; other_type Ht Hc|].
      split; [intros Hc; other_type Ht Hc|].
      intros _ c' Hc'; congruence. }
  eexists. split; [reflexivity|]. split; [|reflexivity].
  intros _ emb' _. repeat split; intros Hc; contradiction.
Qed.

Lemma checkJobs_none (callIndex : gmap string Action) (a : Action) (jobs : list string) :
  checkJobs callIndex a jobs = None <->
  forall job, In job jobs ->
    exists target, callIndex !! job = Some target /\ ActionType_ target <> ActionDelete.
Proof.
  induction jobs as [|job rest IH]; cbn [checkJobs].
  - split; [intros _ job [] | reflexivity].
  - destruct (callIndex !! job) as [target|] eqn:Hlookup.
    + destruct (String.eqb_spec (ActionType_ target) ActionDelete) as [Ht | Ht].
      * split; [discriminate|]. intros H.
        destruct (H job (or_introl eq_refl)) as (t & Heq & Hne). congruence.
      * rewrite IH. split.
        -- intros H j [<- | Hj]; [exists target; split; assumption | now apply H].
        -- intros H j Hj. apply H. now right.
    + split; [discriminate|]. intros H.
      destruct (H job (or_introl eq_refl)) as (t & Heq & _). congruence.
Qed.

Lemma CheckJobRef_spec (a : Action) (callIndex : gmap string Action) :
  isSupported a = true ->
  exists r, CheckJobRef a callIndex = Return r /\
            (r = None <->
             (ActionType_ a = ActionDelete ->
              forall emb d, EmbedActions_ a = Some emb -> Delete emb = Some d ->
                forall job, In job (Jobs d) ->
                  exists target, callIndex !! job = Some target /\
                                 ActionType_ target <> ActionDelete)).
Proof.
  intros Hsup. unfold isSupported in Hsup.
  destruct (EmbedActions_ a) as [emb|] eqn:Hemb; [|discriminate].
  unfold CheckJobRef. rewrite Hemb.
  destruct (String.eqb_spec (ActionType_ a) ActionDelete) as [Ht | Ht].
  - rewrite Ht in Hsup. cbv [ActionDelete ActionService ActionCluster ActionChaos
                             ActionCascade String.eqb Ascii.eqb Bool.eqb] in Hsup.
    apply bool_decide_eq_true in Hsup.
    destruct (Delete emb) as [d|] eqn:Hdel; [|congruence].
    eexists. split; [reflexivity|]. rewrite checkJobs_none. split.
    + intros H _ emb' d' He' Hd'. injection He' as <-. rewrite Hdel in Hd'.
      injection Hd' as <-. exact H.
    + intros H. exact (H Ht emb d eq_refl Hdel).
  - eexists. split; [reflexivity|]. split; [|reflexivity]. intros _ Hc. contradiction.
Qed.

Lemma wrap_none (text : string) (r : Outcome (option string)) :
  wrap text r = Return None <-> r = Return None.
Proof. destruct r as [[err|]|msg]; cbn [wrap]; split; congruence. Qed.

Lemma checkAction_spec (callIndex : gmap string Action) (name : string) (a : Action) :
  isSupported a = true ->
  exists r,
    checkAction FiredState ParseAlertExpr GetServiceSpec GetChaosSpec fmtWaitSpec
      callIndex state name a = Return r /\
    (r = None <->
     CheckDependencies fmtWaitSpec a callIndex = None /\
     assertionAccepted FiredState ParseAlertExpr state a /\
     templateResolves GetServiceSpec GetChaosSpec a /\
     CheckJobRef a callIndex = Return None).
Proof.
  intros Hsup. unfold checkAction.
  assert (Hemb : exists emb, EmbedActions_ a = Some emb).
  { unfold isSupported in Hsup. destruct (EmbedActions_ a); [eauto | discriminate]. }
  destruct Hemb as [emb Hemb].
  destruct (CheckDependencies fmtWaitSpec a callIndex) as [err|].
  { eexists. split; [reflexivity|]. split; [discriminate|]. intros [H _]. discriminate H. }
  destruct (CheckAssertions_spec a emb Hemb) as (r1 & -> & H1).
  destruct r1 as [err|]; cbn [wrap].
  { eexists. split; [reflexivity|]. split; [discriminate|].
    intros (_ & H & _). apply H1 in H. discriminate H. }
  destruct (CheckTemplateRef_spec a Hsup) as (r2 & -> & H2).
  destruct r2 as [err|]; cbn [wrap].
  { eexists. split; [reflexivity|]. split; [discriminate|].
    intros (_ & _ & H & _). apply H2 in H. discriminate H. }
  destruct (CheckJobRef_spec a callIndex Hsup) as (r3 & -> & _).
  destruct r3 as [err|]; cbn [wrap]; eexists; (split; [reflexivity|]); split.
  - discriminate.
  - intros (_ & _ & _ & H). discriminate H.
  - intros _. split; [reflexivity|]. split; [now apply H1|]. split; [now apply H2 | reflexivity].
  - reflexivity.
Qed.

Lemma checkEntries_spec (callIndex : gmap string Action)
  (entries : list (string * Action)) :
  (forall n a, In (n, a) entries -> isSupported a = true) ->
  exists r,
    checkEntries FiredState ParseAlertExpr GetServiceSpec GetChaosSpec fmtWaitSpec
      callIndex state entries = Return r /\
    (r = None <->
     forall n a, In (n, a) entries ->
       checkAction FiredState ParseAlertExpr GetServiceSpec GetChaosSpec fmtWaitSpec
         callIndex state n a = Return None).
Proof.
  induction entries as [|[n a] rest IH]; intros Hsup; cbn [checkEntries].
  - eexists. split; [reflexivity|]. split; [intros _ n a [] | reflexivity].
  - destruct (checkAction_spec callIndex n a (Hsup n a (or_introl eq_refl)))
      as (r & Hr & _).
    rewrite Hr. destruct r as [err|].
    + eexists. split; [reflexivity|]. split; [discriminate|].
      intros H. specialize (H n a (or_introl eq_refl)). congruence.
    + destruct (IH (fun n' a' H => Hsup n' a' (or_intror H))) as (r' & Hr' & Hiff).
      exists r'. split; [exact Hr'|]. rewrite Hiff. split.
      * intros H n' a' [Heq | Hin]; [injection Heq as <- <-; exact Hr | now apply H].
      * intros H n' a' Hin. apply H. now right.
Qed.

Variable order : gmap string Action -> list (string * Action).
Variable planName : string.

Lemma index_dependencies (actions : list Action) (callIndex : gmap string Action)
  (a : Action) :
  (forall n b, callIndex !! n = Some b <-> In b actions /\ Name b = n) ->
  (CheckDependencies fmtWaitSpec a callIndex = None <-> dependenciesDefined actions a).
Proof.
  intros Hlk. rewrite CheckDependencies_none. unfold dependenciesDefined, defined.
  split; intros H deps Hdeps dep Hin; specialize (H deps Hdeps dep Hin).
  - destruct (callIndex !! dep) as [b|] eqn:Hb; [|congruence].
    exists b. now apply Hlk.
  - destruct H as (b & Hb). apply Hlk in Hb. congruence.
Qed.

Lemma index_jobs (actions : list Action) (callIndex : gmap string Action) (a : Action) :
  (forall n b, callIndex !! n = Some b <-> In b actions /\ Name b = n) ->
  isSupported a = true ->
  (CheckJobRef a callIndex = Return None <-> jobsDeletable actions a).
Proof.
  intros Hlk Hsup. destruct (CheckJobRef_spec a callIndex Hsup) as (r & -> & Hiff).
  unfold jobsDeletable, deletable.
  assert (Hret : Return r = Return (None : option string) <-> r = None)
    by (split; congruence).
  rewrite Hret, Hiff.
  split; intros H Ht emb d Hemb Hd job Hjob; specialize (H Ht emb d Hemb Hd job Hjob).
  - destruct H as (target & Htarget & Hne). exists target.
    apply Hlk in Htarget. destruct Htarget. repeat split; assumption.
  - destruct H as (b & Hb & Hname & Hne). exists b. split; [|exact Hne].
    apply Hlk. split; assumption.
Qed.

(** X9.  Whatever the order in which the entries of the index are visited,
    [Validate] does not panic: the index holds only actions whose type is
    supported and whose specification is set, and these are the pointers
    the checks read through. *)
Theorem Validate_never_panics (actions : list Action) :
  (forall m n a, In (n, a) (order m) -> m !! n = Some a) ->
  exists err,
    Validate IsQualifiedName FiredState ParseAlertExpr GetServiceSpec GetChaosSpec
      fmtWaitSpec order planName actions state = Return err.
Proof.
  intros Horder. unfold Validate.
  destruct (PrepareDependencyGraph IsQualifiedName actions) as [callIndex|err] eqn:Hpdg;
    [|eexists; reflexivity].
  unfold PrepareDependencyGraph in Hpdg.
  destruct (prepareLoop_ok IsQualifiedName _ _ _ Hpdg) as (Hwf & _ & _ & Hlookup).
  destruct (checkEntries_spec callIndex (order callIndex)) as (r & Hr & _).
  { intros n a Hin. apply Horder, Hlookup in Hin.
    destruct Hin as [Hin | [Hin _]]; [rewrite lookup_empty in Hin; discriminate|].
    apply (Hwf a Hin). }
  exists r. exact Hr.
Qed.

(** X10.  When the visit of the index meets exactly its entries,
    [Validate] returns the nil error exactly for the valid plans: no name
    occurs twice, and every action has a supported type with its
    specification set, a qualified name, dependencies that name actions
    of the plan, no assertion on a Delete and no assertion that does not
    parse, a template that resolves, and, for a Delete, jobs that name
    actions of the plan other than Deletes. *)
Theorem Validate_accepts_valid_plans (actions : list Action) :
  (forall m n a, In (n, a) (order m) <-> m !! n = Some a) ->
  (Validate IsQualifiedName FiredState ParseAlertExpr GetServiceSpec GetChaosSpec
     fmtWaitSpec order planName actions state = Return None <->
   validPlan IsQualifiedName FiredState ParseAlertExpr GetServiceSpec GetChaosSpec
     state actions).
Proof.
  intros Horder. unfold Validate, validPlan.
  destruct (PrepareDependencyGraph IsQualifiedName actions) as [callIndex|err] eqn:Hpdg.
  - unfold PrepareDependencyGraph in Hpdg.
    destruct (prepareLoop_ok IsQualifiedName _ _ _ Hpdg) as (Hwf & Hnodup & _ & Hlookup).
    assert (Hlk : forall n b, callIndex !! n = Some b <-> In b actions /\ Name b = n).
    { intros n b. rewrite Hlookup, lookup_empty. split; [|now right].
      intros [H | H]; [discriminate | exact H]. }
    assert (Hsup : forall n a, In (n, a) (order callIndex) -> isSupported a = true).
    { intros n a Hin. apply Horder, Hlk in Hin. destruct Hin as [Hin _].
      apply (Hwf a Hin). }
    destruct (checkEntries_spec callIndex (order callIndex) Hsup) as (r & -> & Hiff).
    assert (Hret : Return r = Return (None : option string) <-> r = None)
      by (split; congruence).
    rewrite Hret, Hiff. split.
    + intros Hall. split; [exact Hnodup|]. intros a Ha.
      assert (Hentry : In (Name a, a) (order callIndex)).
      { apply Horder, Hlk. split; [exact Ha | reflexivity]. }
      specialize (Hall _ _ Hentry).
      destruct (checkAction_spec callIndex (Name a) a (proj1 (Hwf a Ha)))
        as (r' & Hr' & Hcond).
      rewrite Hr' in Hall. injection Hall as ->.
      destruct (proj1 Hcond eq_refl) as (Hd & Has & Ht & Hj).
      split; [exact (Hwf a Ha)|].
      split; [now apply (index_dependencies actions callIndex a Hlk)|].
      split; [exact Has|]. split; [exact Ht|].
      now apply (index_jobs actions callIndex a Hlk (proj1 (Hwf a Ha))).
    + intros [_ Hvalid] n a Hin.
      apply Horder, Hlk in Hin. destruct Hin as [Hin _].
      destruct (Hvalid a Hin) as ([Hsupa _] & Hd & Has & Ht & Hj).
      destruct (checkAction_spec callIndex n a Hsupa) as (r' & Hr' & Hcond).
      rewrite Hr'. f_equal. apply Hcond.
      split; [now apply (index_dependencies actions callIndex a Hlk)|].
      split; [exact Has|]. split; [exact Ht|].
      now apply (index_jobs actions callIndex a Hlk Hsupa).
  - split; [discriminate|]. intros [Hnodup Hvalid].
    destruct (prepareLoop_complete IsQualifiedName actions ∅) as [callIndex Hok].
    + intros a Ha. apply (Hvalid a Ha).
    + exact Hnodup.
    + intros a _. apply lookup_empty.
    + unfold PrepareDependencyGraph in Hpdg. congruence.
Qed.

End PlanValidation.

(** ** What [ValidateDAG] accepts *)

Section AcceptedWorkflows.
Import v1alpha1 workflow.

Variable IsQualifiedName : string -> list string.
Variable FiredState :
  string -> lifecycle.ClassifierReader -> string * bool * option string.
Variable ParseAlertExpr : string -> option string.
Variable fmtWaitSpec : WaitSpec -> string.
Variable state : lifecycle.ClassifierReader.

Lemma indexLoop_ok (list : list Action) :
  forall index index' : gmap string Action,
    indexLoop IsQualifiedName list index = Ok index' ->
    (forall a, In a list -> IsQualifiedName (Name a) = []) /\
    (forall n, index' !! n <> None -> index !! n <> None \/ In n (map Name list)).
Proof.
  induction list as [|action rest IH]; intros index index' Hok; cbn [indexLoop] in Hok.
  - injection Hok as <-. split; [intros a [] | intros n H; now left].
  - destruct (IsQualifiedName (Name action)) eqn:Hname; [|discriminate].
    destruct (IH _ _ Hok) as [Hq Hlk]. split.
    + intros a [<- | Ha]; [exact Hname | now apply Hq].
    + intros n Hn. destruct (Hlk n Hn) as [Hins | Hin].
      * destruct (decide (Name action = n)) as [<- | Hne].
        -- right. now left.
        -- left. now rewrite lookup_insert_ne in Hins.
      * right. now right.
Qed.

Lemma validateLoop_none (index : gmap string Action) (list : list Action) :
  validateLoop FiredState ParseAlertExpr fmtWaitSpec index state list = Return None ->
  forall a, In a list ->
    checkDependsOn fmtWaitSpec index a = None /\
    checkAssert FiredState ParseAlertExpr state a = Return None /\
    checkDelete index a = Return None.
Proof.
  induction list as [|action rest IH]; intros Hnone a Ha; [destruct Ha|].
  cbn [validateLoop] in Hnone.
  destruct (checkDependsOn fmtWaitSpec index action) as [err|] eqn:Hd; [discriminate|].
  destruct (checkAssert FiredState ParseAlertExpr state action) as [[err|]|msg] eqn:Has;
    try discriminate.
  destruct (checkDelete index action) as [[err|]|msg] eqn:Hdel; try discriminate.
  destruct Ha as [<- | Ha]; [repeat split; assumption | now apply IH].
Qed.

Lemma checkJobs_defined (index : gmap string Action) (a : Action) (jobs : list string) :
  checkJobs index a jobs = None -> forall job, In job jobs -> index !! job <> None.
Proof.
  induction jobs as [|job rest IH]; intros Hnone j Hj; [destruct Hj|].
  cbn [checkJobs] in Hnone.
  destruct (index !! job) as [target|] eqn:Hlookup; [|discriminate].
  destruct (String.eqb (ActionType_ target) "Delete"); [discriminate|].
  destruct Hj as [<- | Hj]; [congruence | now apply IH].
Qed.

(** X11.  A list of actions for which [ValidateDAG] returns the nil error
    has only qualified names; every name an action depends on, and every
    job of an action of type Delete, is the name of an action of the
    list; and no action that carries a Delete specification has an
    assertion. *)
Theorem ValidateDAG_accepted (list : list Action) :
  ValidateDAG IsQualifiedName FiredState ParseAlertExpr fmtWaitSpec list state
    = Return None ->
  forall a, In a list ->
    IsQualifiedName (Name a) = [] /\
    testplan.dependenciesDefined list a /\
    (ActionType_ a = "Delete" ->
     exists emb d, EmbedActions_ a = Some emb /\ Delete emb = Some d /\
                   forall job, In job (Jobs d) -> testplan.defined list job) /\
    (ConditionalExpr_IsZero (Assert a) = false ->
     exists emb, EmbedActions_ a = Some emb /\ Delete emb = None).
Proof.
  unfold ValidateDAG. intros Hnone a Ha.
  destruct (indexLoop IsQualifiedName list ∅) as [index|err] eqn:Hidx; [|discriminate].
  destruct (indexLoop_ok _ _ _ Hidx) as [Hq Hlk].
  assert (Hdef : forall n, index !! n <> None -> testplan.defined list n).
  { intros n Hn. destruct (Hlk n Hn) as [H | H]; [rewrite lookup_empty in H; congruence|].
    apply in_map_iff in H. destruct H as (b & Hb & Hin). exists b. split; assumption. }
  destruct (validateLoop_none index list Hnone a Ha) as (Hd & Has & Hdel).
  split; [now apply Hq|]. split; [|split].
  - intros deps Hdeps dep Hin. apply Hdef.
    unfold checkDependsOn in Hd. rewrite Hdeps in Hd.
    destruct (negb (successOK index deps)) eqn:Hs; [discriminate|].
    destruct (negb (runningOK index deps)) eqn:Hr; [discriminate|].
    apply negb_false_iff in Hs, Hr. unfold successOK, runningOK in Hs, Hr.
    rewrite forallb_forall in Hs, Hr.
    destruct Hin as [Hin | Hin]; [specialize (Hs dep Hin) | specialize (Hr dep Hin)];
      now apply bool_decide_eq_true in Hs || apply bool_decide_eq_true in Hr.
  - intros Ht. unfold checkDelete, getDelete in Hdel. rewrite Ht in Hdel. cbn in Hdel.
    destruct (EmbedActions_ a) as [emb|] eqn:Hemb; [|discriminate].
    destruct (Delete emb) as [d|] eqn:Hdelete; [|discriminate].
    exists emb, d. split; [reflexivity|]. split; [exact Hdelete|].
    intros job Hjob. apply Hdef. injection Hdel as Hdel.
    now apply (checkJobs_defined index a (Jobs d)).
  - intros Hzero. unfold checkAssert, getDelete in Has. rewrite Hzero in Has. cbn [negb] in Has.
    destruct (EmbedActions_ a) as [emb|] eqn:Hemb; [|discriminate].
    destruct (Delete emb) as [d|] eqn:Hdelete; [discriminate|].
    exists emb. split; [reflexivity | exact Hdelete].
Qed.

End AcceptedWorkflows.

(** ** More on the lifecycle of Stop jobs *)

Section StopLifecycle.
Import v1alpha1 lifecycle stop.

Variable FiredAlert : Stop -> string * bool.
Variable FiredState : string -> ClassifierReader -> string * bool * option string.


(** X12.  Through the table of tests a Stop job becomes Success exactly
    when the number of successful jobs equals the number of its services:
    for every input that reaches the table, the call returns a status of
    phase Success if and only if the two numbers are equal. *)
Theorem stop_success_iff_all_successful (cr : Stop) (gs : ClassifierReader) :
  reachesTable cr ->
  ((exists status',
      calculateLifecycle FiredAlert FiredState cr gs = Return (status', cr) /\
      Phase_ (Lifecycle_ status') = PhaseSuccess) <->
   NumSuccessfulJobs gs = Z.of_nat (length (Services (Spec cr)))).
Proof.
  intros Hreach.
  rewrite (calculateLifecycle_table FiredAlert FiredState cr gs Hreach).
  destruct Hreach as [_ Hphase].
  unfold autotests. cbn [firstMatch expression lifecycle condition].
  destruct (NumSuccessfulJobs gs =? _) eqn:Hsucc.
  - apply Z.eqb_eq in Hsucc. split; [intros _; exact Hsucc|]. intros _.
    eexists. split; [reflexivity|]. reflexivity.
  - apply Z.eqb_neq in Hsucc. split; [|contradiction].
    intros (status' & Heq & Hs). exfalso.
    destruct Hphase as [Hp | Hp]; rewrite Hp in Heq; cbn [Phase_eqb andb] in Heq.
    + destruct (NumRunningJobs gs + NumSuccessfulJobs gs =? _);
        injection Heq as <-; discriminate Hs.
    + destruct (0 <? NumFailedJobs gs).
      * injection Heq as <-. cbn in Hs. congruence.
      * destruct (NumRunningJobs gs + NumSuccessfulJobs gs =? _);
          [injection Heq as <-; discriminate Hs | discriminate Heq].
Qed.

(** X13.  The table of tests never sets a Running Stop job back to
    Pending: for every input that reaches it in phase Running, a status
    that is returned has phase Running or Success. *)
Theorem stop_table_keeps_running (cr : Stop) (gs : ClassifierReader)
  (status' : StopStatus) (cr' : Stop) :
  Until (Spec cr) = None ->
  Phase_ (Lifecycle_ (Status cr)) = PhaseRunning ->
  calculateLifecycle FiredAlert FiredState cr gs = Return (status', cr') ->
  Phase_ (Lifecycle_ status') = PhaseRunning \/ Phase_ (Lifecycle_ status') = PhaseSuccess.
Proof.
  intros Huntil Hp.
  rewrite (calculateLifecycle_table FiredAlert FiredState cr gs
             (conj Huntil (or_intror Hp))).
  unfold autotests. cbn [firstMatch expression lifecycle condition].
  rewrite Hp. cbn [Phase_eqb andb].
  destruct (NumSuccessfulJobs gs =? _); [intros H; injection H as <- <-; now right|].
  destruct (0 <? NumFailedJobs gs).
  { intros H. injection H as <- <-. left. cbn. exact Hp. }
  destruct (NumRunningJobs gs + NumSuccessfulJobs gs =? _);
    [intros H; injection H as <- <-; now left | discriminate].
Qed.


End StopLifecycle.

(** ** More on the lifecycle of Call jobs *)

Section CallLifecycle.
Import v1alpha1 lifecycle call.

Variable GroupedJobs :
  Z -> ClassifierReader -> Lifecycle -> option TolerateSpec -> bool * Lifecycle.
Variable IsTrue : option ConditionalExpr -> ClassifierReader -> Call -> bool * string.


End CallLifecycle.

(** ** The DNS service of a service pod *)

Section DiscoveryService.
Import discovery.

Variable PropagateLabels : Service -> gmap string string.
Variable LabelCreatedBy : string.

Lemma portsLoop_ok (ci : nat) (ports : list ContainerPort) :
  forall pi allPorts r,
    portsLoop ci pi ports allPorts = Ok r ->
    r = (allPorts ++ map toServicePort ports)%list /\
    forall p, In p ports -> ContainerPort_ p <> 0.
Proof.
  induction ports as [|port rest IH]; intros pi allPorts r H; cbn [portsLoop] in H.
  - injection H as <-. split; [now rewrite app_nil_r | intros p []].
  - destruct (ContainerPort_ port =? 0) eqn:Hz; [discriminate|]. apply Z.eqb_neq in Hz.
    destruct (IH _ _ _ H) as [-> Hnz]. split.
    + cbn [map]. now rewrite <- app_assoc.
    + intros p [<- | Hp]; [exact Hz | now apply Hnz].
Qed.

Lemma portsLoop_error (ci : nat) (ports : list ContainerPort) :
  forall pi allPorts err,
    portsLoop ci pi ports allPorts = Error err ->
    exists j p, err = portIsZero ci (pi + j) /\ ports !! j = Some p /\ ContainerPort_ p = 0.
Proof.
  induction ports as [|port rest IH]; intros pi allPorts err H; cbn [portsLoop] in H;
    [discriminate|].
  destruct (ContainerPort_ port =? 0) eqn:Hz.
  - injection H as <-. exists 0%nat, port. apply Z.eqb_eq in Hz.
    rewrite Nat.add_0_r. repeat split; assumption.
  - destruct (IH _ _ _ H) as (j & p & -> & Hj & Hp). exists (S j), p.
    replace (pi + S j)%nat with (S pi + j)%nat by lia. repeat split; assumption.
Qed.

Lemma containersLoop_ok (containers : list Container) :
  forall ci allPorts r,
    containersLoop ci containers allPorts = Ok r ->
    r = (allPorts ++ map toServicePort (flat_map Ports containers))%list /\
    forall p, In p (flat_map Ports containers) -> ContainerPort_ p <> 0.
Proof.
  induction containers as [|c rest IH]; intros ci allPorts r H; cbn [containersLoop] in H.
  - injection H as <-. split; [now rewrite app_nil_r | intros p []].
  - destruct (portsLoop ci 0 (Ports c) allPorts) as [ports'|err] eqn:Hports; [|discriminate].
    destruct (portsLoop_ok _ _ _ _ _ Hports) as [-> Hnz].
    destruct (IH _ _ _ H) as [-> Hnz']. cbn [flat_map]. split.
    + now rewrite map_app, app_assoc.
    + intros p Hp. apply in_app_or in Hp. destruct Hp; [now apply Hnz | now apply Hnz'].
Qed.

Lemma containersLoop_error (containers : list Container) :
  forall ci allPorts err,
    containersLoop ci containers allPorts = Error err ->
    exists i j c p,
      err = portIsZero (ci + i) j /\ containers !! i = Some c /\
      Ports c !! j = Some p /\ ContainerPort_ p = 0.
Proof.
  induction containers as [|c rest IH]; intros ci allPorts err H;
    cbn [containersLoop] in H; [discriminate|].
  destruct (portsLoop ci 0 (Ports c) allPorts) as [ports'|err'] eqn:Hports.
  - destruct (IH _ _ _ H) as (i & j & c' & p & -> & Hi & Hj & Hp).
    exists (S i), j, c', p. replace (ci + S i)%nat with (S ci + i)%nat by lia.
    repeat split; assumption.
  - injection H as <-. destruct (portsLoop_error _ _ _ _ _ Hports) as (j & p & -> & Hj & Hp).
    exists 0%nat, j, c, p. rewrite Nat.add_0_r. repeat split; assumption.
Qed.

(** X16.  [constructDiscoveryService] fails exactly when some container
    port of the service is 0, and the error names the indices of a port
    that is.  Otherwise the DNS service bears the name of the service, has
    one port per container port, in order, with the same name and number,
    has the cluster IP [None] exactly when there is no port at all, and
    selects the pods created by the service. *)
Theorem constructDiscoveryService_ports (service : Service) :
  ((exists err, constructDiscoveryService PropagateLabels LabelCreatedBy service
                = Error err) <->
   exists p, In p (allContainerPorts service) /\ ContainerPort_ p = 0) /\
  (forall err,
     constructDiscoveryService PropagateLabels LabelCreatedBy service = Error err ->
     exists i j c p,
       err = portIsZero i j /\ Containers service !! i = Some c /\
       Ports c !! j = Some p /\ ContainerPort_ p = 0) /\
  (forall kube,
     constructDiscoveryService PropagateLabels LabelCreatedBy service = Ok kube ->
     Kube_Name kube = GetName service /\
     Kube_Ports kube = map toServicePort (allContainerPorts service) /\
     ClusterIP kube = (if decide (allContainerPorts service = []) then "None" else "") /\
     Selector kube !! LabelCreatedBy = Some (GetName service)).
Proof.
  unfold constructDiscoveryService, allContainerPorts.
  destruct (containersLoop 0 (Containers service) []) as [allPorts|err] eqn:Hloop.
  - destruct (containersLoop_ok _ _ _ _ Hloop) as [Heq Hnz]. cbn [app] in Heq.
    split; [split|split].
    + intros [err H]. discriminate H.
    + intros (p & Hp & Hz). elim (Hnz p Hp Hz).
    + intros err H. discriminate H.
    + intros kube H. injection H as <-. cbn. subst allPorts.
      split; [reflexivity|]. split; [reflexivity|]. split; [|apply lookup_singleton_eq].
      destruct (flat_map Ports (Containers service)); reflexivity.
  - destruct (containersLoop_error _ _ _ _ Hloop) as (i & j & c & p & Herr & Hi & Hj & Hp).
    split; [split|split].
    + intros _. exists p. split; [|exact Hp].
      apply in_flat_map. exists c. split.
      * apply list_elem_of_In. now apply list_elem_of_lookup_2 with i.
      * apply list_elem_of_In. now apply list_elem_of_lookup_2 with j.
    + intros _. eexists. reflexivity.
    + intros err' H. injection H as <-. exists i, j, c, p. repeat split; assumption.
    + intros kube H. discriminate H.
Qed.

End DiscoveryService.

(** ** Telemetry agents, whatever their monitors look like *)

Section TelemetryImport.
Import service.

Variable Quantity : Type.
Variable GetServiceSpec : Service Quantity -> string -> Result (ServiceSpec Quantity).

Lemma imported_prefix (resolve : string -> ServiceSpec Quantity) (req : list string) :
  exists dropped, req = (imported resolve req ++ dropped)%list /\
    (dropped = [] <->
     forall monRef, In monRef req -> exists c, Containers (resolve monRef) = [c]).
Proof.
  induction req as [|monRef rest IH]; cbn [imported].
  - exists []. split; [reflexivity|]. split; [intros _ m [] | reflexivity].
  - destruct (Containers (resolve monRef)) as [|c [|c' cs]] eqn:Hc.
    + exists (monRef :: rest). split; [reflexivity|]. split; [discriminate|].
      intros H. destruct (H monRef (or_introl eq_refl)) as [c Hc']. congruence.
    + destruct IH as (dropped & Heq & Hall). exists dropped. split.
      * cbn [app]. now f_equal.
      * rewrite Hall. split.
        -- intros H m [<- | Hm]; [now exists c | now apply H].
        -- intros H m Hm. apply H. now right.
    + exists (monRef :: rest). split; [reflexivity|]. split; [discriminate|].
      intros H. destruct (H monRef (or_introl eq_refl)) as [c0 Hc']. congruence.
Qed.

(** X17.  When the references of the telemetry agents resolve, the import
    loop of [decoratePod] never returns an error, also when a monitor has
    no container or several: it stops there without a word.  The service
    gets the container of every agent before the first such monitor, in
    order, and none of the later ones; every agent is imported exactly
    when every monitor has one container. *)
Theorem importAgents_stops_silently (resolve : string -> ServiceSpec Quantity)
    (Hresolve : forall cr monRef, GetServiceSpec cr monRef = Ok (resolve monRef))
    (req : list string) (cr : Service Quantity) :
  fst (importAgents Quantity GetServiceSpec cr req) = None /\
  Containers (Spec (snd (importAgents Quantity GetServiceSpec cr req))) =
    (Containers (Spec cr) ++
     flat_map (fun monRef => Containers (resolve monRef)) (imported resolve req))%list /\
  exists dropped,
    req = (imported resolve req ++ dropped)%list /\
    (dropped = [] <->
     forall monRef, In monRef req -> exists c, Containers (resolve monRef) = [c]).
Proof.
  split; [|split; [|apply imported_prefix]]; revert cr;
    induction req as [|monRef rest IH]; intros cr; cbn [importAgents imported flat_map].
  - reflexivity.
  - rewrite Hresolve. destruct (Containers (resolve monRef)) as [|c [|c' cs]];
      [reflexivity | apply IH | reflexivity].
  - now rewrite app_nil_r.
  - rewrite Hresolve. destruct (Containers (resolve monRef)) as [|c [|c' cs]] eqn:Hc;
      cbn [flat_map snd]; try now rewrite app_nil_r.
    rewrite IH. cbn [Spec Containers setSpec]. rewrite Hc. now rewrite <- app_assoc.
Qed.

End TelemetryImport.

(** ** Agents of a service job *)

Section ServiceAgents.
Import jobs.

Variable Container Volume GenericSpec : Type.
Variable GetDefaultSpec : string -> string -> Result GenericSpec.
Variable ToMonitorSpec : GenericSpec -> Result (MonitorSpec Container Volume).

Lemma agentsLoop_ok (obj : Service) (gen : string -> GenericSpec)
    (mon : string -> MonitorSpec Container Volume) (refs : list string) :
  (forall ref, In ref refs ->
     GetDefaultSpec (GetNamespace obj) ref = Ok (gen ref) /\
     ToMonitorSpec (gen ref) = Ok (mon ref)) ->
  forall pod,
    agentsLoop Container Volume GenericSpec GetDefaultSpec ToMonitorSpec obj refs pod =
    (None,
     {| Pod_Name := Pod_Name pod;
        Pod_Labels := Pod_Labels pod;
        Pod_Volumes :=
          Pod_Volumes pod ++ flat_map (fun ref => Agent_Volumes (Agent_ (mon ref))) refs;
        Pod_Containers :=
          Pod_Containers pod ++ map (fun ref => Agent_Container (Agent_ (mon ref))) refs |}).
Proof.
  induction refs as [|ref rest IH]; intros Hres pod; cbn [agentsLoop flat_map map].
  - rewrite !app_nil_r. now destruct pod.
  - destruct (Hres ref (or_introl eq_refl)) as [-> ->].
    rewrite IH by (intros r Hr; apply Hres; now right).
    cbn [Pod_Name Pod_Labels Pod_Volumes Pod_Containers]. now rewrite <- !app_assoc.
Qed.

Lemma agentsLoop_error (obj : Service) (refs : list string) :
  forall pod err pod',
    agentsLoop Container Volume GenericSpec GetDefaultSpec ToMonitorSpec obj refs pod =
      (Some err, pod') ->
    exists ref cause,
      In ref refs /\ err = "cannot get monitor: " ++ cause /\
      (GetDefaultSpec (GetNamespace obj) ref = Error cause \/
       exists genSpec, GetDefaultSpec (GetNamespace obj) ref = Ok genSpec /\
                       ToMonitorSpec genSpec = Error cause).
Proof.
  induction refs as [|ref rest IH]; intros pod err pod' H; cbn [agentsLoop] in H;
    [discriminate|].
  destruct (GetDefaultSpec (GetNamespace obj) ref) as [genSpec|cause] eqn:Hget.
  - destruct (ToMonitorSpec genSpec) as [m|cause] eqn:Hmon.
    + destruct (IH _ _ _ H) as (r & cause & Hr & Herr & Hwhy).
      exists r, cause. split; [now right|]. split; assumption.
    + injection H as <- _. exists ref, cause. split; [now left|]. split; [reflexivity|].
      right. exists genSpec. split; assumption.
  - injection H as <- _. exists ref, cause. split; [now left|]. split; [reflexivity|].
    now left.
Qed.

(** X18.  [setAgents] of the service controller adds, for each agent of
    the service in turn, the volumes of the agent's monitor once and its
    container once, after what the pod already has, when every agent
    resolves to a monitor; a service without agents leaves the pod as it
    is; and an error it returns is that of an agent of the service that
    does not resolve, under [cannot get monitor]. *)
Theorem setAgents_appends_each_agent_once (obj : Service) (pod : Pod Container Volume) :
  (Agents obj = None ->
   setAgents Container Volume GenericSpec GetDefaultSpec ToMonitorSpec obj pod
   = (None, pod)) /\
  (forall (gen : string -> GenericSpec) (mon : string -> MonitorSpec Container Volume)
          (refs : list string),
     Agents obj = Some refs ->
     (forall ref, In ref refs ->
        GetDefaultSpec (GetNamespace obj) ref = Ok (gen ref) /\
        ToMonitorSpec (gen ref) = Ok (mon ref)) ->
     setAgents Container Volume GenericSpec GetDefaultSpec ToMonitorSpec obj pod =
     (None,
      {| Pod_Name := Pod_Name pod;
         Pod_Labels := Pod_Labels pod;
         Pod_Volumes :=
           Pod_Volumes pod ++ flat_map (fun ref => Agent_Volumes (Agent_ (mon ref))) refs;
         Pod_Containers :=
           Pod_Containers pod
           ++ map (fun ref => Agent_Container (Agent_ (mon ref))) refs |})) /\
  (forall err pod',
     setAgents Container Volume GenericSpec GetDefaultSpec ToMonitorSpec obj pod
     = (Some err, pod') ->
     exists refs ref cause,
       Agents obj = Some refs /\ In ref refs /\ err = "cannot get monitor: " ++ cause /\
       (GetDefaultSpec (GetNamespace obj) ref = Error cause \/
        exists genSpec, GetDefaultSpec (GetNamespace obj) ref = Ok genSpec /\
                        ToMonitorSpec genSpec = Error cause)).
Proof.
  unfold setAgents. split; [|split].
  - intros ->. reflexivity.
  - intros gen mon refs -> Hres. now apply agentsLoop_ok with gen.
  - intros err pod' H. destruct (Agents obj) as [refs|]; [|discriminate].
    destruct (agentsLoop_error _ _ _ _ _ H) as (ref & cause & Hin & Herr & Hwhy).
    exists refs, ref, cause. repeat split; assumption.
Qed.

End ServiceAgents.

(** ** The telemetry stack *)

Section TelemetryLifecycle.
Import v1alpha1 lifecycle telemetry.

(** X19.  The reducer of the telemetry controller leaves an object in
    phase Uninitialized, Success or Failed as it is.  Otherwise one failed
    job makes the telemetry Failed with reason [JobHasFailed], whatever
    else holds; the reducer never moves a live object to Success; and it
    panics exactly when the object is Running with no failed job and the
    number of running jobs is not 2. *)
Theorem telemetry_calculateLifecycle_outcomes (cycle : Lifecycle) (gs : ClassifierReader) :
  (terminal (Phase_ cycle) \/ Phase_ cycle = PhaseUninitialized ->
   calculateLifecycle cycle gs = Return cycle) /\
  (Phase_ cycle = PhasePending \/ Phase_ cycle = PhaseRunning ->
   (0 < NumFailedJobs gs ->
    calculateLifecycle cycle gs =
      Return (mkLifecycle PhaseFailed "JobHasFailed"
                ("failed jobs: " ++ fmtList (FailedList gs)))) /\
   (forall cycle', calculateLifecycle cycle gs = Return cycle' ->
                   Phase_ cycle' <> PhaseSuccess) /\
   ((exists msg, calculateLifecycle cycle gs = Panic msg) <->
    Phase_ cycle = PhaseRunning /\ NumFailedJobs gs <= 0 /\ NumRunningJobs gs <> 2)).
Proof.
  unfold calculateLifecycle, autotests. cbn [length telemetryServices Z.of_nat].
  split.
  - intros [[H | H] | H]; rewrite H; reflexivity.
  - intros Hlive.
    assert (Hgo : Phase_Is (Phase_ cycle) [PhaseUninitialized; PhaseSuccess; PhaseFailed]
                  = false) by (destruct Hlive as [-> | ->]; reflexivity).
    rewrite Hgo. cbn [firstMatch expression telemetry.lifecycle].
    change (Z.of_nat 2) with 2.
    destruct (0 <? NumFailedJobs gs) eqn:Hfailed;
      [apply Z.ltb_lt in Hfailed | apply Z.ltb_ge in Hfailed].
    { split; [reflexivity|]. split.
      - intros c' H. injection H as <-. discriminate.
      - split; [intros [msg H]; discriminate H | lia]. }
    split; [lia|].
    destruct (NumRunningJobs gs =? 2) eqn:Hrunning;
      [apply Z.eqb_eq in Hrunning | apply Z.eqb_neq in Hrunning].
    { split.
      - intros c' H. injection H as <-. discriminate.
      - split; [intros [msg H]; discriminate H | intros (_ & _ & H); contradiction]. }
    destruct Hlive as [Hp | Hp]; rewrite Hp; cbn [Phase_eqb].
    + split.
      * intros c' H. injection H as <-. discriminate.
      * split; [intros [msg H]; discriminate H | intros (H & _); discriminate H].
    + split; [intros c' H; discriminate H|].
      split; [intros _; repeat split; assumption | intros _; eexists; reflexivity].
Qed.

End TelemetryLifecycle.

(** ** Failed containers of a pod *)

Section FailedContainers.
Import v1alpha1 accessor.

Lemma containerLifecycle_failed (container : ContainerStatus) :
  (exists l, In l (containerLifecycle container) /\ Phase_ l = PhaseFailed) <->
  Waiting (State container) = None /\ Running (State container) = None /\
  exists state, Terminated (State container) = Some state /\ ExitCode state <> 0.
Proof.
  unfold containerLifecycle.
  destruct (Waiting (State container)) as [w|], (Running (State container)) as [r|],
    (Terminated (State container)) as [state|];
    try (split; [intros (l & [<- | []] & Hl); discriminate Hl
                | intros (Hw & Hr & _); discriminate]).
  - destruct (ExitCode state =? 0) eqn:Hz;
      [apply Z.eqb_eq in Hz | apply Z.eqb_neq in Hz].
    + split; [intros (l & [<- | []] & Hl); discriminate Hl|].
      intros (_ & _ & s & Hs & Hne). injection Hs as <-. contradiction.
    + split.
      * intros _. split; [reflexivity|]. split; [reflexivity|]. now exists state.
      * intros _. eexists. split; [left; reflexivity | reflexivity].
  - split; [intros (l & [] & _) | intros (_ & _ & s & Hs & _); discriminate Hs].
Qed.

(** X20.  The adapter reports a failed container for a pod exactly when
    some container whose name has no ['-'] is neither waiting nor running
    and has terminated with a non-zero exit code: a waiting or running
    state hides a termination, and the sidecars never fail a pod. *)
Theorem Containers_failed_iff (pod : Pod) :
  (exists l, In l (Containers pod) /\ Phase_ l = PhaseFailed) <->
  exists container,
    In container (ContainerStatuses pod) /\
    ~ In "-"%char (list_ascii_of_string (Container_Name container)) /\
    Waiting (State container) = None /\ Running (State container) = None /\
    exists state, Terminated (State container) = Some state /\ ExitCode state <> 0.
Proof.
  unfold Containers. rewrite containersLoop_filter. cbn [app]. split.
  - intros (l & Hl & Hfailed). apply in_flat_map in Hl. destruct Hl as (c & Hc & Hl).
    apply filter_In in Hc. destruct Hc as [Hc Hkeep]. exists c. split; [exact Hc|]. split.
    + rewrite <- Contains_dash. unfold skipped in Hkeep.
      destruct (Contains (Container_Name c) "-"); [discriminate Hkeep | discriminate].
    + apply containerLifecycle_failed. now exists l.
  - intros (c & Hc & Hdash & Hstate).
    apply containerLifecycle_failed in Hstate. destruct Hstate as (l & Hl & Hfailed).
    exists l. split; [|exact Hfailed]. apply in_flat_map. exists c. split; [|exact Hl].
    apply filter_In. split; [exact Hc|]. unfold skipped.
    rewrite <- Contains_dash in Hdash.
    destruct (Contains (Container_Name c) "-"); [now elim Hdash | reflexivity].
Qed.

End FailedContainers.

(** ** The DNS service of a service job *)

Section JobDiscoveryService.
Import jobs.

Variable Volume : Type.
Variable SetOwner : Service -> Outcome unit.

Lemma jobs_portsLoop_spec (ports : list discovery.ContainerPort) :
  forall allPorts,
    (Exists (fun p => discovery.ContainerPort_ p = 0) ports /\
     portsLoop ports allPorts = Panic "invalid port") \/
    (Forall (fun p => discovery.ContainerPort_ p <> 0) ports /\
     portsLoop ports allPorts
     = Return (allPorts ++ map discovery.toServicePort ports)%list).
Proof.
  induction ports as [|port rest IH]; intros allPorts; cbn [portsLoop map].
  - right. split; [constructor | now rewrite app_nil_r].
  - destruct (discovery.ContainerPort_ port =? 0) eqn:Hz;
      [apply Z.eqb_eq in Hz | apply Z.eqb_neq in Hz].
    + left. split; [now constructor | reflexivity].
    + destruct (IH (allPorts ++ [discovery.toServicePort port])%list)
        as [[Hex ->] | [Hall ->]].
      * left. split; [now apply Exists_cons_tl | reflexivity].
      * right. split; [now constructor | now rewrite <- app_assoc].
Qed.

Lemma jobs_containersLoop_spec (containers : list discovery.Container) :
  forall allPorts,
    (Exists (fun p => discovery.ContainerPort_ p = 0)
       (flat_map discovery.Ports containers) /\
     containersLoop containers allPorts = Panic "invalid port") \/
    (Forall (fun p => discovery.ContainerPort_ p <> 0)
       (flat_map discovery.Ports containers) /\
     containersLoop containers allPorts
     = Return (allPorts
               ++ map discovery.toServicePort (flat_map discovery.Ports containers))%list).
Proof.
  induction containers as [|c rest IH]; intros allPorts;
    cbn [containersLoop flat_map map].
  - right. split; [constructor | now rewrite app_nil_r].
  - destruct (jobs_portsLoop_spec (discovery.Ports c) allPorts) as [[Hex ->] | [Hall ->]].
    + left. split; [|reflexivity]. apply Exists_app. now left.
    + destruct (IH (allPorts ++ map discovery.toServicePort (discovery.Ports c))%list)
        as [[Hex ->] | [Hall' ->]].
      * left. split; [|reflexivity]. apply Exists_app. now right.
      * right. split; [apply Forall_app; now split|].
        now rewrite map_app, app_assoc.
Qed.

(** X21.  [constructDiscoveryService] of the service controller panics
    with [invalid port] as soon as a container port of the pod is 0,
    before the owner is set.  When it returns, the service has one port
    per container port of the pod, in order, and the cluster IP [None]
    exactly when there is none; every label of its selector is a label of
    the pod as the call leaves it, so the service finds its pod; and the
    other labels, the volumes and the containers of the pod are kept. *)
Theorem constructDiscoveryService_selects_its_pod (obj : Service)
    (pod : Pod discovery.Container Volume) :
  ((exists p, In p (allPodPorts pod) /\ discovery.ContainerPort_ p = 0) ->
   constructDiscoveryService Volume SetOwner obj pod = Panic "invalid port") /\
  (forall kube pod',
     constructDiscoveryService Volume SetOwner obj pod = Return (kube, pod') ->
     Kube_Name kube = Pod_Name pod /\
     Kube_Ports kube = map discovery.toServicePort (allPodPorts pod) /\
     ClusterIP kube = (if decide (allPodPorts pod = []) then "None" else "") /\
     (forall key value, Selector kube !! key = Some value ->
                        Pod_Labels pod' !! key = Some value) /\
     (forall key, key <> Pod_Name pod -> Pod_Labels pod' !! key = Pod_Labels pod !! key) /\
     Pod_Volumes pod' = Pod_Volumes pod /\ Pod_Containers pod' = Pod_Containers pod).
Proof.
  unfold constructDiscoveryService, allPodPorts.
  destruct (jobs_containersLoop_spec (Pod_Containers pod) []) as [[Hex ->] | [Hall ->]].
  - split; [reflexivity | intros kube pod' H; discriminate H].
  - cbn [app]. split.
    + intros (p & Hp & Hz). rewrite List.Forall_forall in Hall.
      elim (Hall p Hp Hz).
    + intros kube pod' H. destruct (SetOwner obj) as [[]|msg]; [|discriminate H].
      injection H as <- <-. cbn.
      split; [reflexivity|]. split; [reflexivity|]. split.
      { destruct (flat_map discovery.Ports (Pod_Containers pod)); reflexivity. }
      split.
      { intros key value Hsel. apply lookup_union_Some_raw. now left. }
      split; [|split; reflexivity].
      intros key Hkey. apply option_eq. intros value.
      rewrite lookup_union_Some_raw, lookup_singleton_Some, lookup_singleton_None.
      split.
      * intros [[Heq _] | [_ H]]; [congruence | exact H].
      * intros H. right. split; [congruence | exact H].
Qed.

End JobDiscoveryService.

(** * The further properties at concrete inputs *)

(** X2 at two actions that wait until 30 and 20, read at 10: the
    scheduler asks to be woken at 20. *)
Lemma GetNextLogicalJob_wakes_at_earliest_deadline_witness :
  let all := [scenario.waitFor "a" 30; scenario.waitFor "b" 20] in
  let wake := snd (scenario.GetNextLogicalJob 0 scenario.emptyView ∅ (fun _ => 10) all) in
  let waiting := scenario.blockedDeadlines 0 scenario.emptyView ∅ 10 all in
  (forall k : nat, (fun _ : nat => 10) k = 10) /\ 0 < 10 /\
  In wake waiting /\ (forall d, In d waiting -> wake <= d) /\ 10 <= wake.
Proof.
  split; [reflexivity|]. split; [reflexivity|].
  apply (proj2 (GetNextLogicalJob_wakes_at_earliest_deadline 0 scenario.emptyView ∅
                  (fun _ => 10) 10 [scenario.waitFor "a" 30; scenario.waitFor "b" 20]
                  (fun _ => eq_refl) eq_refl)).
  intros H. vm_compute in H. discriminate H.
Defined.

(** X3 at an action that waits until 30, read at 10 and at 40. *)
Lemma GetNextLogicalJob_monotone_in_time_witness :
  (forall k : nat, (fun _ : nat => 10) k = 10) /\
  (forall k : nat, (fun _ : nat => 40) k = 40) /\ 10 <= 40 /\
  sublist
    (fst (scenario.GetNextLogicalJob 0 scenario.emptyView ∅ (fun _ => 10)
            [scenario.waitFor "a" 30]))
    (fst (scenario.GetNextLogicalJob 0 scenario.emptyView ∅ (fun _ => 40)
            [scenario.waitFor "a" 30])).
Proof.
  split; [reflexivity|]. split; [reflexivity|].
  assert (H : 10 <= 40) by (intros H; discriminate H).
  split; [exact H|].
  exact (GetNextLogicalJob_monotone_in_time 0 scenario.emptyView ∅ (fun _ => 10)
           (fun _ => 40) 10 40 [scenario.waitFor "a" 30]
           (fun _ => eq_refl) (fun _ => eq_refl) H).
Defined.



(** X6 at the same schedule with a starting deadline of ten seconds and a
    clock that stands at 100. *)
Lemma timeBasedWithDeadline_not_late_witness :
  scheduler.movesForward (scheduler.every 1) /\
  scheduler.timeBasedWithDeadline (scheduler.parseEvery 1) id scheduler.failWith 100
    (fun _ => 100) 0 (scheduler.cronOnly "tick" (Some 10)) None =
  scheduler.timeBasedWithDeadline (scheduler.parseEvery 1) id
    (fun _ => (scheduler.noRequeue, None)) 100
    (fun _ => 100) 0 (scheduler.cronOnly "tick" (Some 10)) None.
Proof.
  assert (Hfwd : scheduler.movesForward (scheduler.every 1))
    by (intros t; unfold scheduler.every; lia).
  split; [exact Hfwd|].
  refine (proj1 (timeBasedWithDeadline_not_late (scheduler.parseEvery 1) id
                   scheduler.failWith (fun _ => (scheduler.noRequeue, None)) 100
                   (fun _ => 100) 0 (scheduler.cronOnly "tick" (Some 10)) None
                   "tick" (scheduler.every 1) Hfwd eq_refl eq_refl _ eq_refl)).
  intros secs H. injection H as <-. split; reflexivity.
Defined.

(** X7 at a cron expression that does not parse. *)
Lemma Schedule_swallows_cron_errors_witness :
  scheduler.Schedule_ scheduler.parseNothing id scheduler.neverTrue scheduler.failWith 100
    (fun _ => 100) 0 (Some (scheduler.cronOnly "every day" None)) None scenario.emptyView
  = Some (false, scheduler.noRequeue, None).
Proof.
  exact (proj1 (Schedule_swallows_cron_errors scheduler.parseNothing id scheduler.neverTrue
                  scheduler.failWith (fun _ => 100) 0
                  (scheduler.cronOnly "every day" None) None scenario.emptyView
                  "every day" eq_refl eq_refl)
           "bad expression" eq_refl).
Defined.

(** X9 with the index visited in the order of [map_to_list]. *)
Lemma Validate_never_panics_witness :
  (forall (m : gmap string v1alpha1.Action) n a,
      In (n, a) (map_to_list m) -> m !! n = Some a) /\
  exists err,
    testplan.Validate testplan.anyName workflow.parsesState workflow.parsesAlert
      testplan.templateFound testplan.templateFound workflow.noFormat map_to_list "plan"
      [testplan.serviceAction "a"; testplan.serviceAction "b"] scenario.emptyView
    = Return err.
Proof.
  assert (H : forall (m : gmap string v1alpha1.Action) n a,
                In (n, a) (map_to_list m) -> m !! n = Some a).
  { intros m n a Hin. apply elem_of_map_to_list, list_elem_of_In, Hin. }
  split; [exact H|].
  exact (Validate_never_panics testplan.anyName workflow.parsesState workflow.parsesAlert
           testplan.templateFound testplan.templateFound workflow.noFormat
           scenario.emptyView map_to_list "plan"
           [testplan.serviceAction "a"; testplan.serviceAction "b"] H).
Defined.

(** X10 with the index visited in the order of [map_to_list]. *)
Lemma Validate_accepts_valid_plans_witness :
  (forall (m : gmap string v1alpha1.Action) n a,
      In (n, a) (map_to_list m) <-> m !! n = Some a) /\
  (testplan.Validate testplan.anyName workflow.parsesState workflow.parsesAlert
     testplan.templateFound testplan.templateFound workflow.noFormat map_to_list "plan"
     [testplan.serviceAction "a"; testplan.serviceAction "b"] scenario.emptyView
   = Return None <->
   testplan.validPlan testplan.anyName workflow.parsesState workflow.parsesAlert
     testplan.templateFound testplan.templateFound scenario.emptyView
     [testplan.serviceAction "a"; testplan.serviceAction "b"]).
Proof.
  assert (H : forall (m : gmap string v1alpha1.Action) n a,
                In (n, a) (map_to_list m) <-> m !! n = Some a).
  { intros m n a. rewrite <- elem_of_map_to_list. symmetry. apply list_elem_of_In. }
  split; [exact H|].
  exact (Validate_accepts_valid_plans testplan.anyName workflow.parsesState
           workflow.parsesAlert testplan.templateFound testplan.templateFound
           workflow.noFormat scenario.emptyView map_to_list "plan"
           [testplan.serviceAction "a"; testplan.serviceAction "b"] H).
Defined.

(** X11 at a workflow of one Service action. *)
Lemma ValidateDAG_accepted_witness :
  workflow.ValidateDAG testplan.anyName workflow.parsesState workflow.parsesAlert
    workflow.noFormat [testplan.serviceAction "a"] scenario.emptyView = Return None /\
  In (testplan.serviceAction "a") [testplan.serviceAction "a"] /\
  testplan.dependenciesDefined [testplan.serviceAction "a"] (testplan.serviceAction "a").
Proof.
  assert (H : workflow.ValidateDAG testplan.anyName workflow.parsesState
                workflow.parsesAlert workflow.noFormat [testplan.serviceAction "a"]
                scenario.emptyView = Return None) by (vm_compute; reflexivity).
  split; [exact H|]. split; [left; reflexivity|].
  exact (proj1 (proj2 (ValidateDAG_accepted testplan.anyName workflow.parsesState
                         workflow.parsesAlert workflow.noFormat scenario.emptyView
                         [testplan.serviceAction "a"] H (testplan.serviceAction "a")
                         (or_introl eq_refl)))).
Defined.

(** X12 at a Running Stop job over two services, both stopped. *)
Lemma stop_success_iff_all_successful_witness :
  let cr := stop.job ["a"; "b"] None v1alpha1.PhaseRunning 0 in
  stop.reachesTable cr /\
  exists status',
    stop.calculateLifecycle stop.neverFiredAlert stop.neverFiredState cr (stop.counts 0 2 0)
      = Return (status', cr) /\
    v1alpha1.Phase_ (stop.Lifecycle_ status') = v1alpha1.PhaseSuccess.
Proof.
  assert (H : stop.reachesTable (stop.job ["a"; "b"] None v1alpha1.PhaseRunning 0))
    by (split; [reflexivity | right; reflexivity]).
  split; [exact H|].
  exact (proj2 (stop_success_iff_all_successful stop.neverFiredAlert stop.neverFiredState
                  (stop.job ["a"; "b"] None v1alpha1.PhaseRunning 0) (stop.counts 0 2 0) H)
           eq_refl).
Defined.

(** X13 at a Running Stop job over two services with one failed job. *)
Lemma stop_table_keeps_running_witness :
  let cr := stop.job ["a"; "b"] None v1alpha1.PhaseRunning 0 in
  exists status' cr',
    stop.calculateLifecycle stop.neverFiredAlert stop.neverFiredState cr (stop.counts 1 0 1)
      = Return (status', cr') /\
    (v1alpha1.Phase_ (stop.Lifecycle_ status') = v1alpha1.PhaseRunning \/
     v1alpha1.Phase_ (stop.Lifecycle_ status') = v1alpha1.PhaseSuccess).
Proof.
  cbv zeta.
  assert (H : exists status' cr',
             stop.calculateLifecycle stop.neverFiredAlert stop.neverFiredState
               (stop.job ["a"; "b"] None v1alpha1.PhaseRunning 0) (stop.counts 1 0 1)
             = Return (status', cr')) by (vm_compute; eauto).
  destruct H as (status' & cr' & H). exists status', cr'. split; [exact H|].
  exact (stop_table_keeps_running stop.neverFiredAlert stop.neverFiredState
           (stop.job ["a"; "b"] None v1alpha1.PhaseRunning 0) (stop.counts 1 0 1)
           status' cr' eq_refl eq_refl H).
Defined.



(** X17 at a service with two telemetry agents whose monitors have one
    container each. *)
Lemma importAgents_stops_silently_witness :
  (forall cr monRef,
      service.resolveMonitor cr monRef = Ok (service.monitorSpec monRef)) /\
  fst (service.importAgents unit service.resolveMonitor
         (service.telemetryOnly ["cpu"; "memory"]) ["cpu"; "memory"]) = None.
Proof.
  split; [reflexivity|].
  exact (proj1 (importAgents_stops_silently unit service.resolveMonitor service.monitorSpec
                  (fun _ _ => eq_refl) ["cpu"; "memory"]
                  (service.telemetryOnly ["cpu"; "memory"]))).
Defined.
